(** * Scene composer: history, placement engine and selection state machine

    A shallow embedding of the editor core:
    - [useHistory]  (the bounded undo/redo stacks),
    - [useScene]    (registry, spawn bounds, saved conditions, the
                     randomized placement engine, the bounds proxy),
    - [SelectionManager] (click picking and keyboard shortcuts),
    - the guard of [RandomizationPanel] in front of Randomize mode.

    JavaScript numbers are kept behind the interface [JSNumber], with two
    instances: IEEE binary64 (what the program runs on) and the real
    numbers (exact arithmetic).  The rendering library is an external
    collaborator and enters through the interfaces [Three] and
    [SceneGraph]. *)

From Stdlib Require Import List String Ascii Bool Arith ZArith Lia.
From Stdlib Require Import Reals Lra.
From Stdlib Require Import Sorting.Permutation.
From Stdlib Require Import Floats.PrimFloat Numbers.Cyclic.Int63.Uint63.
Import ListNotations.

Set Implicit Arguments.
Set Primitive Projections.

(* ================================================================== *)
(** * Part I. Definitions                                              *)
(* ================================================================== *)

(** ** JavaScript numbers *)

Class JSNumber (num : Type) : Type := {
  ofZ  : Z -> num;                 (* an integer literal *)
  add  : num -> num -> num;
  sub  : num -> num -> num;
  mul  : num -> num -> num;
  div  : num -> num -> num;
  neg  : num -> num;               (* unary minus *)
  ltb  : num -> num -> bool;       (* a < b *)
  leb  : num -> num -> bool;       (* a <= b *)
  eqb  : num -> num -> bool;       (* a === b *)
  max  : num -> num -> num;        (* Math.max *)
  sqrt : num -> num;               (* Math.sqrt *)
  PI   : num                       (* Math.PI *)
}.

Declare Scope js_scope.
Delimit Scope js_scope with js.
Infix "+" := add : js_scope.
Infix "-" := sub : js_scope.
Infix "*" := mul : js_scope.
Infix "/" := div : js_scope.
Notation "- x" := (neg x) : js_scope.
Infix "<?" := ltb : js_scope.
Infix "<=?" := leb : js_scope.
Infix "=?" := eqb : js_scope.
Notation "a >? b" := (ltb b a) : js_scope.
Notation "a >=? b" := (leb b a) : js_scope.

(** IEEE binary64: the numbers the program computes with. *)

Definition float_ofZ (z : Z) : float :=
  match z with
  | Z0 => PrimFloat.zero
  | Zpos _ => PrimFloat.of_uint63 (Uint63.of_Z z)
  | Zneg p => PrimFloat.opp (PrimFloat.of_uint63 (Uint63.of_Z (Zpos p)))
  end.

Definition float_max (a b : float) : float :=
  if (PrimFloat.is_nan a || PrimFloat.is_nan b)%bool then PrimFloat.nan
  else if PrimFloat.ltb a b then b
  else if PrimFloat.ltb b a then a
  else if PrimFloat.get_sign a then b else a.

#[export] Instance float_number : JSNumber float := {|
  ofZ := float_ofZ;
  add := PrimFloat.add;
  sub := PrimFloat.sub;
  mul := PrimFloat.mul;
  div := PrimFloat.div;
  neg := PrimFloat.opp;
  ltb := PrimFloat.ltb;
  leb := PrimFloat.leb;
  eqb := PrimFloat.eqb;
  max := float_max;
  sqrt := PrimFloat.sqrt;
  PI := 0x1.921fb54442d18p+1%float
|}.

(** Exact arithmetic: the real numbers. *)

Definition Rltb (a b : R) : bool := if Rlt_dec a b then true else false.
Definition Rleb (a b : R) : bool := if Rle_dec a b then true else false.
Definition Reqb (a b : R) : bool := if Req_dec_T a b then true else false.

#[export] Instance real_number : JSNumber R := {|
  ofZ := IZR;
  add := Rplus;
  sub := Rminus;
  mul := Rmult;
  div := Rdiv;
  neg := Ropp;
  ltb := Rltb;
  leb := Rleb;
  eqb := Reqb;
  max := Rmax;
  sqrt := R_sqrt.sqrt;
  PI := Rtrigo1.PI
|}.

(** ** JavaScript arrays *)

(** A relative index of [Array.prototype.slice]: negative indices count
    from the end, and everything is clamped to the array. *)
Definition relIndex (len : nat) (k : Z) : nat :=
  if (k <? 0)%Z then Z.to_nat (Z.max (Z.of_nat len + k) 0)
  else Nat.min (Z.to_nat k) len.

(** [arr.slice(start, stop)]; [stop = None] is [arr.slice(start)]. *)
Definition slice {A : Type} (arr : list A) (start : Z) (stop : option Z) : list A :=
  let len := List.length arr in
  let s := relIndex len start in
  let e := match stop with None => len | Some k => relIndex len k end in
  firstn (e - s) (skipn s arr).

(** [str.toLowerCase()] on the ASCII range. *)
Definition lowerAscii (c : ascii) : ascii :=
  let n := nat_of_ascii c in
  if ((65 <=? n) && (n <=? 90))%nat then ascii_of_nat (n + 32) else c.

Fixpoint toLowerCase (s : string) : string :=
  match s with
  | EmptyString => EmptyString
  | String c s' => String (lowerAscii c) (toLowerCase s')
  end.

(** ** useHistory *)

Section HistoryDefs.

Variable State : Type.

(** [interface Command]: the two closures act on the application state. *)
Record Command : Type := {
  cmd_type : string;
  execute : State -> State;
  cmd_undo : State -> State
}.

Definition MAX_HISTORY_SIZE : nat := 50.

(** The two refs of the hook; the last element of a list is the top. *)
Record History : Type := {
  undoStack : list Command;
  redoStack : list Command
}.

(** The application state together with the history that edits it. *)
Record World : Type := {
  state : State;
  history : History
}.

Definition pushCommand (h : History) (command : Command) : History :=
  let pushed := undoStack h ++ [command] in
  let trimmed :=
    if (MAX_HISTORY_SIZE <? List.length pushed)%nat
    then slice pushed (Z.of_nat (List.length pushed) - Z.of_nat MAX_HISTORY_SIZE) None
    else pushed in
  {| undoStack := trimmed; redoStack := [] |}.

Definition undo (w : World) : World :=
  let h := history w in
  if (List.length (undoStack h) =? 0)%nat then w
  else
    match nth_error (undoStack h) (List.length (undoStack h) - 1) with
    | None => w (* not reached: the stack is not empty *)
    | Some command =>
        {| state := cmd_undo command (state w);
           history := {| undoStack := slice (undoStack h) 0 (Some (-1)%Z);
                         redoStack := redoStack h ++ [command] |} |}
    end.

Definition redo (w : World) : World :=
  let h := history w in
  if (List.length (redoStack h) =? 0)%nat then w
  else
    match nth_error (redoStack h) (List.length (redoStack h) - 1) with
    | None => w (* not reached: the stack is not empty *)
    | Some command =>
        {| state := execute command (state w);
           history := {| undoStack := undoStack h ++ [command];
                         redoStack := slice (redoStack h) 0 (Some (-1)%Z) |} |}
    end.

Definition clear (w : World) : World :=
  {| state := state w; history := {| undoStack := []; redoStack := [] |} |}.

Definition canUndo (h : History) : bool := (0 <? List.length (undoStack h))%nat.
Definition canRedo (h : History) : bool := (0 <? List.length (redoStack h))%nat.

(** A caller of the hook first carries out its edit and then pushes the
    command that describes it: [(command, s')] is one such edit, [s'] the
    state the caller left behind. *)
Definition perform (w : World) (edit : Command * State) : World :=
  {| state := snd edit; history := pushCommand (history w) (fst edit) |}.

Definition performAll (w : World) (edits : list (Command * State)) : World :=
  fold_left perform edits w.

(** The Command invariant along a sequence of edits: at the state where
    it was constructed, each command's [undo] takes the caller's result
    back and its [execute] reproduces it. *)
Fixpoint legal (s : State) (edits : list (Command * State)) : Prop :=
  match edits with
  | [] => True
  | (c, s') :: rest => cmd_undo c s' = s /\ execute c s = s' /\ legal s' rest
  end.

(** The two stacks together never hold more than fifty commands. *)
Definition within_capacity (h : History) : Prop :=
  List.length (undoStack h) + List.length (redoStack h) <= MAX_HISTORY_SIZE.

End HistoryDefs.

Arguments perform {State} w edit.
Arguments performAll {State} w edits.
Arguments legal {State} s edits.
Arguments undo {State} w.
Arguments redo {State} w.
Arguments clear {State} w.
Arguments pushCommand {State} h command.
Arguments canUndo {State} h.
Arguments canRedo {State} h.
Arguments within_capacity {State} h.

(** ** Geometry and pose primitives *)

Record Vec2 (num : Type) : Type := { v2x : num; v2y : num }.
Record Vec3 (num : Type) : Type := { vx : num; vy : num; vz : num }.

(** [THREE.Box3]: the two corners [box.min] and [box.max]. *)
Record Box3 (num : Type) : Type := { box_min : Vec3 num; box_max : Vec3 num }.

(** [THREE.Object3D] as the core sees it: the renderable sub-hierarchy is
    the opaque [geometry], the orientation an opaque quaternion. *)
Record Object3D (num Quaternion Geometry : Type) : Type := {
  geometry : Geometry;
  position : Vec3 num;
  quaternion : Quaternion;
  scale : Vec3 num
}.

(** The services the core consumes from the rendering library. *)
Class Three (num Quaternion Geometry : Type) : Type := {
  (* new THREE.Quaternion().setFromAxisAngle(new THREE.Vector3(0, 1, 0), angle) *)
  setFromAxisAngleY : num -> Quaternion;
  (* q.premultiply(r) *)
  premultiply : Quaternion -> Quaternion -> Quaternion;
  (* quaternion.set(0, 0, 0, 1) *)
  identityQuaternion : Quaternion;
  (* object.rotation.set(x, y, z), in radians *)
  setFromEuler : num -> num -> num -> Quaternion;
  (* new THREE.Box3().setFromObject(object) *)
  setFromObject : Object3D num Quaternion Geometry -> Box3 num;
  (* box1.intersectsBox(box2) *)
  intersectsBox : Box3 num -> Box3 num -> bool;
  (* box.getSize(target) *)
  getSize : Box3 num -> Vec3 num
}.

(** A JavaScript object reference. *)
Definition ObjRef : Type := nat.

(** [LoadedAsset]: the registry entry; [object] refers to the root node. *)
Record LoadedAsset : Type := {
  id : string;
  name : string;
  object : ObjRef;
  locked : bool;
  excludeFromExport : bool;
  disableGravity : bool
}.

(** [Map<string, V>]: keys in insertion order, no key twice. *)
Definition JSMap (V : Type) : Type := list (string * V).

Fixpoint mapSet {V : Type} (m : JSMap V) (k : string) (v : V) : JSMap V :=
  match m with
  | [] => [(k, v)]
  | (k', v') :: rest =>
      if String.eqb k' k then (k', v) :: rest else (k', v') :: mapSet rest k v
  end.

Fixpoint mapGet {V : Type} (m : JSMap V) (k : string) : option V :=
  match m with
  | [] => None
  | (k', v') :: rest => if String.eqb k' k then Some v' else mapGet rest k
  end.

Definition mapSize {V : Type} (m : JSMap V) : nat := List.length m.

(** ** useScene *)

Section SceneDefs.

Context {num : Type} {NUM : JSNumber num}.
Context {Quaternion Geometry : Type} {THREE : Three num Quaternion Geometry}.

Local Open Scope js_scope.

Record SpawnBounds : Type := {
  minX : num;
  maxX : num;
  minY : num;
  maxY : num
}.

Record SavedPose : Type := {
  pose_position : Vec3 num;
  pose_quaternion : Quaternion
}.

Record SavedCondition : Type := {
  poses : JSMap SavedPose
}.

(** The spawn-bounds proxy: a [THREE.Mesh] over a [THREE.PlaneGeometry]. *)
Record PlaneGeometry : Type := { width : num; height : num }.

Record Mesh : Type := {
  mesh_geometry : PlaneGeometry;
  mesh_position : Vec3 num;
  mesh_rotation : Vec3 num;   (* Euler angles *)
  mesh_scale : Vec3 num
}.

(** The objects every reference resolves to. *)
Definition Store : Type := ObjRef -> Object3D num Quaternion Geometry.

Definition upd (s : Store) (r : ObjRef) (o : Object3D num Quaternion Geometry) : Store :=
  fun r' => if Nat.eqb r' r then o else s r'.

Definition setPosition (s : Store) (r : ObjRef) (p : Vec3 num) : Store :=
  upd s r {| geometry := geometry (s r); position := p;
             quaternion := quaternion (s r); scale := scale (s r) |}.

Definition setQuaternion (s : Store) (r : ObjRef) (q : Quaternion) : Store :=
  upd s r {| geometry := geometry (s r); position := position (s r);
             quaternion := q; scale := scale (s r) |}.

Definition setScale (s : Store) (r : ObjRef) (v : Vec3 num) : Store :=
  upd s r {| geometry := geometry (s r); position := position (s r);
             quaternion := quaternion (s r); scale := v |}.

Record SceneState : Type := {
  assets : list LoadedAsset;
  objects : Store;
  isRandomizeMode : bool;
  spawnBounds : SpawnBounds;
  savedPoses : option (JSMap SavedPose);
  savedConditions : list SavedCondition;
  instruction : string;
  boundsMeshRef : option Mesh
}.

Definition setAssets (l : list LoadedAsset) (st : SceneState) : SceneState :=
  {| assets := l; objects := objects st; isRandomizeMode := isRandomizeMode st;
     spawnBounds := spawnBounds st; savedPoses := savedPoses st;
     savedConditions := savedConditions st; instruction := instruction st;
     boundsMeshRef := boundsMeshRef st |}.

Definition setObjects (s : Store) (st : SceneState) : SceneState :=
  {| assets := assets st; objects := s; isRandomizeMode := isRandomizeMode st;
     spawnBounds := spawnBounds st; savedPoses := savedPoses st;
     savedConditions := savedConditions st; instruction := instruction st;
     boundsMeshRef := boundsMeshRef st |}.

Definition setIsRandomizeMode (b : bool) (st : SceneState) : SceneState :=
  {| assets := assets st; objects := objects st; isRandomizeMode := b;
     spawnBounds := spawnBounds st; savedPoses := savedPoses st;
     savedConditions := savedConditions st; instruction := instruction st;
     boundsMeshRef := boundsMeshRef st |}.

Definition setSpawnBoundsState (b : SpawnBounds) (st : SceneState) : SceneState :=
  {| assets := assets st; objects := objects st; isRandomizeMode := isRandomizeMode st;
     spawnBounds := b; savedPoses := savedPoses st;
     savedConditions := savedConditions st; instruction := instruction st;
     boundsMeshRef := boundsMeshRef st |}.

Definition setSavedPoses (p : option (JSMap SavedPose)) (st : SceneState) : SceneState :=
  {| assets := assets st; objects := objects st; isRandomizeMode := isRandomizeMode st;
     spawnBounds := spawnBounds st; savedPoses := p;
     savedConditions := savedConditions st; instruction := instruction st;
     boundsMeshRef := boundsMeshRef st |}.

Definition setSavedConditions (c : list SavedCondition) (st : SceneState) : SceneState :=
  {| assets := assets st; objects := objects st; isRandomizeMode := isRandomizeMode st;
     spawnBounds := spawnBounds st; savedPoses := savedPoses st;
     savedConditions := c; instruction := instruction st;
     boundsMeshRef := boundsMeshRef st |}.

Definition setInstruction (txt : string) (st : SceneState) : SceneState :=
  {| assets := assets st; objects := objects st; isRandomizeMode := isRandomizeMode st;
     spawnBounds := spawnBounds st; savedPoses := savedPoses st;
     savedConditions := savedConditions st; instruction := txt;
     boundsMeshRef := boundsMeshRef st |}.

Definition setBoundsMeshRef (m : option Mesh) (st : SceneState) : SceneState :=
  {| assets := assets st; objects := objects st; isRandomizeMode := isRandomizeMode st;
     spawnBounds := spawnBounds st; savedPoses := savedPoses st;
     savedConditions := savedConditions st; instruction := instruction st;
     boundsMeshRef := m |}.

(** The provider: the state plus the history of [useHistory]. *)
Definition Scene : Type := World SceneState.

Definition onState (f : SceneState -> SceneState) (w : Scene) : Scene :=
  {| state := f (state w); history := history w |}.

Definition push (command : Command SceneState) (w : Scene) : Scene :=
  {| state := state w; history := pushCommand (history w) command |}.

Definition DEFAULT_SPAWN_BOUNDS : SpawnBounds :=
  {| minX := - (ofZ 3 / ofZ 10);
     maxX := ofZ 3 / ofZ 10;
     minY := - (ofZ 3 / ofZ 10);
     maxY := ofZ 3 / ofZ 10 |}.

Definition findAsset (l : list LoadedAsset) (i : string) : option LoadedAsset :=
  find (fun a => String.eqb (id a) i) l.

Definition degToRad (d : num) : num := d * (PI / ofZ 180).

(** Helper to apply transform to an asset; [rotation] is in degrees. *)
Definition applyTransform (i : string) (p r s : Vec3 num) (st : SceneState) : SceneState :=
  match findAsset (assets st) i with
  | Some asset =>
      let s1 := setPosition (objects st) (object asset) p in
      let s2 := setQuaternion s1 (object asset)
                  (setFromEuler (degToRad (vx r)) (degToRad (vy r)) (degToRad (vz r))) in
      setObjects (setScale s2 (object asset) s) st
  | None => st
  end.

(** A position, a rotation in degrees and a scale. *)
Record Transform : Type := {
  t_position : Vec3 num;
  t_rotation : Vec3 num;
  t_scale : Vec3 num
}.

Definition createTransformCommand (i : string) (before after : Transform) (w : Scene) : Scene :=
  push {| cmd_type := "transform";
          execute := applyTransform i (t_position after) (t_rotation after) (t_scale after);
          cmd_undo := applyTransform i (t_position before) (t_rotation before) (t_scale before) |} w.

Definition createInstructionCommand (before after : string) (w : Scene) : Scene :=
  push {| cmd_type := "instruction";
          execute := setInstruction after;
          cmd_undo := setInstruction before |} w.

Definition createSpawnBoundsCommand (before after : SpawnBounds) (w : Scene) : Scene :=
  push {| cmd_type := "spawnBounds";
          execute := setSpawnBoundsState after;
          cmd_undo := setSpawnBoundsState before |} w.

(** Internal add and remove asset (no history). *)
Definition doAddAsset (asset : LoadedAsset) (st : SceneState) : SceneState :=
  setAssets (assets st ++ [asset]) st.

Definition doRemoveAsset (i : string) (st : SceneState) : SceneState :=
  setAssets (filter (fun a => negb (String.eqb (id a) i)) (assets st)) st.

Definition addAsset (asset : LoadedAsset) (w : Scene) : Scene :=
  push {| cmd_type := "addAsset";
          execute := doAddAsset asset;
          cmd_undo := doRemoveAsset (id asset) |}
       (onState (doAddAsset asset) w).

Definition removeAsset (i : string) (w : Scene) : Scene :=
  match findAsset (assets (state w)) i with
  | None => w
  | Some asset =>
      push {| cmd_type := "removeAsset";
              execute := doRemoveAsset i;
              cmd_undo := doAddAsset asset |}
           (onState (doRemoveAsset i) w)
  end.

(** The callback of [prev.map] in the toggle: a copy of the asset with
    the flag flipped when the id matches, the asset itself otherwise. *)
Definition toggled (i : string) (asset : LoadedAsset) : LoadedAsset :=
  if String.eqb (id asset) i
  then {| id := id asset; name := name asset; object := object asset;
          locked := locked asset;
          excludeFromExport := excludeFromExport asset;
          disableGravity := negb (disableGravity asset) |}
  else asset.

(** Internal toggle gravity (no history). *)
Definition doToggleAssetGravity (i : string) (st : SceneState) : SceneState :=
  setAssets (map (toggled i) (assets st)) st.

(** Public toggle gravity with history. *)
Definition toggleAssetGravity (i : string) (w : Scene) : Scene :=
  push {| cmd_type := "toggleGravity";
          execute := doToggleAssetGravity i;
          cmd_undo := doToggleAssetGravity i |}
       (onState (doToggleAssetGravity i) w).

(** *** The bounds proxy *)

Definition createBoundsMesh (bounds : SpawnBounds) : Mesh :=
  let sizeX := maxX bounds - minX bounds in
  let sizeY := maxY bounds - minY bounds in
  let centerX := (minX bounds + maxX bounds) / ofZ 2 in
  let centerY := (minY bounds + maxY bounds) / ofZ 2 in
  {| mesh_geometry := {| width := sizeX; height := sizeY |};
     mesh_position := {| vx := centerX; vy := ofZ 0; vz := - centerY |};
     mesh_rotation := {| vx := - PI / ofZ 2; vy := ofZ 0; vz := ofZ 0 |};
     mesh_scale := {| vx := ofZ 1; vy := ofZ 1; vz := ofZ 1 |} |}.

(** The bounds [updateBoundsFromMesh] reads off the proxy. *)
Definition boundsFromMesh (mesh : Mesh) : SpawnBounds :=
  let pos := mesh_position mesh in
  let scl := mesh_scale mesh in
  let params := mesh_geometry mesh in
  let sizeX := width params * vx scl in
  let sizeY := height params * vz scl in
  {| minX := vx pos - sizeX / ofZ 2;
     maxX := vx pos + sizeX / ofZ 2;
     minY := - vz pos - sizeY / ofZ 2;
     maxY := - vz pos + sizeY / ofZ 2 |}.

Definition updateBoundsFromMesh (mesh : Mesh) (st : SceneState) : SceneState :=
  setSpawnBoundsState (boundsFromMesh mesh) st.

(** [enterRandomizeMode]: the proxy is built for the current bounds and
    handed to [attachToBoundsMesh].  Attaching the gizmo fires its change
    event, and the listener of the manager then calls the callback that
    came with the mesh, [updateBoundsFromMesh]: the bounds of the state
    become the bounds read back from the proxy. *)
Definition enterRandomizeMode (st : SceneState) : SceneState :=
  let mesh := createBoundsMesh (spawnBounds st) in
  updateBoundsFromMesh mesh
    (setBoundsMeshRef (Some mesh) (setIsRandomizeMode true st)).

Definition exitRandomizeMode (st : SceneState) : SceneState :=
  setSavedPoses None (setBoundsMeshRef None (setIsRandomizeMode false st)).

(** *** Poses *)

Definition isDynamic (a : LoadedAsset) : bool :=
  negb (excludeFromExport a) && negb (disableGravity a) && negb (locked a).

Definition poseOf (s : Store) (asset : LoadedAsset) : SavedPose :=
  {| pose_position := position (s (object asset));
     pose_quaternion := quaternion (s (object asset)) |}.

(** Helper to apply poses to assets (for undo/redo). *)
Definition applyPose (l : list LoadedAsset) (s : Store) (entry : string * SavedPose) : Store :=
  match findAsset l (fst entry) with
  | Some asset =>
      setQuaternion (setPosition s (object asset) (pose_position (snd entry)))
                    (object asset) (pose_quaternion (snd entry))
  | None => s
  end.

Definition applyPoses (ps : JSMap SavedPose) (st : SceneState) : SceneState :=
  setObjects (fold_left (applyPose (assets st)) ps (objects st)) st.

(** The poses of the dynamic assets, keyed by id. *)
Definition posesOf (s : Store) (l : list LoadedAsset) : JSMap SavedPose :=
  fold_left (fun m asset => mapSet m (id asset) (poseOf s asset)) l [].

(** Helper to capture current poses of dynamic assets. *)
Definition capturePoses (st : SceneState) : JSMap SavedPose :=
  posesOf (objects st) (filter isDynamic (assets st)).

(** *** The randomized placement engine *)

Definition getAssetBoundingBox (s : Store) (asset : LoadedAsset) : Box3 num :=
  setFromObject (s (object asset)).

Definition checkCollision (box1 box2 : Box3 num) : bool := intersectsBox box1 box2.

(** Measures the asset at the origin under [useRotation], then restores
    the transform it found: the store is written twice and restored. *)
Definition getAssetLocalSize (s : Store) (asset : LoadedAsset)
    (useRotation : option Quaternion) : Vec3 num * Store :=
  let savedPos := position (s (object asset)) in
  let savedQuat := quaternion (s (object asset)) in
  let s1 := setPosition s (object asset) {| vx := ofZ 0; vy := ofZ 0; vz := ofZ 0 |} in
  let s2 := setQuaternion s1 (object asset)
              match useRotation with
              | Some q => q
              | None => identityQuaternion
              end in
  let box := setFromObject (s2 (object asset)) in
  let size := getSize box in
  let s3 := setPosition s2 (object asset) savedPos in
  let s4 := setQuaternion s3 (object asset) savedQuat in
  (size, s4).

(** Only the two planar axes are checked; planar Y is minus the scene Z. *)
Definition isBoxWithinSpawnBounds (bounds : SpawnBounds) (box : Box3 num) : bool :=
  let lowX := minX bounds in
  let highX := maxX bounds in
  let lowZ := - maxY bounds in
  let highZ := - minY bounds in
  (vx (box_min box) >=? lowX) && (vx (box_max box) <=? highX) &&
  (vz (box_min box) >=? lowZ) && (vz (box_max box) <=? highZ).

Definition maxAttempts : nat := 100.

(** What the placement loop carries: the objects, the boxes placed so
    far in this pass and the number of [Math.random()] calls made. *)
Record Placement : Type := {
  placed_objects : Store;
  placedBoxes : list (Box3 num);
  drawn : nat
}.

(** The per-asset constants computed before the attempts. *)
Record Fit : Type := {
  validMinX : num;
  validMaxX : num;
  validMinY : num;
  validMaxY : num;
  canFit : bool;
  originalHeight : num
}.

Definition fitOf (bounds : SpawnBounds) (s : Store) (asset : LoadedAsset)
    (savedPose : option SavedPose) (assetSize : Vec3 num) : Fit :=
  let maxHorizontalExtent := max (vx assetSize) (vz assetSize) / ofZ 2 in
  let lowX := minX bounds + maxHorizontalExtent in
  let highX := maxX bounds - maxHorizontalExtent in
  let lowY := minY bounds + maxHorizontalExtent in
  let highY := maxY bounds - maxHorizontalExtent in
  {| validMinX := lowX; validMaxX := highX; validMinY := lowY; validMaxY := highY;
     canFit := (lowX <? highX) && (lowY <? highY);
     originalHeight := match savedPose with
                       | Some sp => vy (pose_position sp)
                       | None => vy (position (s (object asset)))
                       end |}.

(** One pass of the attempt loop's body: the candidate pose is written
    to the object, then tested.  [random k] is the value of the k-th
    call of [Math.random()]. *)
Definition attempt (random : nat -> num) (bounds : SpawnBounds) (asset : LoadedAsset)
    (savedPose : option SavedPose) (fit : Fit) (p : Placement) : Placement * bool :=
  let '(x, z, k) :=
    if canFit fit
    then (validMinX fit + random (drawn p) * (validMaxX fit - validMinX fit),
          - (validMinY fit + random (S (drawn p)) * (validMaxY fit - validMinY fit)),
          S (S (drawn p)))
    else ((minX bounds + maxX bounds) / ofZ 2,
          - ((minY bounds + maxY bounds) / ofZ 2),
          drawn p) in
  let rotY := random k * PI * ofZ 2 in
  let randomYRotation := setFromAxisAngleY rotY in
  let s1 := setPosition (placed_objects p) (object asset)
              {| vx := x; vy := originalHeight fit; vz := z |} in
  let s2 := setQuaternion s1 (object asset)
              match savedPose with
              | Some sp => premultiply (pose_quaternion sp) randomYRotation
              | None => setFromEuler (ofZ 0) rotY (ofZ 0)
              end in
  let assetBox := getAssetBoundingBox s2 asset in
  let hasCollision := existsb (checkCollision assetBox) (placedBoxes p) in
  let withinBounds := isBoxWithinSpawnBounds bounds assetBox in
  if negb hasCollision && withinBounds
  then ({| placed_objects := s2; placedBoxes := placedBoxes p ++ [assetBox]; drawn := S k |}, true)
  else if negb (canFit fit) && negb hasCollision
  then ({| placed_objects := s2; placedBoxes := placedBoxes p ++ [assetBox]; drawn := S k |}, true)
  else ({| placed_objects := s2; placedBoxes := placedBoxes p; drawn := S k |}, false).

(** [for (attempt = 0; attempt < maxAttempts && !placed; attempt++)],
    with [n] the attempts that remain; the flag returned is [placed]. *)
Fixpoint attempts (n : nat) (random : nat -> num) (bounds : SpawnBounds)
    (asset : LoadedAsset) (savedPose : option SavedPose) (fit : Fit)
    (p : Placement) : Placement * bool :=
  match n with
  | O => (p, false)
  | S n' =>
      let '(p', placed) := attempt random bounds asset savedPose fit p in
      if placed then (p', true)
      else attempts n' random bounds asset savedPose fit p'
  end.

(** What is fixed for an asset before its attempts: its saved pose, its
    fit, and the placement with the store as [getAssetLocalSize] leaves
    it. *)
Record Turn : Type := {
  savedPose : option SavedPose;
  fit : Fit;
  start : Placement
}.

Definition prepare (bounds : SpawnBounds) (saved : JSMap SavedPose)
    (p : Placement) (asset : LoadedAsset) : Turn :=
  let found := mapGet saved (id asset) in
  let measured :=
    getAssetLocalSize (placed_objects p) asset
      match found with Some sp => Some (pose_quaternion sp) | None => None end in
  {| savedPose := found;
     fit := fitOf bounds (snd measured) asset found (fst measured);
     start := {| placed_objects := snd measured;
                 placedBoxes := placedBoxes p;
                 drawn := drawn p |} |}.

(** The attempt loop of an asset at its turn. *)
Definition runAttempts (random : nat -> num) (bounds : SpawnBounds)
    (asset : LoadedAsset) (t : Turn) : Placement * bool :=
  attempts maxAttempts random bounds asset (savedPose t) (fit t) (start t).

(** The body of [for (const asset of dynamicAssets)]. *)
Definition placeAsset (random : nat -> num) (bounds : SpawnBounds)
    (saved : JSMap SavedPose) (p : Placement) (asset : LoadedAsset) : Placement :=
  let result := runAttempts random bounds asset (prepare bounds saved p asset) in
  if snd result then fst result
  else {| placed_objects := placed_objects (fst result);
          placedBoxes := placedBoxes (fst result)
                         ++ [getAssetBoundingBox (placed_objects (fst result)) asset];
          drawn := drawn (fst result) |}.

Definition placeAll (random : nat -> num) (bounds : SpawnBounds)
    (saved : JSMap SavedPose) (p : Placement) (l : list LoadedAsset) : Placement :=
  fold_left (placeAsset random bounds saved) l p.

(** Internal randomize (no history). *)
Definition doRandomizeNonStaticAssets (random : nat -> num) (st : SceneState) : SceneState :=
  let dynamicAssets := filter isDynamic (assets st) in
  if (List.length dynamicAssets =? 0)%nat then st
  else
    let saved := posesOf (objects st) dynamicAssets in
    let st1 := setSavedPoses (Some saved) st in
    let p := placeAll random (spawnBounds st) saved
               {| placed_objects := objects st1; placedBoxes := []; drawn := 0 |}
               dynamicAssets in
    setObjects (placed_objects p) st1.

(** Public randomize with history. *)
Definition randomizeNonStaticAssets (random : nat -> num) (w : Scene) : Scene :=
  let beforePoses := capturePoses (state w) in
  if (mapSize beforePoses =? 0)%nat then w
  else
    let w1 := onState (doRandomizeNonStaticAssets random) w in
    let afterPoses := capturePoses (state w1) in
    push {| cmd_type := "randomize";
            execute := applyPoses afterPoses;
            cmd_undo := applyPoses beforePoses |} w1.

(** *** Saved conditions *)

Definition doAddSavedCondition (condition : SavedCondition) (st : SceneState) : SceneState :=
  setSavedConditions (savedConditions st ++ [condition]) st.

Definition doRemoveLastSavedCondition (st : SceneState) : SceneState :=
  setSavedConditions (slice (savedConditions st) 0 (Some (-1)%Z)) st.

Definition doSetSavedConditions (conditions : list SavedCondition) (st : SceneState) : SceneState :=
  setSavedConditions conditions st.

(** Save current condition without triggering randomization. *)
Definition saveCurrentCondition (w : Scene) : Scene :=
  let dynamicAssets := filter isDynamic (assets (state w)) in
  if (0 <? List.length dynamicAssets)%nat
  then
    let condition := {| poses := posesOf (objects (state w)) dynamicAssets |} in
    push {| cmd_type := "saveCondition";
            execute := doAddSavedCondition condition;
            cmd_undo := doRemoveLastSavedCondition |}
         (onState (doAddSavedCondition condition) w)
  else w.

Definition clearSavedConditions (w : Scene) : Scene :=
  let previousConditions := savedConditions (state w) in
  if (List.length previousConditions =? 0)%nat then w
  else
    push {| cmd_type := "clearConditions";
            execute := doSetSavedConditions [];
            cmd_undo := doSetSavedConditions previousConditions |}
         (onState (doSetSavedConditions []) w).

(** [arr.filter((_, i) => i !== index)]. *)
Definition removeIndex {A : Type} (arr : list A) (index : Z) : list A :=
  map snd
    (filter (fun entry => negb (Z.of_nat (fst entry) =? index)%Z)
            (combine (seq 0 (List.length arr)) arr)).

(** Delete a specific condition by index. *)
Definition deleteCondition (index : Z) (w : Scene) : Scene :=
  let previousConditions := savedConditions (state w) in
  if ((index <? 0) || (Z.of_nat (List.length previousConditions) <=? index))%Z then w
  else
    let newConditions := removeIndex previousConditions index in
    push {| cmd_type := "deleteCondition";
            execute := doSetSavedConditions newConditions;
            cmd_undo := doSetSavedConditions previousConditions |}
         (onState (doSetSavedConditions newConditions) w).

(** Load a saved condition (apply its poses to current assets). *)
Definition loadCondition (index : Z) (w : Scene) : Scene :=
  let conditions := savedConditions (state w) in
  if ((index <? 0) || (Z.of_nat (List.length conditions) <=? index))%Z then w
  else
    match nth_error conditions (Z.to_nat index) with
    | None => w (* not reached: the index is in range *)
    | Some condition =>
        let beforePoses := capturePoses (state w) in
        let w1 := onState (applyPoses (poses condition)) w in
        let afterPoses := capturePoses (state w1) in
        push {| cmd_type := "loadCondition";
                execute := applyPoses afterPoses;
                cmd_undo := applyPoses beforePoses |} w1
    end.

(** *** RandomizationPanel: the guard in front of Randomize mode *)

Definition exportableAssets (l : list LoadedAsset) : list LoadedAsset :=
  filter (fun a => negb (excludeFromExport a) && negb (locked a)) l.

Definition dynamicAssets (l : list LoadedAsset) : list LoadedAsset :=
  filter (fun a => negb (disableGravity a)) (exportableAssets l).

Definition staticAssets (l : list LoadedAsset) : list LoadedAsset :=
  filter (fun a => disableGravity a) (exportableAssets l).

Definition hasDynamicAssets (l : list LoadedAsset) : bool :=
  (0 <? List.length (dynamicAssets l))%nat.

Definition hasStaticAssets (l : list LoadedAsset) : bool :=
  (0 <? List.length (staticAssets l))%nat.

Definition canRandomize (l : list LoadedAsset) : bool :=
  hasDynamicAssets l && hasStaticAssets l.

(** The double-quote character of the hints. *)
Definition dquote : string := String (ascii_of_nat 34) EmptyString.

Definition getHint (l : list LoadedAsset) : string :=
  if negb (hasStaticAssets l) && negb (hasDynamicAssets l)
  then "Add assets to get started"
  else if negb (hasStaticAssets l)
  then "Mark at least one asset as " ++ dquote ++ "Disable Gravity" ++ dquote ++ " (static)"
  else if negb (hasDynamicAssets l)
  then "Add assets without " ++ dquote ++ "Disable Gravity" ++ dquote ++ " to randomize"
  else EmptyString.

(** The state and the notification shown, if any. *)
Definition handleEnterRandomize (st : SceneState) : SceneState * option string :=
  if negb (canRandomize (assets st)) then (st, Some (getHint (assets st)))
  else (enterRandomizeMode st, None).

(** [boundsEqual] of the panel: strict equality of the four sides. *)
Definition boundsEqual (a b : SpawnBounds) : bool :=
  (minX a =? minX b) && (maxX a =? maxX b) &&
  (minY a =? minY b) && (maxY a =? maxY b).

End SceneDefs.

Arguments SpawnBounds : clear implicits.
Arguments SavedPose : clear implicits.
Arguments SavedCondition : clear implicits.
Arguments PlaneGeometry : clear implicits.
Arguments Mesh : clear implicits.
Arguments Store : clear implicits.
Arguments SceneState : clear implicits.
Arguments Scene : clear implicits.
Arguments Placement : clear implicits.
Arguments Fit : clear implicits.
Arguments Turn : clear implicits.
Arguments Transform : clear implicits.

(** ** SelectionManager *)

Inductive TransformMode : Type := Translate | Rotate | Scale.

(** What the transform gizmo is attached to. *)
Inductive Attached : Type :=
| AttachedObject (o : ObjRef)
| AttachedBounds.

(** Where a key event comes from: [event.target instanceof ...]. *)
Inductive EventTarget : Type :=
| HTMLInputElement
| HTMLTextAreaElement
| OtherElement.

Record KeyboardEvent : Type := {
  target : EventTarget;
  key : string
}.

Record MouseEvent (num : Type) : Type := {
  clientX : num;
  clientY : num
}.

(** [getBoundingClientRect()] of the canvas. *)
Record DOMRect (num : Type) : Type := {
  rect_left : num;
  rect_top : num;
  rect_width : num;
  rect_height : num
}.

(** The scene graph and the raycaster, as the picking code consumes
    them: [traverse o] lists [o] and its descendants, [intersectObjects]
    returns the objects hit, nearest first. *)
Class SceneGraph (num : Type) : Type := {
  traverse : ObjRef -> list ObjRef;
  isMesh : ObjRef -> bool;
  intersectObjects : Vec2 num -> list ObjRef -> list ObjRef;
  getBoundingClientRect : DOMRect num
}.

Section SelectionDefs.

Context {num : Type} {NUM : JSNumber num} {GRAPH : SceneGraph num}.

Local Open Scope js_scope.

Record SelectionManager : Type := {
  sm_assets : list LoadedAsset;
  selectedAsset : option LoadedAsset;
  highlightBox : option ObjRef;            (* the object the outline follows *)
  sm_isRandomizeMode : bool;
  boundsMesh : option (Mesh num);
  isBoundsSelected : bool;
  wasDragging : bool;
  mouseDownPos : option (num * num);
  tc_mode : TransformMode;                 (* transformControls.mode *)
  tc_object : option Attached;             (* transformControls.object *)
  tc_dragging : bool;                      (* transformControls.dragging *)
  hasOnSelectionChange : bool;             (* the callback is registered *)
  selectionChanges : list (option LoadedAsset)  (* its calls, latest first *)
}.

Definition setAssetsOf (l : list LoadedAsset) (m : SelectionManager) : SelectionManager :=
  {| sm_assets := l; selectedAsset := selectedAsset m; highlightBox := highlightBox m;
     sm_isRandomizeMode := sm_isRandomizeMode m; boundsMesh := boundsMesh m;
     isBoundsSelected := isBoundsSelected m; wasDragging := wasDragging m;
     mouseDownPos := mouseDownPos m; tc_mode := tc_mode m; tc_object := tc_object m;
     tc_dragging := tc_dragging m; hasOnSelectionChange := hasOnSelectionChange m;
     selectionChanges := selectionChanges m |}.

Definition notifySelection (asset : option LoadedAsset) (m : SelectionManager) : list (option LoadedAsset) :=
  if hasOnSelectionChange m then asset :: selectionChanges m else selectionChanges m.

Definition select (asset : option LoadedAsset) (m : SelectionManager) : SelectionManager :=
  {| sm_assets := sm_assets m;
     selectedAsset := asset;
     highlightBox := match asset with Some a => Some (object a) | None => None end;
     sm_isRandomizeMode := sm_isRandomizeMode m; boundsMesh := boundsMesh m;
     isBoundsSelected := isBoundsSelected m; wasDragging := wasDragging m;
     mouseDownPos := mouseDownPos m; tc_mode := tc_mode m;
     tc_object := match asset with Some a => Some (AttachedObject (object a)) | None => None end;
     tc_dragging := tc_dragging m; hasOnSelectionChange := hasOnSelectionChange m;
     selectionChanges := notifySelection asset m |}.

Definition setMode (mode : TransformMode) (m : SelectionManager) : SelectionManager :=
  {| sm_assets := sm_assets m; selectedAsset := selectedAsset m; highlightBox := highlightBox m;
     sm_isRandomizeMode := sm_isRandomizeMode m; boundsMesh := boundsMesh m;
     isBoundsSelected := isBoundsSelected m; wasDragging := wasDragging m;
     mouseDownPos := mouseDownPos m; tc_mode := mode; tc_object := tc_object m;
     tc_dragging := tc_dragging m; hasOnSelectionChange := hasOnSelectionChange m;
     selectionChanges := selectionChanges m |}.

(** The callback given with the mesh is [updateBoundsFromMesh] of the
    provider; it is called by the gizmo's change events. *)
Definition attachToBoundsMesh (mesh : Mesh num) (m : SelectionManager) : SelectionManager :=
  {| sm_assets := sm_assets m; selectedAsset := selectedAsset m; highlightBox := highlightBox m;
     sm_isRandomizeMode := true; boundsMesh := Some mesh;
     isBoundsSelected := true; wasDragging := wasDragging m;
     mouseDownPos := mouseDownPos m; tc_mode := Translate; tc_object := Some AttachedBounds;
     tc_dragging := tc_dragging m; hasOnSelectionChange := hasOnSelectionChange m;
     selectionChanges := selectionChanges m |}.

Definition detachBoundsMesh (m : SelectionManager) : SelectionManager :=
  {| sm_assets := sm_assets m; selectedAsset := selectedAsset m; highlightBox := highlightBox m;
     sm_isRandomizeMode := false; boundsMesh := None;
     isBoundsSelected := false; wasDragging := wasDragging m;
     mouseDownPos := mouseDownPos m; tc_mode := tc_mode m; tc_object := None;
     tc_dragging := tc_dragging m; hasOnSelectionChange := hasOnSelectionChange m;
     selectionChanges := selectionChanges m |}.

Definition selectBounds (m : SelectionManager) : SelectionManager :=
  if negb (sm_isRandomizeMode m)
     || match boundsMesh m with Some _ => false | None => true end
  then m
  else
    {| sm_assets := sm_assets m; selectedAsset := None; highlightBox := None;
       sm_isRandomizeMode := sm_isRandomizeMode m; boundsMesh := boundsMesh m;
       isBoundsSelected := true; wasDragging := wasDragging m;
       mouseDownPos := mouseDownPos m; tc_mode := tc_mode m; tc_object := Some AttachedBounds;
       tc_dragging := tc_dragging m; hasOnSelectionChange := hasOnSelectionChange m;
       selectionChanges := notifySelection None m |}.

Definition setWasDragging (b : bool) (m : SelectionManager) : SelectionManager :=
  {| sm_assets := sm_assets m; selectedAsset := selectedAsset m; highlightBox := highlightBox m;
     sm_isRandomizeMode := sm_isRandomizeMode m; boundsMesh := boundsMesh m;
     isBoundsSelected := isBoundsSelected m; wasDragging := b;
     mouseDownPos := mouseDownPos m; tc_mode := tc_mode m; tc_object := tc_object m;
     tc_dragging := tc_dragging m; hasOnSelectionChange := hasOnSelectionChange m;
     selectionChanges := selectionChanges m |}.

Definition setMouseDownPos (pos : option (num * num)) (m : SelectionManager) : SelectionManager :=
  {| sm_assets := sm_assets m; selectedAsset := selectedAsset m; highlightBox := highlightBox m;
     sm_isRandomizeMode := sm_isRandomizeMode m; boundsMesh := boundsMesh m;
     isBoundsSelected := isBoundsSelected m; wasDragging := wasDragging m;
     mouseDownPos := pos; tc_mode := tc_mode m; tc_object := tc_object m;
     tc_dragging := tc_dragging m; hasOnSelectionChange := hasOnSelectionChange m;
     selectionChanges := selectionChanges m |}.

Definition setIsBoundsSelected (b : bool) (m : SelectionManager) : SelectionManager :=
  {| sm_assets := sm_assets m; selectedAsset := selectedAsset m; highlightBox := highlightBox m;
     sm_isRandomizeMode := sm_isRandomizeMode m; boundsMesh := boundsMesh m;
     isBoundsSelected := b; wasDragging := wasDragging m;
     mouseDownPos := mouseDownPos m; tc_mode := tc_mode m; tc_object := tc_object m;
     tc_dragging := tc_dragging m; hasOnSelectionChange := hasOnSelectionChange m;
     selectionChanges := selectionChanges m |}.

Definition onMouseDown (event : MouseEvent num) (m : SelectionManager) : SelectionManager :=
  setWasDragging false (setMouseDownPos (Some (clientX event, clientY event)) m).

(** Get all meshes from non-locked assets. *)
Definition pickableMeshes (l : list LoadedAsset) : list ObjRef :=
  flat_map (fun asset =>
              if locked asset then []
              else filter isMesh (traverse (object asset)))
           l.

(** Find which asset owns this mesh: the first non-locked asset whose
    hierarchy holds the object hit. *)
Definition ownerOf (l : list LoadedAsset) (hitObject : ObjRef) : option LoadedAsset :=
  find (fun asset =>
          negb (locked asset) &&
          existsb (fun child => Nat.eqb child hitObject) (traverse (object asset)))
       l.

(** The click moved more than 5 pixels away from the mouse-down. *)
Definition movedTooFar (event : MouseEvent num) (m : SelectionManager) : bool :=
  match mouseDownPos m with
  | Some (downX, downY) =>
      let dx := clientX event - downX in
      let dy := clientY event - downY in
      let distance := sqrt (dx * dx + dy * dy) in
      distance >? ofZ 5
  | None => false
  end.

Definition onClick (event : MouseEvent num) (m : SelectionManager) : SelectionManager :=
  if tc_dragging m then m
  else if wasDragging m then setWasDragging false m
  else if movedTooFar event m then setMouseDownPos None m
  else
    let m1 := setMouseDownPos None m in
    let rect := getBoundingClientRect in
    let mouse :=
      {| v2x := ((clientX event - rect_left rect) / rect_width rect) * ofZ 2 - ofZ 1;
         v2y := - ((clientY event - rect_top rect) / rect_height rect) * ofZ 2 + ofZ 1 |} in
    let meshes := pickableMeshes (sm_assets m1) in
    let intersects := intersectObjects mouse meshes in
    match intersects with
    | hitObject :: _ =>
        match ownerOf (sm_assets m1) hitObject with
        | Some asset =>
            select (Some asset)
              (if sm_isRandomizeMode m1 then setIsBoundsSelected false m1 else m1)
        | None => m1
        end
    | [] =>
        if sm_isRandomizeMode m1 then selectBounds m1 else select None m1
    end.

Definition onKeyDown (event : KeyboardEvent) (m : SelectionManager) : SelectionManager :=
  match target event with
  | HTMLInputElement => m
  | _ =>
      let k := toLowerCase (key event) in
      if String.eqb k "g" then setMode Translate m
      else if String.eqb k "r" then setMode Rotate m
      else if String.eqb k "s" then setMode Scale m
      else if String.eqb k "escape" then select None m
      else m
  end.

(** The undo/redo key handler of [App]: its text-field guard. *)
Definition appIgnoresKey (event : KeyboardEvent) : bool :=
  match target event with
  | HTMLInputElement | HTMLTextAreaElement => true
  | OtherElement => false
  end.

(** What a click can do to the selection: leave it, pick a non-locked
    asset of the registry, or clear it. *)
Inductive ClickEffect (m m' : SelectionManager) : Prop :=
| click_keeps :
    selectedAsset m' = selectedAsset m ->
    tc_object m' = tc_object m ->
    selectionChanges m' = selectionChanges m ->
    ClickEffect m m'
| click_picks a :
    In a (sm_assets m) -> locked a = false ->
    selectedAsset m' = Some a ->
    tc_object m' = Some (AttachedObject (object a)) ->
    selectionChanges m' = notifySelection (Some a) m ->
    ClickEffect m m'
| click_clears :
    selectedAsset m' = None ->
    tc_object m' = None \/ tc_object m' = Some AttachedBounds ->
    selectionChanges m' = notifySelection None m ->
    ClickEffect m m'.

End SelectionDefs.

Arguments SelectionManager : clear implicits.

(** ** Scenarios *)

(** The scenes used as concrete inputs hold marker assets: the geometry
    of a marker is a single point at a distance along its local X axis,
    its orientation a heading about the vertical axis, in radians. *)

Definition originOf {num : Type} {NUM : JSNumber num} : Vec3 num :=
  {| vx := ofZ 0; vy := ofZ 0; vz := ofZ 0 |}.

Definition unitScale {num : Type} {NUM : JSNumber num} : Vec3 num :=
  {| vx := ofZ 1; vy := ofZ 1; vz := ofZ 1 |}.

(** A marker at the origin, heading 0, its point [offset] away. *)
Definition marker {num : Type} {NUM : JSNumber num} (offset : num) : Object3D num num num :=
  {| geometry := offset; position := originOf; quaternion := ofZ 0; scale := unitScale |}.

(** One dynamic asset "cube" on object 1 and one static asset "table"
    on object 2. *)
Definition cube : LoadedAsset :=
  {| id := "cube"; name := "Cube"; object := 1;
     locked := false; excludeFromExport := false; disableGravity := false |}.

Definition table : LoadedAsset :=
  {| id := "table"; name := "Table"; object := 2;
     locked := false; excludeFromExport := false; disableGravity := true |}.

(** A scene over the given registry, every marker [offset] off-centre. *)
Definition sceneOf {num : Type} {NUM : JSNumber num} (l : list LoadedAsset) (offset : num)
  : SceneState num num num :=
  {| assets := l;
     objects := fun _ => marker offset;
     isRandomizeMode := false;
     spawnBounds := DEFAULT_SPAWN_BOUNDS;
     savedPoses := None;
     savedConditions := [];
     instruction := EmptyString;
     boundsMeshRef := None |}.

Definition emptyHistory {State : Type} : History State :=
  {| undoStack := []; redoStack := [] |}.

Definition freshScene {num : Type} {NUM : JSNumber num} (l : list LoadedAsset) (offset : num)
  : World (SceneState num num num) :=
  {| state := sceneOf l offset; history := emptyHistory |}.

(** The text after [k] keystrokes. *)
Fixpoint typed (k : nat) : string :=
  match k with
  | O => EmptyString
  | S k' => String "a" (typed k')
  end.

(** [n] instruction edits in a row, starting from the text [typed k]:
    each one types a letter and then leaves the field, which pushes the
    command of [createInstructionCommand]. *)
Fixpoint typing {num Quaternion Geometry : Type} (k n : nat)
    (st : SceneState num Quaternion Geometry)
  : list (Command (SceneState num Quaternion Geometry) * SceneState num Quaternion Geometry) :=
  match n with
  | O => []
  | S n' =>
      let st' := setInstruction (typed (S k)) st in
      ({| cmd_type := "instruction";
          execute := setInstruction (typed (S k));
          cmd_undo := setInstruction (typed k) |}, st') :: typing (S k) n' st'
  end.

(** The rendering services for markers, in exact arithmetic.  A heading
    [h] turns the point [(d, 0, 0)] to [(d cos h, 0, - d sin h)]; the
    bounding box of a marker is that single point. *)
Definition markerBox (o : Object3D R R R) : Box3 R :=
  let point :=
    {| vx := (vx (position o) + geometry o * vx (scale o) * cos (quaternion o))%R;
       vy := vy (position o);
       vz := (vz (position o) - geometry o * vx (scale o) * sin (quaternion o))%R |} in
  {| box_min := point; box_max := point |}.

Definition boxesIntersect (a b : Box3 R) : bool :=
  Rleb (vx (box_min a)) (vx (box_max b)) && Rleb (vx (box_min b)) (vx (box_max a)) &&
  Rleb (vy (box_min a)) (vy (box_max b)) && Rleb (vy (box_min b)) (vy (box_max a)) &&
  Rleb (vz (box_min a)) (vz (box_max b)) && Rleb (vz (box_min b)) (vz (box_max a)).

Definition boxSize (b : Box3 R) : Vec3 R :=
  if Rltb (vx (box_max b)) (vx (box_min b)) || Rltb (vy (box_max b)) (vy (box_min b))
     || Rltb (vz (box_max b)) (vz (box_min b))
  then {| vx := 0%R; vy := 0%R; vz := 0%R |}
  else {| vx := (vx (box_max b) - vx (box_min b))%R;
          vy := (vy (box_max b) - vy (box_min b))%R;
          vz := (vz (box_max b) - vz (box_min b))%R |}.

#[export] Instance markerThree : Three R R R := {|
  setFromAxisAngleY := fun angle => angle;
  premultiply := fun q r => (r + q)%R;
  identityQuaternion := 0%R;
  setFromEuler := fun _ y _ => y;   (* markers only turn about the vertical *)
  setFromObject := markerBox;
  intersectsBox := boxesIntersect;
  getSize := boxSize
|}.

(** [Math.random()] returning 0 at every call. *)
Definition alwaysZero : nat -> R := fun _ => 0%R.

(** The turn of the cube in a pass over the registry [l], its point
    [d] off-centre: there is nothing before it in the pass. *)
Definition cubePose : SavedPose R R :=
  {| pose_position := originOf; pose_quaternion := 0%R |}.

Definition cubeTurn (l : list LoadedAsset) (d : R) : Turn R R R :=
  prepare DEFAULT_SPAWN_BOUNDS
    (posesOf (objects (state (freshScene l d))) (filter isDynamic l))
    {| placed_objects := objects (state (freshScene l d)); placedBoxes := []; drawn := 0 |}
    cube.

(** The pose tried for the cube at every attempt when [Math.random()]
    returns 0: the corner of the valid rectangle, heading 0. *)
Definition cubeCandidate (d : R) : Object3D R R R :=
  {| geometry := d;
     position := {| vx := (- (3 / 10))%R; vy := 0%R; vz := (- - (3 / 10))%R |};
     quaternion := 0%R;
     scale := unitScale |}.

(** Bounds whose sides are tenths. *)
Definition tenthsBounds {num : Type} {NUM : JSNumber num} (x0 x1 y0 y1 : Z) : SpawnBounds num :=
  {| minX := (ofZ x0 / ofZ 10)%js; maxX := (ofZ x1 / ofZ 10)%js;
     minY := (ofZ y0 / ofZ 10)%js; maxY := (ofZ y1 / ofZ 10)%js |}.

(** A scene graph for the picking scenarios: every root [o] has one
    mesh child [10 * o + 1]; under the cursor lie, nearest first, the
    mesh of object 3 and behind it the mesh of object 1. *)
Definition underCursor : list ObjRef := [31; 11].

#[export] Instance cursorGraph : SceneGraph float := {|
  traverse := fun o => [o; 10 * o + 1];
  isMesh := fun o => (10 <? o)%nat;
  intersectObjects := fun _ meshes =>
    filter (fun hit => existsb (Nat.eqb hit) meshes) underCursor;
  getBoundingClientRect :=
    {| rect_left := ofZ 0; rect_top := ofZ 0; rect_width := ofZ 800; rect_height := ofZ 600 |}
|}.

(** A locked wall on object 3, in front of the cube. *)
Definition wall : LoadedAsset :=
  {| id := "wall"; name := "Wall"; object := 3;
     locked := true; excludeFromExport := true; disableGravity := true |}.

Definition idleManager : SelectionManager float :=
  {| sm_assets := [wall; cube; table];
     selectedAsset := None; highlightBox := None;
     sm_isRandomizeMode := false; boundsMesh := None; isBoundsSelected := false;
     wasDragging := false; mouseDownPos := None;
     tc_mode := Translate; tc_object := None; tc_dragging := false;
     hasOnSelectionChange := true; selectionChanges := [] |}.

Definition clickAt (px py : Z) : MouseEvent float :=
  {| clientX := ofZ px; clientY := ofZ py |}.

(** The binary64 scene of the history scenarios. *)
Definition floatScene : World (SceneState float float float) :=
  freshScene [cube; table] (ofZ 0).

(** ** Users of the history hook *)

Section HistoryOps.

Variable State : Type.

(** What a user of the hook can do with it: push the command of an
    edit it has carried out, undo, redo, clear. *)
Inductive HistoryOp : Type :=
| OpPush (command : Command State) (s' : State)
| OpUndo
| OpRedo
| OpClear.

Definition runOp (w : World State) (op : HistoryOp) : World State :=
  match op with
  | OpPush command s' => perform w (command, s')
  | OpUndo => undo w
  | OpRedo => redo w
  | OpClear => clear w
  end.

Definition runOps (w : World State) (ops : list HistoryOp) : World State :=
  fold_left runOp ops w.

End HistoryOps.

Arguments OpUndo {State}.
Arguments OpRedo {State}.
Arguments OpClear {State}.

(** ** useScene: the remaining operations *)

Section SceneMoreDefs.

Context {num : Type} {NUM : JSNumber num}.
Context {Quaternion Geometry : Type} {THREE : Three num Quaternion Geometry}.

Local Open Scope js_scope.

(** [setSpawnBounds]: the state is set and, in Randomize mode with a
    proxy present, the proxy is rebuilt for the new bounds and handed to
    [attachToBoundsMesh].  Attaching the gizmo fires its change event,
    whose listener calls [updateBoundsFromMesh] on the new proxy: the
    bounds the state ends with are the ones read back from the proxy,
    not the ones passed in. *)
Definition setSpawnBounds (bounds : SpawnBounds num)
    (st : SceneState num Quaternion Geometry) : SceneState num Quaternion Geometry :=
  let st1 := setSpawnBoundsState bounds st in
  if isRandomizeMode st
     && match boundsMeshRef st with Some _ => true | None => false end
  then
    let mesh := createBoundsMesh bounds in
    updateBoundsFromMesh mesh (setBoundsMeshRef (Some mesh) st1)
  else st1.

(** The bounds [setSpawnBounds] leaves in the state: read back from the
    proxy when one is rebuilt, as passed in otherwise. *)
Definition settledBounds (st : SceneState num Quaternion Geometry)
    (bounds : SpawnBounds num) : SpawnBounds num :=
  if isRandomizeMode st
     && match boundsMeshRef st with Some _ => true | None => false end
  then boundsFromMesh (createBoundsMesh bounds)
  else bounds.

(** Public acceptRandomization with history (save + randomize): what
    runs at once.  The randomization is left to a timer, whose body is
    [randomizeNonStaticAssets]. *)
Definition acceptRandomization (w : Scene num Quaternion Geometry)
  : Scene num Quaternion Geometry :=
  let movable := filter isDynamic (assets (state w)) in
  let w1 :=
    if (0 <? List.length movable)%nat
    then
      let condition := {| poses := posesOf (objects (state w)) movable |} in
      push {| cmd_type := "acceptRandomization";
              execute := doAddSavedCondition condition;
              cmd_undo := doRemoveLastSavedCondition |}
           (onState (doAddSavedCondition condition) w)
    else w in
  onState (setSavedPoses None) w1.

(** *** InstructionPanel *)

(** [beforeValueRef]. *)
Record InstructionPanel : Type := {
  beforeValueRef : option string
}.

Definition handleFocus (w : Scene num Quaternion Geometry) (panel : InstructionPanel)
  : InstructionPanel :=
  {| beforeValueRef := Some (instruction (state w)) |}.

(** [onInput]: the textarea writes its value to the state; the handlers
    read [instruction] as the latest render has it. *)
Definition onInput (value : string) (w : Scene num Quaternion Geometry)
  : Scene num Quaternion Geometry :=
  onState (setInstruction value) w.

Definition handleBlur (w : Scene num Quaternion Geometry) (panel : InstructionPanel)
  : Scene num Quaternion Geometry * InstructionPanel :=
  (match beforeValueRef panel with
   | Some before =>
       if negb (String.eqb before (instruction (state w)))
       then createInstructionCommand before (instruction (state w)) w
       else w
   | None => w
   end,
   {| beforeValueRef := None |}).

(** Focus, a run of inputs, blur. *)
Definition editInstruction (values : list string)
    (w : Scene num Quaternion Geometry) (panel : InstructionPanel)
  : Scene num Quaternion Geometry * InstructionPanel :=
  handleBlur (fold_left (fun w' value => onInput value w') values w)
             (handleFocus w panel).

(** *** RandomizationPanel: the bounds fields *)

(** [keyof SpawnBounds]. *)
Inductive BoundsKey : Type := KeyMinX | KeyMaxX | KeyMinY | KeyMaxY.

(** [{ ...spawnBounds, [key]: num }]. *)
Definition withSide (bounds : SpawnBounds num) (k : BoundsKey) (v : num) : SpawnBounds num :=
  match k with
  | KeyMinX => {| minX := v; maxX := maxX bounds; minY := minY bounds; maxY := maxY bounds |}
  | KeyMaxX => {| minX := minX bounds; maxX := v; minY := minY bounds; maxY := maxY bounds |}
  | KeyMinY => {| minX := minX bounds; maxX := maxX bounds; minY := v; maxY := maxY bounds |}
  | KeyMaxY => {| minX := minX bounds; maxX := maxX bounds; minY := minY bounds; maxY := v |}
  end.

(** [beforeBoundsRef]. *)
Record BoundsPanel : Type := {
  beforeBoundsRef : option (SpawnBounds num)
}.

Definition handleBoundsFocus (w : Scene num Quaternion Geometry) (panel : BoundsPanel)
  : BoundsPanel :=
  match beforeBoundsRef panel with
  | Some _ => panel
  | None => {| beforeBoundsRef := Some (spawnBounds (state w)) |}
  end.

Definition handleBoundsBlur (w : Scene num Quaternion Geometry) (panel : BoundsPanel)
  : Scene num Quaternion Geometry * BoundsPanel :=
  (match beforeBoundsRef panel with
   | Some before =>
       if negb (boundsEqual before (spawnBounds (state w)))
       then createSpawnBoundsCommand before (spawnBounds (state w)) w
       else w
   | None => w
   end,
   {| beforeBoundsRef := None |}).

(** [v] is the number the field holds, as [parseFloat(value) || 0]
    gives it.  The handlers of the panel close over the bounds of the
    latest render, which is the state the event finds. *)
Definition handleBoundsChange (k : BoundsKey) (v : num) (w : Scene num Quaternion Geometry)
  : Scene num Quaternion Geometry :=
  onState (setSpawnBounds (withSide (spawnBounds (state w)) k v)) w.

(** Focus, a run of changes, blur. *)
Definition editBounds (changes : list (BoundsKey * num))
    (w : Scene num Quaternion Geometry) (panel : BoundsPanel)
  : Scene num Quaternion Geometry * BoundsPanel :=
  handleBoundsBlur
    (fold_left (fun w' change => handleBoundsChange (fst change) (snd change) w') changes w)
    (handleBoundsFocus w panel).

(** *** Registry well-formedness *)

(** No two assets of the registry carry the same id. *)
Definition uniqueIds (l : list LoadedAsset) : Prop := NoDup (map id l).

(** The keys of a map. *)
Definition mapKeys {V : Type} (m : JSMap V) : list string := map fst m.

(** The object [o] with the position and orientation of [pose]. *)
Definition posed (o : Object3D num Quaternion Geometry) (pose : SavedPose num Quaternion)
  : Object3D num Quaternion Geometry :=
  {| geometry := geometry o; position := pose_position pose;
     quaternion := pose_quaternion pose; scale := scale o |}.

(** The fold of [posesOf], started from any map. *)
Definition captureFrom (s : Store num Quaternion Geometry) (l : list LoadedAsset)
    (m : JSMap (SavedPose num Quaternion)) : JSMap (SavedPose num Quaternion) :=
  fold_left (fun m0 asset => mapSet m0 (id asset) (poseOf s asset)) l m.

(** The pose an object has in a store. *)
Definition poseAt (s : Store num Quaternion Geometry) (r : ObjRef) : SavedPose num Quaternion :=
  {| pose_position := position (s r); pose_quaternion := quaternion (s r) |}.

(** The placement reached in a pass over the dynamic assets of [st]
    when the assets [pre] have had their turn, and the turn of the next
    asset. *)
Definition placedBefore (random : nat -> num) (st : SceneState num Quaternion Geometry)
    (pre : list LoadedAsset) : Placement num Quaternion Geometry :=
  placeAll random (spawnBounds st)
    (posesOf (objects st) (filter isDynamic (assets st)))
    {| placed_objects := objects st; placedBoxes := []; drawn := 0 |} pre.

Definition turnOf (random : nat -> num) (st : SceneState num Quaternion Geometry)
    (pre : list LoadedAsset) (asset : LoadedAsset) : Turn num Quaternion Geometry :=
  prepare (spawnBounds st) (posesOf (objects st) (filter isDynamic (assets st)))
    (placedBefore random st pre) asset.

End SceneMoreDefs.

Arguments InstructionPanel : clear implicits.
Arguments BoundsPanel : clear implicits.

(** ** App: the undo/redo key bindings *)

(** A key event with its modifiers. *)
Record KeyChord : Type := {
  chord_event : KeyboardEvent;
  ctrlKey : bool;
  metaKey : bool;
  shiftKey : bool
}.

Definition handleKeyDown {State : Type} (e : KeyChord) (w : World State) : World State :=
  if appIgnoresKey (chord_event e) then w
  else
    let w1 :=
      if (ctrlKey e || metaKey e) && String.eqb (key (chord_event e)) "z"
      then (if shiftKey e then redo w else undo w)
      else w in
    if (ctrlKey e || metaKey e) && String.eqb (key (chord_event e)) "y"
    then redo w1
    else w1.

(** ** SelectionManager: the drag handler *)

(** [object.rotation]: the Euler angles of an orientation, in radians. *)
Class EulerView (num Quaternion : Type) : Type := {
  rotationOf : Quaternion -> Vec3 num
}.

(** [TransformDragEvent]. *)
Record TransformDragEvent (num : Type) : Type := {
  assetId : string;
  before : Transform num;
  after : Transform num
}.

Section DragDefs.

Context {num : Type} {NUM : JSNumber num}.
Context {Quaternion Geometry : Type} {EULER : EulerView num Quaternion}.

Local Open Scope js_scope.

(** The manager with the fields the drag handler adds to the picture. *)
Record DragManager : Type := {
  manager : SelectionManager num;
  dragStartTransform : option (Transform num);
  orbitEnabled : bool;                     (* orbitControls.enabled *)
  hasOnTransformDragEnd : bool             (* the callback is registered *)
}.

Definition radToDeg (r : num) : num := r * (ofZ 180 / PI).

(** The position, the rotation in degrees and the scale of an object. *)
Definition snapshot (o : Object3D num Quaternion Geometry) : Transform num :=
  {| t_position := {| vx := vx (position o); vy := vy (position o); vz := vz (position o) |};
     t_rotation := {| vx := radToDeg (vx (rotationOf (quaternion o)));
                      vy := radToDeg (vy (rotationOf (quaternion o)));
                      vz := radToDeg (vz (rotationOf (quaternion o))) |};
     t_scale := {| vx := vx (scale o); vy := vy (scale o); vz := vz (scale o) |} |}.

(** The listener of the gizmo's dragging-changed event; [value] is the
    new value of [transformControls.dragging].  The event handed to
    [onTransformDragEnd], if any, is returned. *)
Definition onDraggingChanged (value : bool) (s : Store num Quaternion Geometry)
    (d : DragManager) : DragManager * option (TransformDragEvent num) :=
  let m0 := manager d in
  let m1 :=
    {| sm_assets := sm_assets m0; selectedAsset := selectedAsset m0;
       highlightBox := highlightBox m0;
       sm_isRandomizeMode := sm_isRandomizeMode m0; boundsMesh := boundsMesh m0;
       isBoundsSelected := isBoundsSelected m0;
       wasDragging := if value then true else wasDragging m0;
       mouseDownPos := mouseDownPos m0; tc_mode := tc_mode m0; tc_object := tc_object m0;
       tc_dragging := value; hasOnSelectionChange := hasOnSelectionChange m0;
       selectionChanges := selectionChanges m0 |} in
  match selectedAsset m0 with
  | Some asset =>
      if negb (sm_isRandomizeMode m0) || negb (isBoundsSelected m0)
      then
        if value
        then ({| manager := m1;
                 dragStartTransform := Some (snapshot (s (object asset)));
                 orbitEnabled := negb value;
                 hasOnTransformDragEnd := hasOnTransformDragEnd d |}, None)
        else
          match dragStartTransform d with
          | Some started =>
              if hasOnTransformDragEnd d
              then ({| manager := m1;
                       dragStartTransform := None;
                       orbitEnabled := negb value;
                       hasOnTransformDragEnd := hasOnTransformDragEnd d |},
                    Some {| assetId := id asset;
                            before := started;
                            after := snapshot (s (object asset)) |})
              else ({| manager := m1;
                       dragStartTransform := dragStartTransform d;
                       orbitEnabled := negb value;
                       hasOnTransformDragEnd := hasOnTransformDragEnd d |}, None)
          | None =>
              ({| manager := m1;
                  dragStartTransform := None;
                  orbitEnabled := negb value;
                  hasOnTransformDragEnd := hasOnTransformDragEnd d |}, None)
          end
      else ({| manager := m1;
               dragStartTransform := dragStartTransform d;
               orbitEnabled := negb value;
               hasOnTransformDragEnd := hasOnTransformDragEnd d |}, None)
  | None =>
      ({| manager := m1;
          dragStartTransform := dragStartTransform d;
          orbitEnabled := negb value;
          hasOnTransformDragEnd := hasOnTransformDragEnd d |}, None)
  end.

(** [handleTransformDragEnd] of the provider: the command of a drag. *)
Definition handleTransformDragEnd {THREE : Three num Quaternion Geometry}
    (event : TransformDragEvent num) (w : Scene num Quaternion Geometry)
  : Scene num Quaternion Geometry :=
  createTransformCommand (assetId event) (before event) (after event) w.

End DragDefs.

Arguments DragManager : clear implicits.

Section SelectionMoreDefs.

Context {num : Type}.

(** The gizmo and the outline follow the selected asset; with no asset
    selected there is no outline and the gizmo is on no asset. *)
Definition follows (m : SelectionManager num) : Prop :=
  match selectedAsset m with
  | Some a =>
      tc_object m = Some (AttachedObject (object a)) /\
      highlightBox m = Some (object a)
  | None =>
      highlightBox m = None /\
      (tc_object m = None \/ tc_object m = Some AttachedBounds)
  end.

(** [setBoundsTransformMode]. *)
Definition setBoundsTransformMode (mode : TransformMode) (m : SelectionManager num)
  : SelectionManager num :=
  if sm_isRandomizeMode m then setMode mode m else m.

(** [isBoundsCurrentlySelected]. *)
Definition isBoundsCurrentlySelected (m : SelectionManager num) : bool :=
  sm_isRandomizeMode m && isBoundsSelected m.

End SelectionMoreDefs.


(** ** PropertyPanel *)

Section PropertyPanelDefs.

Context {num : Type} {NUM : JSNumber num}.
Context {Quaternion Geometry : Type} {THREE : Three num Quaternion Geometry}.

Local Open Scope js_scope.

(** [updateAssetTransform] of the provider: the transform is written to
    the object of the asset with the id; [rotation] is in degrees.  No
    command is pushed. *)
Definition updateAssetTransform (i : string) (p r s : Vec3 num)
    (st : SceneState num Quaternion Geometry) : SceneState num Quaternion Geometry :=
  match findAsset (assets st) i with
  | Some asset =>
      let s1 := setPosition (objects st) (object asset) p in
      let s2 := setQuaternion s1 (object asset)
                  (setFromEuler (degToRad (vx r)) (degToRad (vy r)) (degToRad (vz r))) in
      setObjects (setScale s2 (object asset) s) st
  | None => st
  end.

(** [keyof Vec3]. *)
Inductive Axis : Type := AxisX | AxisY | AxisZ.

(** [{ ...v, [axis]: x }]. *)
Definition withAxis (v : Vec3 num) (axis : Axis) (x : num) : Vec3 num :=
  match axis with
  | AxisX => {| vx := x; vy := vy v; vz := vz v |}
  | AxisY => {| vx := vx v; vy := x; vz := vz v |}
  | AxisZ => {| vx := vx v; vy := vy v; vz := x |}
  end.

(** The panel: the three vectors it shows ([position], [rotation] in
    degrees, [scale]) and [beforeTransformRef]. *)
Record PropertyPanel : Type := {
  shownPosition : Vec3 num;
  shownRotation : Vec3 num;
  shownScale : Vec3 num;
  beforeTransformRef : option (Transform num)
}.

(** [{ position, rotation, scale }] as the panel shows them. *)
Definition shown (panel : PropertyPanel) : Transform num :=
  {| t_position := shownPosition panel;
     t_rotation := shownRotation panel;
     t_scale := shownScale panel |}.

Definition vec3Equal (a b : Vec3 num) : bool :=
  (vx a =? vx b) && (vy a =? vy b) && (vz a =? vz b).

Definition transformsEqual (a b : Transform num) : bool :=
  vec3Equal (t_position a) (t_position b)
  && vec3Equal (t_rotation a) (t_rotation b)
  && vec3Equal (t_scale a) (t_scale b).

(** Capture before transform on focus. *)
Definition handleInputFocus (panel : PropertyPanel) : PropertyPanel :=
  match beforeTransformRef panel with
  | Some _ => panel
  | None =>
      {| shownPosition := shownPosition panel; shownRotation := shownRotation panel;
         shownScale := shownScale panel; beforeTransformRef := Some (shown panel) |}
  end.

(** Commit changes on blur; [selected] is [selectedAsset] of the
    provider. *)
Definition handleInputBlur (selected : option LoadedAsset)
    (w : Scene num Quaternion Geometry) (panel : PropertyPanel)
  : Scene num Quaternion Geometry * PropertyPanel :=
  match selected, beforeTransformRef panel with
  | Some asset, Some before =>
      (if negb (transformsEqual before (shown panel))
       then createTransformCommand (id asset) before (shown panel) w
       else w,
       {| shownPosition := shownPosition panel; shownRotation := shownRotation panel;
          shownScale := shownScale panel; beforeTransformRef := None |})
  | _, _ => (w, panel)
  end.

(** The change handlers; [v] is the number the field holds, as
    [parseFloat(value) || 0] (for the scale [|| 1]) gives it. *)
Definition handlePositionChange (selected : option LoadedAsset) (axis : Axis) (v : num)
    (w : Scene num Quaternion Geometry) (panel : PropertyPanel)
  : Scene num Quaternion Geometry * PropertyPanel :=
  let newPos := withAxis (shownPosition panel) axis v in
  (match selected with
   | Some asset =>
       onState (updateAssetTransform (id asset) newPos (shownRotation panel) (shownScale panel)) w
   | None => w
   end,
   {| shownPosition := newPos; shownRotation := shownRotation panel;
      shownScale := shownScale panel; beforeTransformRef := beforeTransformRef panel |}).

Definition handleRotationChange (selected : option LoadedAsset) (axis : Axis) (v : num)
    (w : Scene num Quaternion Geometry) (panel : PropertyPanel)
  : Scene num Quaternion Geometry * PropertyPanel :=
  let newRot := withAxis (shownRotation panel) axis v in
  (match selected with
   | Some asset =>
       onState (updateAssetTransform (id asset) (shownPosition panel) newRot (shownScale panel)) w
   | None => w
   end,
   {| shownPosition := shownPosition panel; shownRotation := newRot;
      shownScale := shownScale panel; beforeTransformRef := beforeTransformRef panel |}).

Definition handleScaleChange (selected : option LoadedAsset) (axis : Axis) (v : num)
    (w : Scene num Quaternion Geometry) (panel : PropertyPanel)
  : Scene num Quaternion Geometry * PropertyPanel :=
  let newScale := withAxis (shownScale panel) axis v in
  (match selected with
   | Some asset =>
       onState (updateAssetTransform (id asset) (shownPosition panel) (shownRotation panel)
                  newScale) w
   | None => w
   end,
   {| shownPosition := shownPosition panel; shownRotation := shownRotation panel;
      shownScale := newScale; beforeTransformRef := beforeTransformRef panel |}).

(** A change typed into one of the nine fields. *)
Inductive PropertyChange : Type :=
| ChangePosition (axis : Axis) (v : num)
| ChangeRotation (axis : Axis) (v : num)
| ChangeScale (axis : Axis) (v : num).

Definition handleChange (selected : option LoadedAsset)
    (wp : Scene num Quaternion Geometry * PropertyPanel) (change : PropertyChange)
  : Scene num Quaternion Geometry * PropertyPanel :=
  match change with
  | ChangePosition axis v => handlePositionChange selected axis v (fst wp) (snd wp)
  | ChangeRotation axis v => handleRotationChange selected axis v (fst wp) (snd wp)
  | ChangeScale axis v => handleScaleChange selected axis v (fst wp) (snd wp)
  end.

(** Focus, a run of changes, blur, the selection staying as it is. *)
Definition editProperties (selected : option LoadedAsset) (changes : list PropertyChange)
    (w : Scene num Quaternion Geometry) (panel : PropertyPanel)
  : Scene num Quaternion Geometry * PropertyPanel :=
  let run := fold_left (handleChange selected) changes (w, handleInputFocus panel) in
  handleInputBlur selected (fst run) (snd run).

End PropertyPanelDefs.

Arguments PropertyPanel : clear implicits.
Arguments PropertyChange : clear implicits.

(** ** SelectionManager: the events it handles *)

Section SelectionEvents.

Context {num : Type} {NUM : JSNumber num} {GRAPH : SceneGraph num}.
Context {Quaternion Geometry : Type} {EULER : EulerView num Quaternion}.

Local Open Scope js_scope.

(** [this.mouse] for a click: the cursor in normalized device
    coordinates, as [onClick] hands it to the raycaster. *)
Definition pointer (event : MouseEvent num) : Vec2 num :=
  let rect := getBoundingClientRect in
  {| v2x := ((clientX event - rect_left rect) / rect_width rect) * ofZ 2 - ofZ 1;
     v2y := - ((clientY event - rect_top rect) / rect_height rect) * ofZ 2 + ofZ 1 |}.

(** What reaches the manager: the listeners it registers (mouse down,
    click, key down, the gizmo's dragging-changed) and the calls of the
    provider. *)
Inductive ManagerEvent : Type :=
| EvMouseDown (event : MouseEvent num)
| EvClick (event : MouseEvent num)
| EvKeyDown (event : KeyboardEvent)
| EvDraggingChanged (value : bool) (s : Store num Quaternion Geometry)
| EvSetAssets (l : list LoadedAsset)
| EvSelect (asset : option LoadedAsset)
| EvSelectBounds
| EvSetMode (mode : TransformMode)
| EvSetBoundsTransformMode (mode : TransformMode).

Definition onManager (f : SelectionManager num -> SelectionManager num)
    (d : DragManager num) : DragManager num :=
  {| manager := f (manager d);
     dragStartTransform := dragStartTransform d;
     orbitEnabled := orbitEnabled d;
     hasOnTransformDragEnd := hasOnTransformDragEnd d |}.

Definition handleEvent (d : DragManager num) (ev : ManagerEvent) : DragManager num :=
  match ev with
  | EvMouseDown event => onManager (onMouseDown event) d
  | EvClick event => onManager (onClick event) d
  | EvKeyDown event => onManager (onKeyDown event) d
  | EvDraggingChanged value s => fst (onDraggingChanged value s d)
  | EvSetAssets l => onManager (setAssetsOf l) d
  | EvSelect asset => onManager (select asset) d
  | EvSelectBounds => onManager selectBounds d
  | EvSetMode mode => onManager (setMode mode) d
  | EvSetBoundsTransformMode mode => onManager (setBoundsTransformMode mode) d
  end.

Definition runEvents (d : DragManager num) (evs : list ManagerEvent) : DragManager num :=
  fold_left handleEvent evs d.

End SelectionEvents.

Arguments ManagerEvent : clear implicits.

(** ** Further scenarios *)

(** The heading of a marker as Euler angles. *)
#[export] Instance markerEuler {num : Type} {NUM : JSNumber num} : EulerView num num := {|
  rotationOf := fun heading => {| vx := ofZ 0; vy := heading; vz := ofZ 0 |}
|}.

(** The idle manager with its drag bookkeeping, the callback of the
    provider registered. *)
Definition idleDrag : DragManager float :=
  {| manager := idleManager; dragStartTransform := None;
     orbitEnabled := true; hasOnTransformDragEnd := true |}.

(** The proxy after the gizmo has moved it by [(dx, 0, dz)], and after
    it has set its scale along X and Z. *)
Definition translateMesh {num : Type} {NUM : JSNumber num} (mesh : Mesh num) (dx dz : num)
  : Mesh num :=
  {| mesh_geometry := mesh_geometry mesh;
     mesh_position := {| vx := add (vx (mesh_position mesh)) dx;
                         vy := vy (mesh_position mesh);
                         vz := add (vz (mesh_position mesh)) dz |};
     mesh_rotation := mesh_rotation mesh;
     mesh_scale := mesh_scale mesh |}.

Definition rescaleMesh {num : Type} (mesh : Mesh num) (sx sz : num) : Mesh num :=
  {| mesh_geometry := mesh_geometry mesh;
     mesh_position := mesh_position mesh;
     mesh_rotation := mesh_rotation mesh;
     mesh_scale := {| vx := sx; vy := vy (mesh_scale mesh); vz := sz |} |}.

(** Ctrl+Z, Ctrl+Y and Ctrl+Shift+Z on the page, and Ctrl+Z in the
    instruction field. *)
Definition chord (element : EventTarget) (k : string) (shift : bool) : KeyChord :=
  {| chord_event := {| target := element; key := k |};
     ctrlKey := true; metaKey := false; shiftKey := shift |}.

(** The cube and the table in exact arithmetic, their markers centred. *)
Definition exactScene : World (SceneState R R R) := freshScene [cube; table] 0%R.

(** The same scene with a spawn rectangle of no width: nothing can fit. *)
Definition narrowScene : World (SceneState R R R) :=
  onState (setSpawnBoundsState (tenthsBounds 3 3 (-3) 3)) exactScene.

(** The exact scene with a condition saved and the cube then randomized
    away from it. *)
Definition savedThenRandomized : World (SceneState R R R) :=
  randomizeNonStaticAssets alwaysZero (saveCurrentCondition exactScene).

(** One edit of the instruction of the binary64 scene, as its panel
    hands it to the history: the command and the state it produced. *)
Definition sampleEdit
  : Command (SceneState float float float) * SceneState float float float :=
  ({| cmd_type := "instruction";
      execute := setInstruction "a";
      cmd_undo := setInstruction EmptyString |},
   setInstruction "a" (state floatScene)).

(** A scene graph in exact arithmetic with nothing under the cursor, and
    a manager at rest over the cube and the table. *)
#[export] Instance emptyGraph : SceneGraph R := {|
  traverse := fun o => [o];
  isMesh := fun _ => true;
  intersectObjects := fun _ _ => [];
  getBoundingClientRect :=
    {| rect_left := 0%R; rect_top := 0%R; rect_width := 800%R; rect_height := 600%R |}
|}.

Definition restingManager : SelectionManager R :=
  {| sm_assets := [cube; table];
     selectedAsset := None; highlightBox := None;
     sm_isRandomizeMode := false; boundsMesh := None; isBoundsSelected := false;
     wasDragging := false; mouseDownPos := None;
     tc_mode := Translate; tc_object := None; tc_dragging := false;
     hasOnSelectionChange := true; selectionChanges := [] |}.

(** The binary64 stores of a drag: the marker of every object at rest,
    and moved one unit along X. *)
Definition restStore : Store float float float := fun _ => marker (ofZ 0).

Definition movedStore : Store float float float :=
  fun _ => {| geometry := ofZ 0;
              position := {| vx := ofZ 1; vy := ofZ 0; vz := ofZ 0 |};
              quaternion := ofZ 0;
              scale := unitScale |}.

(** The idle manager with the table selected. *)
Definition tableDrag : DragManager float :=
  onManager (select (Some table)) idleDrag.

(** A session at the manager: a click on the cube, a key, a drag. *)
Definition sampleEvents : list (ManagerEvent float float float) :=
  [EvMouseDown (clickAt 400 300); EvClick (clickAt 400 300);
   EvKeyDown {| target := OtherElement; key := "r" |};
   EvDraggingChanged true restStore; EvDraggingChanged false movedStore;
   EvClick (clickAt 400 300)].

(** The values the instruction field takes while "pick" is typed. *)
Definition sampleTyping : list string := ["p"%string; "pi"%string; "pick"%string].

(** The property panel showing the cube at rest, and a session that
    types x = 0.25 and then a scale of 2 along y. *)
Definition cubePanel : PropertyPanel R :=
  {| shownPosition := originOf; shownRotation := originOf; shownScale := unitScale;
     beforeTransformRef := None |}.

Definition sampleChanges : list (PropertyChange R) :=
  [ChangePosition AxisX (1 / 4)%R; ChangeScale AxisY 2%R].

(** A second dynamic asset, a ball on object 4, and the exact scene with
    the ball resting one unit above the cube: both are dynamic, the
    table is static. *)
Definition ball : LoadedAsset :=
  {| id := "ball"; name := "Ball"; object := 4;
     locked := false; excludeFromExport := false; disableGravity := false |}.

Definition shelfScene : World (SceneState R R R) :=
  onState (fun st => setObjects (setPosition (objects st) (object ball)
                                   {| vx := 0%R; vy := 1%R; vz := 0%R |}) st)
          (freshScene [cube; ball; table] 0%R).

(** The corner of the default rectangle at height [h], as a box. *)
Definition cornerBox (h : R) : Box3 R :=
  {| box_min := {| vx := (- (3 / 10))%R; vy := h; vz := (3 / 10)%R |};
     box_max := {| vx := (- (3 / 10))%R; vy := h; vz := (3 / 10)%R |} |}.

(** The binary64 scene in Randomize mode, and a session at its maxX
    field that types 0.5 and then 0.3, the value the field began with. *)
Definition randomizingScene : World (SceneState float float float) :=
  onState enterRandomizeMode floatScene.

Definition thereAndBack : list (BoundsKey * float) :=
  [(KeyMaxX, (ofZ 5 / ofZ 10)%js); (KeyMaxX, (ofZ 3 / ofZ 10)%js)].

(** The binary64 scene with bounds 0.1 .. 0.7 on both axes. *)
Definition tenthsScene : World (SceneState float float float) :=
  onState (setSpawnBoundsState (tenthsBounds 1 7 1 7)) floatScene.

(** Bounds whose sides differ by sixty binary orders of magnitude. *)
Definition wideBounds : SpawnBounds float :=
  {| minX := ofZ (- (2 ^ 60)); maxX := ofZ 1; minY := ofZ 0; maxY := ofZ 1 |}.
(* ================================================================== *)
(** * Part II. Theorems                                                *)
(* ================================================================== *)

Unset Implicit Arguments.

(** ** JavaScript arrays *)

Lemma slice_from (A : Type) (arr : list A) (k : nat) :
  k <= List.length arr -> slice arr (Z.of_nat k) None = skipn k arr.
Proof.
  intros Hk. unfold slice, relIndex.
  destruct (Z.ltb_spec (Z.of_nat k) 0) as [Hneg | _]; [lia |].
  rewrite Nat2Z.id, Nat.min_l by exact Hk.
  rewrite <- (length_skipn k arr). apply firstn_all.
Qed.

Lemma slice_init (A : Type) (arr : list A) (a : A) :
  slice (arr ++ [a]) 0 (Some (-1)%Z) = arr.
Proof.
  unfold slice, relIndex. simpl Z.ltb. cbv iota.
  rewrite length_app. simpl List.length.
  replace (Z.to_nat (Z.max (Z.of_nat (List.length arr + 1) + -1) 0))
    with (List.length arr) by lia.
  simpl. rewrite Nat.sub_0_r.
  rewrite firstn_app, firstn_all, Nat.sub_diag. simpl. apply app_nil_r.
Qed.

Lemma nth_error_last (A : Type) (arr : list A) (a : A) :
  nth_error (arr ++ [a]) (List.length (arr ++ [a]) - 1) = Some a.
Proof.
  rewrite length_app. simpl. rewrite Nat.add_sub.
  rewrite nth_error_app2 by lia. rewrite Nat.sub_diag. reflexivity.
Qed.

(** ** useHistory *)

Section HistoryFacts.

Variable State : Type.
Implicit Types (w : World State) (h : History State) (c : Command State).

Lemma pushCommand_undoStack h c :
  undoStack (pushCommand h c) =
  skipn (List.length (undoStack h) + 1 - MAX_HISTORY_SIZE) (undoStack h ++ [c]).
Proof.
  unfold pushCommand. cbn [undoStack].
  rewrite length_app. simpl List.length.
  destruct (Nat.ltb_spec MAX_HISTORY_SIZE (List.length (undoStack h) + 1)) as [Hlt | Hge].
  - replace (Z.of_nat (List.length (undoStack h) + 1) - Z.of_nat MAX_HISTORY_SIZE)%Z
      with (Z.of_nat (List.length (undoStack h) + 1 - MAX_HISTORY_SIZE)) by lia.
    apply slice_from. rewrite length_app. simpl. lia.
  - replace (List.length (undoStack h) + 1 - MAX_HISTORY_SIZE) with 0 by lia.
    reflexivity.
Qed.

Lemma pushCommand_redoStack h c : redoStack (pushCommand h c) = [].
Proof. reflexivity. Qed.

Lemma undo_top (s : State) (u r : list (Command State)) c :
  undo {| state := s; history := {| undoStack := u ++ [c]; redoStack := r |} |} =
  {| state := cmd_undo c s; history := {| undoStack := u; redoStack := r ++ [c] |} |}.
Proof.
  unfold undo. cbn [history undoStack redoStack state].
  rewrite nth_error_last, slice_init.
  rewrite length_app. simpl. rewrite Nat.add_1_r. reflexivity.
Qed.

Lemma redo_top (s : State) (u r : list (Command State)) c :
  redo {| state := s; history := {| undoStack := u; redoStack := r ++ [c] |} |} =
  {| state := execute c s; history := {| undoStack := u ++ [c]; redoStack := r |} |}.
Proof.
  unfold redo. cbn [history undoStack redoStack state].
  rewrite nth_error_last, slice_init.
  rewrite length_app. simpl. rewrite Nat.add_1_r. reflexivity.
Qed.

Lemma undo_empty (s : State) (r : list (Command State)) :
  undo {| state := s; history := {| undoStack := []; redoStack := r |} |} =
  {| state := s; history := {| undoStack := []; redoStack := r |} |}.
Proof. reflexivity. Qed.

Lemma redo_empty (s : State) (u : list (Command State)) :
  redo {| state := s; history := {| undoStack := u; redoStack := [] |} |} =
  {| state := s; history := {| undoStack := u; redoStack := [] |} |}.
Proof. reflexivity. Qed.

(** The state a sequence of edits ends in. *)
Lemma performAll_snoc w (edits : list (Command State * State)) e :
  performAll w (edits ++ [e]) = perform (performAll w edits) e.
Proof. unfold performAll. rewrite fold_left_app. reflexivity. Qed.

Lemma legal_snoc (s : State) (edits : list (Command State * State)) c s' :
  legal s (edits ++ [(c, s')]) <->
  legal s edits /\
  cmd_undo c s' = state (performAll {| state := s; history := {| undoStack := []; redoStack := [] |} |} edits) /\
  execute c (state (performAll {| state := s; history := {| undoStack := []; redoStack := [] |} |} edits)) = s'.
Proof.
  assert (Hstate : forall (l : list (Command State * State)) w1 w2,
             state w1 = state w2 -> state (performAll w1 l) = state (performAll w2 l)).
  { induction l as [| e l IH]; intros w1 w2 H; [exact H |].
    simpl. apply IH. reflexivity. }
  revert s. induction edits as [| [c0 s0] edits IH]; intros s; simpl.
  - tauto.
  - rewrite IH.
    rewrite (Hstate edits
               (perform {| state := s; history := {| undoStack := []; redoStack := [] |} |} (c0, s0))
               {| state := s0; history := {| undoStack := []; redoStack := [] |} |})
      by reflexivity.
    tauto.
Qed.

Lemma performAll_state w (edits : list (Command State * State)) :
  state (performAll w edits) =
  state (performAll {| state := state w; history := {| undoStack := []; redoStack := [] |} |} edits).
Proof.
  revert w. induction edits as [| e l IH]; intros w; [reflexivity |].
  simpl. rewrite IH. symmetry. rewrite IH. reflexivity.
Qed.

(** With at most fifty edits, all of them are still on the undo stack. *)
Lemma performAll_undoStack w (edits : list (Command State * State)) :
  List.length edits <= MAX_HISTORY_SIZE ->
  exists pre, undoStack (history (performAll w edits)) = pre ++ map fst edits.
Proof.
  induction edits as [| e edits IH] using rev_ind; intros Hlen.
  - exists (undoStack (history w)). simpl. symmetry. apply app_nil_r.
  - rewrite length_app in Hlen. simpl in Hlen.
    destruct IH as [pre Hpre]; [lia |].
    rewrite performAll_snoc. unfold perform. cbn [history].
    rewrite pushCommand_undoStack, Hpre.
    rewrite map_app. simpl map.
    exists (skipn (List.length (pre ++ map fst edits) + 1 - MAX_HISTORY_SIZE) pre).
    rewrite <- !app_assoc.
    rewrite skipn_app.
    replace (List.length (pre ++ map fst edits) + 1 - MAX_HISTORY_SIZE - List.length pre)
      with 0; [reflexivity |].
    rewrite length_app, length_map. lia.
Qed.

Lemma performAll_redoStack w (edits : list (Command State * State)) :
  edits <> [] -> redoStack (history (performAll w edits)) = [].
Proof.
  destruct edits as [| e edits] using rev_ind; [congruence |].
  intros _. rewrite performAll_snoc. reflexivity.
Qed.

(** Undoing a legal run pops its commands and walks the state back. *)
Lemma undo_run (edits : list (Command State * State)) :
  forall (s : State) (pre r : list (Command State)),
  legal s edits ->
  Nat.iter (List.length edits) undo
    {| state := state (performAll {| state := s; history := {| undoStack := []; redoStack := [] |} |} edits);
       history := {| undoStack := pre ++ map fst edits; redoStack := r |} |} =
  {| state := s;
     history := {| undoStack := pre; redoStack := r ++ rev (map fst edits) |} |}.
Proof.
  induction edits as [| [c s'] edits IH] using rev_ind; intros s pre r Hlegal.
  - simpl. rewrite !app_nil_r. reflexivity.
  - apply legal_snoc in Hlegal. destruct Hlegal as (Hl & Hundo & _).
    rewrite length_app. simpl List.length. rewrite Nat.add_1_r.
    rewrite Nat.iter_succ_r.
    rewrite performAll_snoc. cbn [perform state snd].
    rewrite map_app. simpl map. rewrite app_assoc, undo_top, Hundo.
    rewrite IH by exact Hl.
    rewrite rev_app_distr. simpl. rewrite <- app_assoc. reflexivity.
Qed.

(** Redoing replays them in the order they were made. *)
Lemma redo_run (edits : list (Command State * State)) :
  forall (s : State) (pre r : list (Command State)),
  legal s edits ->
  Nat.iter (List.length edits) redo
    {| state := s;
       history := {| undoStack := pre; redoStack := r ++ rev (map fst edits) |} |} =
  {| state := state (performAll {| state := s; history := {| undoStack := []; redoStack := [] |} |} edits);
     history := {| undoStack := pre ++ map fst edits; redoStack := r |} |}.
Proof.
  induction edits as [| [c s'] edits IH]; intros s pre r Hlegal.
  - simpl. rewrite !app_nil_r. reflexivity.
  - simpl in Hlegal. destruct Hlegal as (_ & Hexec & Hl).
    cbn [List.length]. rewrite Nat.iter_succ_r.
    simpl map. simpl rev. rewrite app_assoc, redo_top, Hexec.
    rewrite IH by exact Hl.
    rewrite <- app_assoc. simpl.
    rewrite (performAll_state (perform _ _)). reflexivity.
Qed.

End HistoryFacts.

Lemma pushCommand_within_capacity (State : Type) (h : History State) (c : Command State) :
  within_capacity (pushCommand h c).
Proof.
  unfold within_capacity. rewrite pushCommand_undoStack, pushCommand_redoStack.
  rewrite length_skipn, length_app. simpl. unfold MAX_HISTORY_SIZE. lia.
Qed.

Lemma undo_within_capacity (State : Type) (w : World State) :
  within_capacity (history w) -> within_capacity (history (undo w)).
Proof.
  destruct w as [s [u r]]. unfold within_capacity. cbn [history undoStack redoStack].
  destruct u as [| c u] using rev_ind.
  - rewrite undo_empty. trivial.
  - rewrite undo_top. cbn [history undoStack redoStack].
    rewrite !length_app. simpl. lia.
Qed.

Lemma redo_within_capacity (State : Type) (w : World State) :
  within_capacity (history w) -> within_capacity (history (redo w)).
Proof.
  destruct w as [s [u r]]. unfold within_capacity. cbn [history undoStack redoStack].
  destruct r as [| c r] using rev_ind.
  - rewrite redo_empty. trivial.
  - rewrite redo_top. cbn [history undoStack redoStack].
    rewrite !length_app. simpl. lia.
Qed.

(** C2. After any [pushCommand] the undo stack holds at most 50 entries,
    and a push onto a full stack of 50 drops exactly the oldest entry and
    keeps the other 49 and the new command in order. *)
Theorem pushCommand_capacity (State : Type) (h : History State) (c : Command State) :
  List.length (undoStack (pushCommand h c)) <= 50 /\
  (List.length (undoStack h) = 50 ->
   undoStack (pushCommand h c) = tl (undoStack h) ++ [c]).
Proof.
  split.
  - pose proof (pushCommand_within_capacity State h c) as H.
    unfold within_capacity, MAX_HISTORY_SIZE in H. lia.
  - intros Hfull. rewrite pushCommand_undoStack, Hfull.
    change (50 + 1 - MAX_HISTORY_SIZE) with 1.
    destruct (undoStack h) as [| c0 u]; [discriminate Hfull | reflexivity].
Qed.

(** C1, amended. For a sequence of N <= 50 edits whose commands satisfy
    the Command invariant, N undos bring the state back to what it was
    before the sequence, and N redos after them to what it was after. *)
Theorem undo_redo_round_trip (State : Type) (w : World State)
    (edits : list (Command State * State)) :
  List.length edits <= 50 ->
  legal (state w) edits ->
  state (Nat.iter (List.length edits) undo (performAll w edits)) = state w /\
  state (Nat.iter (List.length edits) redo
           (Nat.iter (List.length edits) undo (performAll w edits)))
  = state (performAll w edits).
Proof.
  intros Hlen Hlegal.
  destruct (performAll_undoStack State w edits Hlen) as [pre Hpre].
  assert (Hw : performAll w edits =
               {| state := state (performAll {| state := state w;
                                                history := {| undoStack := []; redoStack := [] |} |} edits);
                  history := {| undoStack := pre ++ map fst edits;
                                redoStack := redoStack (history (performAll w edits)) |} |}).
  { rewrite <- performAll_state, <- Hpre. reflexivity. }
  rewrite Hw at 1 2.
  rewrite undo_run by exact Hlegal.
  split; [reflexivity |].
  rewrite redo_run by exact Hlegal.
  cbn [state]. symmetry. apply performAll_state.
Qed.

(** ** useScene: the registry *)

Section SceneFacts.

Context {num : Type} {NUM : JSNumber num}.
Context {Quaternion Geometry : Type} {THREE : Three num Quaternion Geometry}.

Implicit Types (st : SceneState num Quaternion Geometry) (w : Scene num Quaternion Geometry).
Implicit Types (s : Store num Quaternion Geometry) (asset a : LoadedAsset) (r : ObjRef).

Lemma upd_same s r o : upd s r o r = o.
Proof. unfold upd. rewrite Nat.eqb_refl. reflexivity. Qed.

Lemma upd_other s r o r' : r' <> r -> upd s r o r' = s r'.
Proof. intros H. unfold upd. apply Nat.eqb_neq in H. rewrite H. reflexivity. Qed.

Lemma setPosition_other s r v r' : r' <> r -> setPosition s r v r' = s r'.
Proof. apply upd_other. Qed.

Lemma setQuaternion_other s r q r' : r' <> r -> setQuaternion s r q r' = s r'.
Proof. apply upd_other. Qed.

Lemma toggled_twice i a : toggled i (toggled i a) = a.
Proof.
  unfold toggled. destruct (String.eqb (id a) i) eqn:E; cbn [id]; rewrite E; [| reflexivity].
  cbn. rewrite negb_involutive. reflexivity.
Qed.

Lemma doToggleAssetGravity_assets i st :
  assets (doToggleAssetGravity i st) = map (toggled i) (assets st).
Proof. reflexivity. Qed.

Lemma doToggleAssetGravity_twice i st :
  doToggleAssetGravity i (doToggleAssetGravity i st) = st.
Proof.
  unfold doToggleAssetGravity, setAssets. cbn.
  rewrite map_map.
  rewrite (map_ext _ (fun a => a)) by apply toggled_twice.
  rewrite map_id. reflexivity.
Qed.

(** C10. [toggleAssetGravity] flips the [disableGravity] flag of the
    assets with the given id and nothing else: every other field of such
    an asset, every other asset, the order of the registry and all
    transforms are as before; when no asset has the id the registry is
    unchanged. *)
Theorem toggleAssetGravity_flips_only_the_flag i w :
  List.length (assets (state (toggleAssetGravity i w))) = List.length (assets (state w)) /\
  (forall k a, nth_error (assets (state w)) k = Some a ->
     exists a', nth_error (assets (state (toggleAssetGravity i w))) k = Some a' /\
       id a' = id a /\ name a' = name a /\ object a' = object a /\
       locked a' = locked a /\ excludeFromExport a' = excludeFromExport a /\
       disableGravity a' =
         (if String.eqb (id a) i then negb (disableGravity a) else disableGravity a) /\
       (id a <> i -> a' = a)) /\
  objects (state (toggleAssetGravity i w)) = objects (state w) /\
  ((forall a, In a (assets (state w)) -> id a <> i) ->
   assets (state (toggleAssetGravity i w)) = assets (state w)).
Proof.
  change (assets (state (toggleAssetGravity i w))) with (map (toggled i) (assets (state w))).
  split; [apply length_map |].
  split; [| split; [reflexivity |]].
  - intros k a Hk. exists (toggled i a). split.
    + rewrite nth_error_map, Hk. reflexivity.
    + unfold toggled. destruct (String.eqb_spec (id a) i) as [E | E]; cbn.
      * repeat split; try reflexivity. intros H. contradiction.
      * repeat split; reflexivity.
  - intros Hnone. rewrite <- (map_id (assets (state w))) at 2.
    apply map_ext_in. intros a Ha. unfold toggled.
    destruct (String.eqb_spec (id a) i) as [E | E]; [| reflexivity].
    exfalso. exact (Hnone a Ha E).
Qed.

(** ** Saved conditions *)

(** C9. With an index out of range, [loadCondition] and
    [deleteCondition] return the world they were given: saved conditions,
    poses and both history stacks are unchanged. *)
Theorem condition_index_out_of_range (index : Z) w :
  (index < 0 \/ index >= Z.of_nat (List.length (savedConditions (state w))))%Z ->
  loadCondition index w = w /\ deleteCondition index w = w.
Proof.
  intros Hout. unfold loadCondition, deleteCondition.
  assert (Hguard : ((index <? 0) || (Z.of_nat (List.length (savedConditions (state w))) <=? index))%Z = true).
  { apply orb_true_iff. destruct Hout as [H | H]; [left; lia | right; lia]. }
  rewrite Hguard. split; reflexivity.
Qed.

End SceneFacts.

(** ** The randomized placement engine *)

Section PlacementFacts.

Context {num : Type} {NUM : JSNumber num}.
Context {Quaternion Geometry : Type} {THREE : Three num Quaternion Geometry}.

Implicit Types (st : SceneState num Quaternion Geometry) (w : Scene num Quaternion Geometry).
Implicit Types (s : Store num Quaternion Geometry) (asset a : LoadedAsset) (r : ObjRef).
Implicit Types (p : Placement num Quaternion Geometry) (bounds : SpawnBounds num).
Implicit Types (random : nat -> num) (saved : JSMap (SavedPose num Quaternion)).

(** Measuring an asset leaves every object as it found it. *)
Lemma getAssetLocalSize_restores s asset q r :
  snd (getAssetLocalSize s asset q) r = s r.
Proof.
  unfold getAssetLocalSize. cbn [snd].
  destruct (Nat.eq_dec r (object asset)) as [-> | Hne].
  - unfold setQuaternion at 1. rewrite upd_same.
    unfold setPosition at 1 2. rewrite !upd_same. cbn.
    unfold setQuaternion. rewrite !upd_same. cbn.
    unfold setPosition. rewrite !upd_same. cbn. reflexivity.
  - rewrite !setQuaternion_other, !setPosition_other by exact Hne.
    rewrite !setQuaternion_other, !setPosition_other by exact Hne. reflexivity.
Qed.

Lemma prepare_start_objects bounds saved p asset r :
  placed_objects (start (prepare bounds saved p asset)) r = placed_objects p r.
Proof. unfold prepare. cbn [start placed_objects]. apply getAssetLocalSize_restores. Qed.

Lemma prepare_start_boxes bounds saved p asset :
  placedBoxes (start (prepare bounds saved p asset)) = placedBoxes p.
Proof. reflexivity. Qed.

(** An attempt writes the object of its asset and no other. *)
Lemma attempt_other random bounds asset sp f p r :
  r <> object asset ->
  placed_objects (fst (attempt random bounds asset sp f p)) r = placed_objects p r.
Proof.
  intros Hne. unfold attempt.
  destruct (canFit f); cbn zeta beta iota;
    repeat match goal with |- context [if ?b then _ else _] => destruct b end;
    cbn [fst placed_objects];
    rewrite setQuaternion_other, setPosition_other by exact Hne; reflexivity.
Qed.

(** An accepted attempt of an asset that can fit passed the containment
    test, on the very box the object has when the attempt returns. *)
Lemma attempt_accepted_within random bounds asset sp f p :
  canFit f = true ->
  snd (attempt random bounds asset sp f p) = true ->
  isBoxWithinSpawnBounds bounds
    (getAssetBoundingBox (placed_objects (fst (attempt random bounds asset sp f p))) asset) = true.
Proof.
  intros Hfit. unfold attempt. rewrite Hfit. cbn zeta beta iota.
  match goal with |- context [negb ?c && ?wb] =>
    destruct c; destruct wb eqn:Hwithin end;
    cbn [negb andb snd fst placed_objects]; intros H; try discriminate H.
  exact Hwithin.
Qed.

Lemma attempts_other n random bounds asset sp f : forall p r,
  r <> object asset ->
  placed_objects (fst (attempts n random bounds asset sp f p)) r = placed_objects p r.
Proof.
  induction n as [| n IH]; intros p r Hne; [reflexivity |].
  cbn [attempts].
  pose proof (attempt_other random bounds asset sp f p r Hne) as Hstep.
  destruct (attempt random bounds asset sp f p) as [p' placed].
  destruct placed; cbn [fst] in *; [exact Hstep |].
  rewrite IH by exact Hne. exact Hstep.
Qed.

Lemma attempts_accepted_within n random bounds asset sp f : forall p,
  canFit f = true ->
  snd (attempts n random bounds asset sp f p) = true ->
  isBoxWithinSpawnBounds bounds
    (getAssetBoundingBox (placed_objects (fst (attempts n random bounds asset sp f p))) asset) = true.
Proof.
  induction n as [| n IH]; intros p Hfit; [discriminate |].
  cbn [attempts].
  pose proof (attempt_accepted_within random bounds asset sp f p Hfit) as Hstep.
  destruct (attempt random bounds asset sp f p) as [p' placed].
  destruct placed; cbn [fst snd] in *.
  - intros _. apply Hstep. reflexivity.
  - apply IH. exact Hfit.
Qed.

(** [attempts n] makes at most [n] attempts: it calls [Math.random()]
    at most [3 * n] times. *)
Lemma attempts_drawn n random bounds asset sp f : forall p,
  drawn p <= drawn (fst (attempts n random bounds asset sp f p)) <= drawn p + 3 * n.
Proof.
  induction n as [| n IH]; intros p; [cbn; lia |].
  cbn [attempts].
  assert (Hstep : drawn p < drawn (fst (attempt random bounds asset sp f p)) <= drawn p + 3).
  { unfold attempt. destruct (canFit f); cbn zeta beta iota;
      repeat match goal with |- context [if ?b then _ else _] => destruct b end;
      cbn [fst drawn]; lia. }
  destruct (attempt random bounds asset sp f p) as [p' placed].
  destruct placed; cbn [fst] in *; [lia |].
  specialize (IH p'). lia.
Qed.

(** What decides an attempt of an asset that can fit. *)
Lemma attempt_flag random bounds asset sp f p :
  canFit f = true ->
  snd (attempt random bounds asset sp f p) =
  negb (existsb
          (checkCollision
             (getAssetBoundingBox (placed_objects (fst (attempt random bounds asset sp f p))) asset))
          (placedBoxes p))
  && isBoxWithinSpawnBounds bounds
       (getAssetBoundingBox (placed_objects (fst (attempt random bounds asset sp f p))) asset).
Proof.
  intros Hfit. unfold attempt. rewrite Hfit. cbn zeta beta iota.
  match goal with |- context [if negb ?c && ?wb then _ else _] =>
    destruct c eqn:Hc; destruct wb eqn:Hw end;
    cbn [negb andb snd fst placed_objects]; rewrite ?Hc, ?Hw; reflexivity.
Qed.

Lemma attempt_rejected_boxes random bounds asset sp f p :
  snd (attempt random bounds asset sp f p) = false ->
  placedBoxes (fst (attempt random bounds asset sp f p)) = placedBoxes p.
Proof.
  unfold attempt. destruct (canFit f); cbn zeta beta iota;
    repeat match goal with |- context [if ?b then _ else _] => destruct b end;
    cbn [fst snd placedBoxes]; intros H; try discriminate H; reflexivity.
Qed.

(** When an invariant makes every attempt fail, the loop gives up with
    the invariant still true: the last pose tried stays. *)
Lemma attempts_all_rejected (I : Placement num Quaternion Geometry -> Prop)
    random bounds asset sp f :
  (forall p, I p ->
     snd (attempt random bounds asset sp f p) = false /\
     I (fst (attempt random bounds asset sp f p))) ->
  forall n p, I p ->
    snd (attempts n random bounds asset sp f p) = false /\
    I (fst (attempts n random bounds asset sp f p)).
Proof.
  intros Hstep. induction n as [| n IH]; intros p Hp; [split; [reflexivity | exact Hp] |].
  cbn [attempts]. destruct (Hstep p Hp) as [Hflag Hnext].
  destruct (attempt random bounds asset sp f p) as [p' placed].
  cbn [fst snd] in *. subst placed. apply IH. exact Hnext.
Qed.

Lemma attempts_succ n random bounds asset sp f p :
  attempts (S n) random bounds asset sp f p =
  if snd (attempt random bounds asset sp f p)
  then (fst (attempt random bounds asset sp f p), true)
  else attempts n random bounds asset sp f (fst (attempt random bounds asset sp f p)).
Proof.
  cbn [attempts]. destruct (attempt random bounds asset sp f p) as [p' placed].
  reflexivity.
Qed.

Lemma placeAsset_objects random bounds saved p asset :
  placed_objects (placeAsset random bounds saved p asset) =
  placed_objects (fst (runAttempts random bounds asset (prepare bounds saved p asset))).
Proof.
  unfold placeAsset.
  destruct (snd (runAttempts random bounds asset (prepare bounds saved p asset))); reflexivity.
Qed.

Lemma placeAsset_other random bounds saved p asset r :
  r <> object asset ->
  placed_objects (placeAsset random bounds saved p asset) r = placed_objects p r.
Proof.
  intros Hne. rewrite placeAsset_objects. unfold runAttempts.
  rewrite attempts_other by exact Hne. apply prepare_start_objects.
Qed.

Lemma placeAll_other random bounds saved l : forall p r,
  ~ In r (map object l) ->
  placed_objects (placeAll random bounds saved p l) r = placed_objects p r.
Proof.
  induction l as [| asset l IH]; intros p r Hnot; [reflexivity |].
  cbn [placeAll fold_left]. fold (placeAll random bounds saved (placeAsset random bounds saved p asset) l).
  rewrite IH by (intros H; apply Hnot; right; exact H).
  apply placeAsset_other. intros ->. apply Hnot. left. reflexivity.
Qed.

Lemma placeAll_app random bounds saved p l1 l2 :
  placeAll random bounds saved p (l1 ++ l2) =
  placeAll random bounds saved (placeAll random bounds saved p l1) l2.
Proof. unfold placeAll. apply fold_left_app. Qed.

(** ** Poses *)

Lemma mapSet_not_nil (V : Type) (m : JSMap V) k v : mapSet m k v <> [].
Proof. destruct m as [| [k' v'] m]; cbn; [discriminate |]. destruct (String.eqb k' k); discriminate. Qed.

Lemma posesOf_nil s l : posesOf s l = [] -> l = [].
Proof.
  unfold posesOf. destruct l as [| a l]; [reflexivity |]. cbn [fold_left].
  assert (H : forall (l0 : list LoadedAsset) m, m <> [] ->
             fold_left (fun m0 asset => mapSet m0 (id asset) (poseOf s asset)) l0 m <> []).
  { induction l0 as [| b l0 IH]; intros m Hm; [exact Hm |].
    cbn [fold_left]. apply IH. apply mapSet_not_nil. }
  intros Hnil. exfalso. exact (H l _ (mapSet_not_nil _ [] _ _) Hnil).
Qed.

Lemma capturePoses_empty st :
  (mapSize (capturePoses st) =? 0)%nat = true <-> filter isDynamic (assets st) = [].
Proof.
  unfold mapSize, capturePoses. rewrite Nat.eqb_eq, length_zero_iff_nil. split.
  - apply posesOf_nil.
  - intros ->. reflexivity.
Qed.

Lemma doRandomize_objects random st :
  objects (doRandomizeNonStaticAssets random st) =
  placed_objects
    (placeAll random (spawnBounds st) (posesOf (objects st) (filter isDynamic (assets st)))
       {| placed_objects := objects st; placedBoxes := []; drawn := 0 |}
       (filter isDynamic (assets st))).
Proof.
  unfold doRandomizeNonStaticAssets.
  destruct (filter isDynamic (assets st)) as [| a l] eqn:E; reflexivity.
Qed.

Lemma randomize_state_objects random w :
  objects (state (randomizeNonStaticAssets random w)) =
  objects (doRandomizeNonStaticAssets random (state w)).
Proof.
  unfold randomizeNonStaticAssets.
  destruct (mapSize (capturePoses (state w)) =? 0)%nat eqn:E; [| reflexivity].
  apply capturePoses_empty in E.
  unfold doRandomizeNonStaticAssets. rewrite E. reflexivity.
Qed.

Lemma randomize_assets random w :
  assets (state (randomizeNonStaticAssets random w)) = assets (state w).
Proof.
  unfold randomizeNonStaticAssets.
  destruct (mapSize (capturePoses (state w)) =? 0)%nat; [reflexivity |].
  cbn. unfold doRandomizeNonStaticAssets.
  destruct (List.length (filter isDynamic (assets (state w))) =? 0)%nat; reflexivity.
Qed.

(** Randomizing writes the objects of the dynamic assets and no other. *)
Lemma randomize_writes_only_dynamic random w r :
  (forall d, In d (assets (state w)) -> isDynamic d = true -> object d <> r) ->
  objects (state (randomizeNonStaticAssets random w)) r = objects (state w) r.
Proof.
  intros Hnot.
  rewrite randomize_state_objects, doRandomize_objects.
  rewrite placeAll_other; [reflexivity |].
  intros Hin. apply in_map_iff in Hin. destruct Hin as (d & Hobj & Hd).
  apply filter_In in Hd. destruct Hd as [Hd Hdyn].
  exact (Hnot d Hd Hdyn Hobj).
Qed.

(** C4. Randomizing leaves the object of a static asset exactly as it
    was (position, orientation and scale), provided the asset owns its
    object: no dynamic asset of the registry refers to the same one. *)
Theorem randomize_keeps_static_poses random w (a : LoadedAsset) :
  In a (assets (state w)) ->
  locked a = false -> excludeFromExport a = false -> disableGravity a = true ->
  (forall d, In d (assets (state w)) -> isDynamic d = true -> object d <> object a) ->
  objects (state (randomizeNonStaticAssets random w)) (object a) =
  objects (state w) (object a).
Proof.
  intros _ _ _ _ Howned.
  apply randomize_writes_only_dynamic. exact Howned.
Qed.

(** C5, amended. With no eligible dynamic asset, randomizing returns
    the world it was given: no pose changes and no command is pushed. *)
Theorem randomize_without_dynamic_assets random w :
  filter isDynamic (assets (state w)) = [] ->
  randomizeNonStaticAssets random w = w.
Proof.
  intros Hnone. unfold randomizeNonStaticAssets.
  apply capturePoses_empty in Hnone. rewrite Hnone. reflexivity.
Qed.

(** C3, amended. When one of the attempts for a dynamic asset that can
    fit is accepted, the asset's world bounding box after the pass lies
    within the spawn rectangle on the two planar axes (no later asset of
    the pass sharing its object). *)
Theorem accepted_placement_within_bounds random w (pre post : list LoadedAsset) (a : LoadedAsset) :
  filter isDynamic (assets (state w)) = pre ++ a :: post ->
  ~ In (object a) (map object post) ->
  let bounds := spawnBounds (state w) in
  let saved := posesOf (objects (state w)) (filter isDynamic (assets (state w))) in
  let before :=
    placeAll random bounds saved
      {| placed_objects := objects (state w); placedBoxes := []; drawn := 0 |} pre in
  let turn := prepare bounds saved before a in
  canFit (fit turn) = true ->
  snd (runAttempts random bounds a turn) = true ->
  isBoxWithinSpawnBounds bounds
    (getAssetBoundingBox (objects (state (randomizeNonStaticAssets random w))) a) = true.
Proof.
  intros Hdyn Hlater bounds saved before turn Hfit Haccepted.
  unfold getAssetBoundingBox.
  rewrite randomize_state_objects, doRandomize_objects.
  fold saved bounds. rewrite Hdyn.
  rewrite placeAll_app. fold before.
  cbn [placeAll fold_left].
  fold (placeAll random bounds saved (placeAsset random bounds saved before a) post).
  rewrite placeAll_other by exact Hlater.
  rewrite placeAsset_objects. fold turn.
  apply (attempts_accepted_within maxAttempts random bounds a
           (savedPose turn) (fit turn) (start turn) Hfit Haccepted).
Qed.

End PlacementFacts.


(** ** Marker scenes in exact arithmetic *)

Section MarkerFacts.

Local Open Scope R_scope.

Lemma Rleb_true a b : a <= b -> Rleb a b = true.
Proof. intros H. unfold Rleb. destruct (Rle_dec a b); [reflexivity | contradiction]. Qed.

Lemma Rleb_false a b : b < a -> Rleb a b = false.
Proof. intros H. unfold Rleb. destruct (Rle_dec a b); [lra | reflexivity]. Qed.

Lemma Rltb_true a b : a < b -> Rltb a b = true.
Proof. intros H. unfold Rltb. destruct (Rlt_dec a b); [reflexivity | contradiction]. Qed.

Lemma Rltb_false a b : b <= a -> Rltb a b = false.
Proof. intros H. unfold Rltb. destruct (Rlt_dec a b); [lra | reflexivity]. Qed.

(** The box of a marker is a point, so its size is zero. *)
Lemma boxSize_markerBox o : boxSize (markerBox o) = {| vx := 0; vy := 0; vz := 0 |}.
Proof.
  unfold boxSize, markerBox. cbn [box_min box_max vx vy vz].
  rewrite !Rltb_false by lra. cbn [orb].
  f_equal; lra.
Qed.

Lemma marker_fit (bounds : SpawnBounds R) saved p asset :
  let f := fit (prepare bounds saved p asset) in
  validMinX f = minX bounds /\ validMaxX f = maxX bounds /\
  validMinY f = minY bounds /\ validMaxY f = maxY bounds /\
  canFit f = Rltb (minX bounds) (maxX bounds) && Rltb (minY bounds) (maxY bounds).
Proof.
  unfold prepare. cbn [fit]. unfold getAssetLocalSize. cbn [fst snd].
  change (getSize (setFromObject ?o)) with (boxSize (markerBox o)).
  rewrite boxSize_markerBox.
  unfold fitOf. cbn [validMinX validMaxX validMinY validMaxY canFit vx vz].
  change (max 0 0 / ofZ 2)%js with (Rmax 0 0 / 2).
  assert (E : Rmax 0 0 / 2 = 0) by (rewrite Rmax_left; lra).
  rewrite E.
  change (minX bounds + 0)%js with (minX bounds + 0).
  change (maxX bounds - 0)%js with (maxX bounds - 0).
  change (minY bounds + 0)%js with (minY bounds + 0).
  change (maxY bounds - 0)%js with (maxY bounds - 0).
  rewrite !Rplus_0_r, !Rminus_0_r.
  repeat split; reflexivity.
Qed.

(** The pose an attempt tries when [Math.random()] returns 0 and the
    asset can fit: the corner of the valid rectangle, the saved heading. *)
Lemma attempt_alwaysZero_object (bounds : SpawnBounds R) asset sp f p :
  canFit f = true ->
  placed_objects (fst (attempt alwaysZero bounds asset (Some sp) f p)) (object asset) =
  {| geometry := geometry (placed_objects p (object asset));
     position := {| vx := validMinX f; vy := originalHeight f; vz := - validMinY f |};
     quaternion := pose_quaternion sp;
     scale := scale (placed_objects p (object asset)) |}.
Proof.
  intros Hfit. unfold attempt. rewrite Hfit. cbn zeta beta iota.
  assert (Hstore : forall (b1 b2 : bool) s k1 k2 boxes1 boxes2 boxes3,
            placed_objects (fst (if b1
               then ({| placed_objects := s; placedBoxes := boxes1; drawn := k1 |}, true)
               else if b2
               then ({| placed_objects := s; placedBoxes := boxes2; drawn := k1 |}, true)
               else ({| placed_objects := s; placedBoxes := boxes3; drawn := k2 |}, false)))
            = (s : Store R R R)).
  { intros [|] [|]; reflexivity. }
  rewrite Hstore.
  unfold setQuaternion at 1. rewrite upd_same.
  unfold setPosition. rewrite !upd_same. cbn [geometry position scale].
  unfold alwaysZero. cbn [premultiply setFromAxisAngleY markerThree].
  f_equal.
  - f_equal.
    + change (validMinX f + 0 * (validMaxX f - validMinX f) = validMinX f). lra.
    + change (- (validMinY f + 0 * (validMaxY f - validMinY f)) = - validMinY f). lra.
  - change (0 * PI * 2 + pose_quaternion sp = pose_quaternion sp). lra.
Qed.


Lemma cubeTurn_fit l d :
  let f := fit (cubeTurn l d) in
  validMinX f = - (3 / 10) /\ validMinY f = - (3 / 10) /\ canFit f = true.
Proof.
  destruct (marker_fit DEFAULT_SPAWN_BOUNDS
              (posesOf (objects (state (freshScene l d))) (filter isDynamic l))
              {| placed_objects := objects (state (freshScene l d)); placedBoxes := []; drawn := 0 |}
              cube) as (Hx & _ & Hy & _ & Hfit).
  fold (cubeTurn l d) in Hx, Hy, Hfit.
  cbn zeta. rewrite Hx, Hy, Hfit.
  repeat split; try reflexivity.
  cbn [DEFAULT_SPAWN_BOUNDS minX maxX minY maxY].
  change (Rltb (- (3 / 10)) (3 / 10) && Rltb (- (3 / 10)) (3 / 10) = true).
  rewrite Rltb_true by lra. reflexivity.
Qed.

End MarkerFacts.

Section PlacementScenarios.

Local Open Scope R_scope.

Lemma markerBox_cubeCandidate d :
  markerBox (cubeCandidate d) =
  {| box_min := {| vx := - (3 / 10) + d; vy := 0; vz := 3 / 10 |};
     box_max := {| vx := - (3 / 10) + d; vy := 0; vz := 3 / 10 |} |}.
Proof.
  unfold markerBox, cubeCandidate. cbn [geometry position quaternion scale vx vy vz unitScale].
  rewrite cos_0, sin_0.
  change (ofZ 1) with 1.
  f_equal; f_equal; lra.
Qed.

Lemma cubeCandidate_within d :
  isBoxWithinSpawnBounds DEFAULT_SPAWN_BOUNDS (markerBox (cubeCandidate d)) =
  Rleb 0 d && Rleb d (6 / 10).
Proof.
  rewrite markerBox_cubeCandidate. unfold isBoxWithinSpawnBounds.
  cbn [DEFAULT_SPAWN_BOUNDS minX maxX minY maxY box_min box_max vx vz].
  change (Rleb (- (3 / 10)) (- (3 / 10) + d) && Rleb (- (3 / 10) + d) (3 / 10)
          && Rleb (- (3 / 10)) (3 / 10) && Rleb (3 / 10) (- - (3 / 10))
          = Rleb 0 d && Rleb d (6 / 10)).
  rewrite (Rleb_true (- (3 / 10)) (3 / 10)) by lra.
  rewrite (Rleb_true (3 / 10) (- - (3 / 10))) by lra.
  rewrite !andb_true_r.
  unfold Rleb.
  destruct (Rle_dec (- (3 / 10)) (- (3 / 10) + d)), (Rle_dec 0 d); try lra;
  destruct (Rle_dec (- (3 / 10) + d) (3 / 10)), (Rle_dec d (6 / 10)); try lra; reflexivity.
Qed.

Lemma cubeTurn_savedPose_pair d : savedPose (cubeTurn [cube; table] d) = Some cubePose.
Proof. reflexivity. Qed.

Lemma cubeTurn_savedPose_single d : savedPose (cubeTurn [cube] d) = Some cubePose.
Proof. reflexivity. Qed.

Lemma cubeTurn_start l d :
  placedBoxes (start (cubeTurn l d)) = [] /\
  placed_objects (start (cubeTurn l d)) 1%nat = marker d.
Proof.
  split; [reflexivity |]. unfold cubeTurn. rewrite prepare_start_objects. reflexivity.
Qed.

(** One attempt for the cube, from a placement with nothing placed yet
    and the cube's marker [d] off-centre. *)
Lemma cube_attempt l d p :
  savedPose (cubeTurn l d) = Some cubePose ->
  placedBoxes p = [] ->
  geometry (placed_objects p 1%nat) = d ->
  scale (placed_objects p 1%nat) = unitScale ->
  let result := attempt alwaysZero DEFAULT_SPAWN_BOUNDS cube
                  (savedPose (cubeTurn l d)) (fit (cubeTurn l d)) p in
  placed_objects (fst result) 1%nat = cubeCandidate d /\
  snd result = Rleb 0 d && Rleb d (6 / 10).
Proof.
  intros Hsaved Hboxes Hgeom Hscale result.
  destruct (cubeTurn_fit l d) as (Hx & Hy & Hfit).
  assert (Hobj : placed_objects (fst result) 1%nat = cubeCandidate d).
  { unfold result. rewrite Hsaved.
    change 1%nat with (object cube).
    rewrite attempt_alwaysZero_object by exact Hfit.
    change (object cube) with 1%nat.
    rewrite Hx, Hy, Hgeom, Hscale.
    assert (Hh : originalHeight (fit (cubeTurn l d)) = 0).
    { change (originalHeight (fit (cubeTurn l d)))
        with (match savedPose (cubeTurn l d) with
              | Some sp => vy (pose_position sp)
              | None => vy (position (placed_objects (start (cubeTurn l d)) (object cube)))
              end).
      rewrite Hsaved. reflexivity. }
    rewrite Hh. reflexivity. }
  split; [exact Hobj |].
  unfold result. rewrite attempt_flag by exact Hfit.
  fold result. unfold getAssetBoundingBox. change (object cube) with 1%nat.
  rewrite Hobj, Hboxes. cbn [existsb negb andb].
  apply cubeCandidate_within.
Qed.


(** All hundred attempts, according to whether the pose tried is inside. *)
Lemma cube_attempts l d :
  savedPose (cubeTurn l d) = Some cubePose ->
  let result := runAttempts alwaysZero DEFAULT_SPAWN_BOUNDS cube (cubeTurn l d) in
  snd result = Rleb 0 d && Rleb d (6 / 10) /\
  placed_objects (fst result) 1%nat = cubeCandidate d.
Proof.
  intros Hsaved result. unfold result, runAttempts.
  change maxAttempts with (S 99). rewrite attempts_succ.
  destruct (cubeTurn_start l d) as [Hboxes Hobj].
  assert (Hgeom : geometry (placed_objects (start (cubeTurn l d)) 1%nat) = d)
    by (rewrite Hobj; reflexivity).
  assert (Hscale : scale (placed_objects (start (cubeTurn l d)) 1%nat) = unitScale)
    by (rewrite Hobj; reflexivity).
  destruct (cube_attempt l d (start (cubeTurn l d)) Hsaved Hboxes Hgeom Hscale)
    as [Hfirst Hflag].
  pose proof (attempt_rejected_boxes alwaysZero DEFAULT_SPAWN_BOUNDS cube
                (savedPose (cubeTurn l d)) (fit (cubeTurn l d)) (start (cubeTurn l d)))
    as Hkept.
  destruct (snd (attempt alwaysZero DEFAULT_SPAWN_BOUNDS cube (savedPose (cubeTurn l d))
                   (fit (cubeTurn l d)) (start (cubeTurn l d)))) eqn:Hplaced.
  - cbn [fst snd]. split; [exact Hflag | exact Hfirst].
  - rewrite <- Hflag.
    assert (Hstep : forall p,
               placedBoxes p = [] /\ placed_objects p 1%nat = cubeCandidate d ->
               snd (attempt alwaysZero DEFAULT_SPAWN_BOUNDS cube (savedPose (cubeTurn l d))
                      (fit (cubeTurn l d)) p) = false /\
               (placedBoxes (fst (attempt alwaysZero DEFAULT_SPAWN_BOUNDS cube
                                    (savedPose (cubeTurn l d)) (fit (cubeTurn l d)) p)) = [] /\
                placed_objects (fst (attempt alwaysZero DEFAULT_SPAWN_BOUNDS cube
                                       (savedPose (cubeTurn l d)) (fit (cubeTurn l d)) p)) 1%nat
                = cubeCandidate d)).
    { intros p [Hb Ho].
      assert (Hg : geometry (placed_objects p 1%nat) = d) by (rewrite Ho; reflexivity).
      assert (Hs : scale (placed_objects p 1%nat) = unitScale) by (rewrite Ho; reflexivity).
      destruct (cube_attempt l d p Hsaved Hb Hg Hs) as [Ho' Hf'].
      rewrite <- Hflag in Hf'.
      split; [exact Hf' |]. split; [| exact Ho'].
      rewrite attempt_rejected_boxes by exact Hf'. exact Hb. }
    destruct (attempts_all_rejected
                (fun p => placedBoxes p = [] /\ placed_objects p 1%nat = cubeCandidate d)
                alwaysZero DEFAULT_SPAWN_BOUNDS cube (savedPose (cubeTurn l d))
                (fit (cubeTurn l d)) Hstep 99
                (fst (attempt alwaysZero DEFAULT_SPAWN_BOUNDS cube (savedPose (cubeTurn l d))
                        (fit (cubeTurn l d)) (start (cubeTurn l d)))))
      as (Hrejected & _ & Hlast).
    + split; [| exact Hfirst]. rewrite Hkept by reflexivity. exact Hboxes.
    + split; [exact Hrejected | exact Hlast].
Qed.

(** Where the pass leaves the cube. *)
Lemma randomize_cube l d :
  filter isDynamic l = [cube] ->
  savedPose (cubeTurn l d) = Some cubePose ->
  objects (state (randomizeNonStaticAssets alwaysZero (freshScene l d))) 1%nat =
  cubeCandidate d.
Proof.
  intros Hdyn Hsaved.
  rewrite randomize_state_objects, doRandomize_objects.
  change (assets (state (freshScene l d))) with l.
  change (spawnBounds (state (freshScene l d))) with (@DEFAULT_SPAWN_BOUNDS R _).
  rewrite Hdyn. cbn [placeAll fold_left].
  rewrite placeAsset_objects.
  rewrite <- Hdyn. fold (cubeTurn l d).
  apply cube_attempts. exact Hsaved.
Qed.

End PlacementScenarios.

(** ** Placement scenarios *)

(** C3 as stated fails: the cube can fit, every one of its hundred
    attempts is rejected, and the last pose tried is kept although its
    box lies outside the spawn rectangle. *)
Lemma last_attempt_kept_outside_bounds :
  In cube (filter isDynamic (assets (state (freshScene [cube; table] 10%R)))) /\
  canFit (fit (cubeTurn [cube; table] 10%R)) = true /\
  isBoxWithinSpawnBounds (spawnBounds (state (freshScene [cube; table] 10%R)))
    (getAssetBoundingBox
       (objects (state (randomizeNonStaticAssets alwaysZero (freshScene [cube; table] 10%R))))
       cube) = false.
Proof.
  split; [left; reflexivity |].
  split; [apply cubeTurn_fit |].
  unfold getAssetBoundingBox. change (object cube) with 1.
  rewrite randomize_cube by reflexivity.
  change (setFromObject (cubeCandidate 10%R)) with (markerBox (cubeCandidate 10%R)).
  change (spawnBounds (state (freshScene [cube; table] 10%R))) with (@DEFAULT_SPAWN_BOUNDS R _).
  rewrite cubeCandidate_within.
  rewrite (Rleb_false 10%R (6 / 10)%R) by lra. apply andb_false_r.
Qed.

(** A cube centred on its origin is accepted at its first attempt. *)
Lemma accepted_placement_within_bounds_witness :
  isBoxWithinSpawnBounds (spawnBounds (state (freshScene [cube; table] 0%R)))
    (getAssetBoundingBox
       (objects (state (randomizeNonStaticAssets alwaysZero (freshScene [cube; table] 0%R))))
       cube) = true.
Proof.
  apply (accepted_placement_within_bounds alwaysZero (freshScene [cube; table] 0%R) [] [] cube).
  - reflexivity.
  - intros H; exact H.
  - apply cubeTurn_fit.
  - change (snd (runAttempts alwaysZero DEFAULT_SPAWN_BOUNDS cube (cubeTurn [cube; table] 0%R)) = true).
    rewrite (proj1 (cube_attempts [cube; table] 0%R eq_refl)).
    rewrite !Rleb_true by lra. reflexivity.
Defined.

(** The table stays where it is while the cube is placed. *)
Lemma randomize_keeps_static_poses_witness :
  objects (state (randomizeNonStaticAssets alwaysZero (freshScene [cube; table] 0%R))) (object table) =
  objects (state (freshScene [cube; table] 0%R)) (object table).
Proof.
  apply (randomize_keeps_static_poses alwaysZero (freshScene [cube; table] 0%R) table).
  - right; left; reflexivity.
  - reflexivity.
  - reflexivity.
  - reflexivity.
  - intros d [<- | [<- | []]] Hdyn; [discriminate | discriminate Hdyn].
Defined.

(** A registry with the table alone: nothing to randomize. *)
Lemma randomize_without_dynamic_assets_witness :
  randomizeNonStaticAssets alwaysZero (freshScene [table] 0%R) = freshScene [table] 0%R.
Proof.
  apply (randomize_without_dynamic_assets alwaysZero (freshScene [table] 0%R)).
  reflexivity.
Defined.

(** C5 as stated fails: with a dynamic asset and no static one,
    randomizing moves the asset and pushes a command. *)
Lemma randomize_runs_without_static_assets :
  staticAssets (assets (state (freshScene [cube] 0%R))) = [] /\
  List.length (undoStack (history (randomizeNonStaticAssets alwaysZero (freshScene [cube] 0%R)))) = 1 /\
  position (objects (state (randomizeNonStaticAssets alwaysZero (freshScene [cube] 0%R))) (object cube))
  <> position (objects (state (freshScene [cube] 0%R)) (object cube)).
Proof.
  split; [reflexivity |]. split; [reflexivity |].
  change (object cube) with 1.
  rewrite randomize_cube by reflexivity.
  cbn [cubeCandidate position freshScene state sceneOf objects marker].
  intros H. apply (f_equal (@vx R)) in H. cbn [vx originOf] in H.
  change (ofZ 0) with 0%R in H. lra.
Qed.

(** ** Bounds proxy *)

(** C7, amended. In exact arithmetic, reading the bounds back from the
    proxy built for them (unit scale, not moved) gives the bounds
    themselves, side by side, with the same sign convention both ways;
    in binary64 this is exact for the default bounds. *)
Theorem bounds_proxy_round_trip :
  (forall b : SpawnBounds R, boundsFromMesh (createBoundsMesh b) = b) /\
  boundsEqual (boundsFromMesh (createBoundsMesh (@DEFAULT_SPAWN_BOUNDS float _)))
              (@DEFAULT_SPAWN_BOUNDS float _) = true.
Proof.
  split; [| vm_compute; reflexivity].
  intros [x0 x1 y0 y1]. unfold boundsFromMesh, createBoundsMesh.
  cbn [mesh_geometry mesh_position mesh_scale width height vx vy vz minX maxX minY maxY].
  change (ofZ 2) with 2%R. change (ofZ 1) with 1%R.
  f_equal.
  - change ((x0 + x1) / 2 - (x1 - x0) * 1 / 2 = x0)%R. lra.
  - change ((x0 + x1) / 2 + (x1 - x0) * 1 / 2 = x1)%R. lra.
  - change (- - ((y0 + y1) / 2) - (y1 - y0) * 1 / 2 = y0)%R. lra.
  - change (- - ((y0 + y1) / 2) + (y1 - y0) * 1 / 2 = y1)%R. lra.
Qed.

(** C7 as stated fails in binary64: for the bounds 0.1 .. 0.7 the side
    read back is 0.09999999999999998, not 0.1. *)
Lemma binary64_proxy_rounds :
  boundsEqual (boundsFromMesh (createBoundsMesh (@tenthsBounds float _ 1 7 1 7)))
              (@tenthsBounds float _ 1 7 1 7) = false /\
  PrimFloat.eqb (minX (@tenthsBounds float _ 1 7 1 7)) 0x1.999999999999ap-4 = true /\
  PrimFloat.eqb (maxX (@tenthsBounds float _ 1 7 1 7)) 0x1.6666666666666p-1 = true /\
  PrimFloat.eqb (minX (boundsFromMesh (createBoundsMesh (@tenthsBounds float _ 1 7 1 7))))
                0x1.9999999999998p-4 = true.
Proof. vm_compute. repeat split. Qed.

(** ** SelectionManager *)

Section SelectionFacts.

Context {num : Type} {NUM : JSNumber num} {GRAPH : SceneGraph num}.

Implicit Types (m : SelectionManager num) (event : MouseEvent num) (a : LoadedAsset).

Lemma onKeyDown_input_ignored k m :
  onKeyDown {| target := HTMLInputElement; key := k |} m = m.
Proof. reflexivity. Qed.

(** C6 on the code: with a textarea as target the handler still acts,
    where the undo/redo handler of the application ignores the key. *)
Theorem onKeyDown_textarea_not_ignored m :
  tc_mode (onKeyDown {| target := HTMLTextAreaElement; key := "r" |} m) = Rotate /\
  selectedAsset (onKeyDown {| target := HTMLTextAreaElement; key := "Escape" |} m) = None /\
  appIgnoresKey {| target := HTMLTextAreaElement; key := "r" |} = true.
Proof. repeat split. Qed.

Lemma ownerOf_unlocked l hitObject a :
  ownerOf l hitObject = Some a ->
  In a l /\ locked a = false /\ In hitObject (traverse (object a)).
Proof.
  unfold ownerOf. intros H. apply find_some in H. destruct H as [Hin Hb].
  apply andb_true_iff in Hb. destruct Hb as [Hlocked Hfound].
  split; [exact Hin |]. split.
  - destruct (locked a); [discriminate | reflexivity].
  - apply existsb_exists in Hfound. destruct Hfound as (child & Hchild & Heq).
    apply Nat.eqb_eq in Heq. subst child. exact Hchild.
Qed.

Lemma pickableMeshes_unlocked l mesh :
  In mesh (pickableMeshes l) ->
  exists owner, In owner l /\ locked owner = false /\
                In mesh (traverse (object owner)) /\ isMesh mesh = true.
Proof.
  unfold pickableMeshes. intros H. apply in_flat_map in H.
  destruct H as (owner & Hin & Hmesh). exists owner.
  destruct (locked owner); [destruct Hmesh |].
  apply filter_In in Hmesh. destruct Hmesh as [Hchild Hm].
  repeat split; assumption.
Qed.

Lemma onClick_effect event m : ClickEffect m (onClick event m).
Proof.
  unfold onClick.
  destruct (tc_dragging m); [apply click_keeps; reflexivity |].
  destruct (wasDragging m); [apply click_keeps; reflexivity |].
  destruct (movedTooFar event m); [apply click_keeps; reflexivity |].
  cbn zeta.
  destruct (intersectObjects _ _) as [| hitObject rest].
  - destruct (sm_isRandomizeMode (setMouseDownPos None m)) eqn:Hmode.
    + unfold selectBounds. rewrite Hmode. cbn [negb orb].
      destruct (boundsMesh (setMouseDownPos None m)).
      * apply click_clears; [reflexivity | right; reflexivity | reflexivity].
      * apply click_keeps; reflexivity.
    + apply click_clears; [reflexivity | left; reflexivity | reflexivity].
  - destruct (ownerOf (sm_assets (setMouseDownPos None m)) hitObject) as [a |] eqn:Howner.
    + apply ownerOf_unlocked in Howner. destruct Howner as (Hin & Hlocked & _).
      apply click_picks with (a := a); try assumption;
        destruct (sm_isRandomizeMode (setMouseDownPos None m)); reflexivity.
    + apply click_keeps; reflexivity.
Qed.

(** A mesh that only locked assets hold is not given to the raycaster. *)
Lemma locked_meshes_not_raycast l mesh :
  (forall owner, In owner l -> In mesh (traverse (object owner)) -> locked owner = true) ->
  ~ In mesh (pickableMeshes l).
Proof.
  intros Hlocked Hin. apply pickableMeshes_unlocked in Hin.
  destruct Hin as (owner & Hown & Hfree & Hchild & _).
  rewrite (Hlocked owner Hown Hchild) in Hfree. discriminate Hfree.
Qed.

(** C8. A click never selects a locked asset: the meshes handed to the
    raycaster all belong to non-locked assets, and whenever the click
    selects an asset (or notifies one as selected) that asset is not
    locked; a locked asset can only remain selected if it was before. *)
Theorem pick_never_selects_locked event m :
  (forall mesh, In mesh (pickableMeshes (sm_assets m)) ->
     exists owner, In owner (sm_assets m) /\ locked owner = false /\
                   In mesh (traverse (object owner)) /\ isMesh mesh = true) /\
  (forall a, selectedAsset (onClick event m) = Some a ->
     locked a = false \/
     (selectedAsset m = Some a /\ selectionChanges (onClick event m) = selectionChanges m)) /\
  (forall a, selectionChanges (onClick event m) = Some a :: selectionChanges m ->
     locked a = false).
Proof.
  split; [intros mesh; apply pickableMeshes_unlocked |].
  destruct (onClick_effect event m) as [Hsel _ Hlog | a' _ Hlocked Hsel _ Hlog | Hsel _ Hlog].
  - split.
    + intros a Ha. right. split; [rewrite <- Hsel; exact Ha | exact Hlog].
    + intros a Ha. rewrite Hlog in Ha.
      exfalso. apply (f_equal (@List.length _)) in Ha. cbn in Ha. lia.
  - split.
    + intros a Ha. left. rewrite Hsel in Ha. injection Ha as <-. exact Hlocked.
    + intros a Ha. rewrite Hlog in Ha. unfold notifySelection in Ha.
      destruct (hasOnSelectionChange m).
      * injection Ha as <-. exact Hlocked.
      * exfalso. apply (f_equal (@List.length _)) in Ha. cbn in Ha. lia.
  - split.
    + intros a Ha. rewrite Hsel in Ha. discriminate Ha.
    + intros a Ha. rewrite Hlog in Ha. unfold notifySelection in Ha.
      destruct (hasOnSelectionChange m).
      * discriminate Ha.
      * exfalso. apply (f_equal (@List.length _)) in Ha. cbn in Ha. lia.
Qed.

End SelectionFacts.

(** The locked wall is nearest under the cursor, the click selects the
    cube behind it. *)
Lemma pick_never_selects_locked_witness :
  selectedAsset (onClick (clickAt 400 300) idleManager) = Some cube /\
  (locked cube = false \/
   (selectedAsset idleManager = Some cube /\
    selectionChanges (onClick (clickAt 400 300) idleManager) = selectionChanges idleManager)).
Proof.
  split; [vm_compute; reflexivity |].
  apply (proj1 (proj2 (pick_never_selects_locked (clickAt 400 300) idleManager)) cube).
  vm_compute. reflexivity.
Defined.

(** ** History scenarios *)

(** The edits of [typing] are the ones [createInstructionCommand] pushes
    after the text field has set the instruction. *)
Lemma typing_step (k : nat) (w : Scene float float float) :
  perform w ({| cmd_type := "instruction";
                execute := setInstruction (typed (S k));
                cmd_undo := setInstruction (typed k) |},
             setInstruction (typed (S k)) (state w)) =
  createInstructionCommand (typed k) (typed (S k))
    (onState (setInstruction (typed (S k))) w).
Proof. reflexivity. Qed.

(** C1 as stated fails: after 51 edits, 51 undos do not bring back the
    state before the sequence; the first edit has been evicted. *)
Lemma fifty_one_undos_lose_the_first_edit :
  legal (state floatScene) (typing 0 51 (state floatScene)) /\
  List.length (typing 0 51 (state floatScene)) = 51 /\
  instruction (state floatScene) = typed 0 /\
  instruction (state (Nat.iter 51 undo (performAll floatScene (typing 0 51 (state floatScene)))))
  = typed 1 /\
  state (Nat.iter 51 undo (performAll floatScene (typing 0 51 (state floatScene))))
  <> state floatScene.
Proof.
  split; [vm_compute; repeat split |].
  split; [reflexivity |]. split; [reflexivity |].
  assert (H : instruction
                (state (Nat.iter 51 undo
                          (performAll floatScene (typing 0 51 (state floatScene))))) = typed 1)
    by (vm_compute; reflexivity).
  split; [exact H |].
  intros Heq. rewrite Heq in H. discriminate H.
Qed.

(** Three instruction edits, undone and redone. *)
Lemma undo_redo_round_trip_witness :
  state (Nat.iter 3 undo (performAll floatScene (typing 0 3 (state floatScene))))
  = state floatScene /\
  state (Nat.iter 3 redo
           (Nat.iter 3 undo (performAll floatScene (typing 0 3 (state floatScene)))))
  = state (performAll floatScene (typing 0 3 (state floatScene))).
Proof.
  apply (undo_redo_round_trip _ floatScene (typing 0 3 (state floatScene))).
  - simpl. lia.
  - simpl. repeat split.
Defined.

(** A push onto the full stack left by fifty edits. *)
Lemma pushCommand_capacity_witness :
  undoStack (pushCommand (history (performAll floatScene (typing 0 50 (state floatScene))))
               {| cmd_type := "instruction";
                  execute := setInstruction "done";
                  cmd_undo := setInstruction (typed 50) |}) =
  tl (undoStack (history (performAll floatScene (typing 0 50 (state floatScene)))))
  ++ [{| cmd_type := "instruction";
         execute := setInstruction "done";
         cmd_undo := setInstruction (typed 50) |}].
Proof.
  apply (proj2 (pushCommand_capacity _
                  (history (performAll floatScene (typing 0 50 (state floatScene))))
                  {| cmd_type := "instruction";
                     execute := setInstruction "done";
                     cmd_undo := setInstruction (typed 50) |})).
  vm_compute. reflexivity.
Defined.

(** Toggling an id no asset carries. *)
Lemma toggleAssetGravity_flips_only_the_flag_witness :
  assets (state (toggleAssetGravity "ghost" floatScene)) = assets (state floatScene).
Proof.
  apply (proj2 (proj2 (proj2
           (toggleAssetGravity_flips_only_the_flag "ghost" floatScene)))).
  intros a [<- | [<- | []]]; discriminate.
Defined.

(** No condition is saved, so index 0 is out of range. *)
Lemma condition_index_out_of_range_witness :
  loadCondition 0 floatScene = floatScene /\ deleteCondition 0 floatScene = floatScene.
Proof.
  apply (condition_index_out_of_range 0 floatScene).
  right. simpl. lia.
Defined.

(** ** Further facts about the commands *)

(** The guard of the panel: without a dynamic or without a static asset
    Randomize mode is not entered and a hint is shown. *)
Lemma handleEnterRandomize_refused :
  forall (num Quaternion Geometry : Type) (NUM : JSNumber num)
         (st : SceneState num Quaternion Geometry),
  canRandomize (assets st) = false ->
  handleEnterRandomize st = (st, Some (getHint (assets st))) /\
  getHint (assets st) <> EmptyString.
Proof.
  intros num Quaternion Geometry NUM st Hno. unfold handleEnterRandomize.
  rewrite Hno. split; [reflexivity |].
  unfold canRandomize in Hno. unfold getHint.
  destruct (hasDynamicAssets (assets st)), (hasStaticAssets (assets st));
    cbn in *; discriminate.
Qed.

(** The panel and the engine agree on which assets are dynamic. *)
Lemma dynamicAssets_filter (l : list LoadedAsset) :
  dynamicAssets l = filter isDynamic l.
Proof.
  unfold dynamicAssets, exportableAssets, isDynamic.
  induction l as [| a l IH]; [reflexivity |].
  destruct a as [i n o lk ex dg]. destruct lk, ex, dg; cbn; rewrite ?IH; reflexivity.
Qed.

(** The commands of the instruction field, of the bounds fields and of
    the gravity toggle satisfy the Command invariant. *)
Lemma instruction_command_legal :
  forall (num Quaternion Geometry : Type) (st : SceneState num Quaternion Geometry)
         (after : string),
  setInstruction (instruction st) (setInstruction after st) = st.
Proof. reflexivity. Qed.

Lemma spawnBounds_command_legal :
  forall (num Quaternion Geometry : Type) (st : SceneState num Quaternion Geometry)
         (after : SpawnBounds num),
  setSpawnBoundsState (spawnBounds st) (setSpawnBoundsState after st) = st.
Proof. reflexivity. Qed.

Lemma toggleGravity_command_legal :
  forall (num Quaternion Geometry : Type) (st : SceneState num Quaternion Geometry)
         (i : string),
  doToggleAssetGravity i (doToggleAssetGravity i st) = st.
Proof. intros. apply doToggleAssetGravity_twice. Qed.

(** The command of [removeAsset] does not: undoing the removal of an
    asset that was not the last one puts it back at the end. *)
Lemma removeAsset_undo_appends :
  assets (state (undo (removeAsset "cube" floatScene))) = [table; cube] /\
  assets (state floatScene) = [cube; table].
Proof. split; reflexivity. Qed.

(** ** useHistory: how the operations compose *)

Section HistoryComposition.

Variable State : Type.
Implicit Types (w : World State) (h : History State) (c : Command State) (s : State).

(** The command just pushed is on top of the undo stack. *)
Lemma pushCommand_top h c :
  undoStack (pushCommand h c) =
  skipn (List.length (undoStack h) + 1 - MAX_HISTORY_SIZE) (undoStack h) ++ [c].
Proof.
  rewrite pushCommand_undoStack, skipn_app.
  replace (List.length (undoStack h) + 1 - MAX_HISTORY_SIZE - List.length (undoStack h))
    with 0 by (unfold MAX_HISTORY_SIZE; lia).
  reflexivity.
Qed.

Lemma undo_pushed s h c :
  undo {| state := s; history := pushCommand h c |} =
  {| state := cmd_undo c s;
     history := {| undoStack := skipn (List.length (undoStack h) + 1 - MAX_HISTORY_SIZE)
                                      (undoStack h);
                   redoStack := [c] |} |}.
Proof.
  pose proof (pushCommand_top h c) as Htop.
  pose proof (pushCommand_redoStack State h c) as Hredo.
  destruct (pushCommand h c) as [u r]. cbn [undoStack redoStack] in Htop, Hredo.
  subst u r. apply (undo_top State s _ [] c).
Qed.

Lemma redo_undo_pushed s h c :
  redo (undo {| state := s; history := pushCommand h c |}) =
  {| state := execute c (cmd_undo c s); history := pushCommand h c |}.
Proof.
  rewrite undo_pushed.
  rewrite (redo_top State _ _ [] c).
  pose proof (pushCommand_top h c) as Htop.
  pose proof (pushCommand_redoStack State h c) as Hredo.
  destruct (pushCommand h c) as [u r]. cbn [undoStack redoStack] in Htop, Hredo.
  subst u r. reflexivity.
Qed.

Lemma stacks_cases (l : list (Command State)) : l = [] \/ exists l' c, l = l' ++ [c].
Proof.
  destruct l as [| c l] using rev_ind; [left; reflexivity | right; exists l, c; reflexivity].
Qed.

Lemma undo_conserves w :
  List.length (undoStack (history (undo w))) + List.length (redoStack (history (undo w))) =
  List.length (undoStack (history w)) + List.length (redoStack (history w)).
Proof.
  destruct w as [s [u r]].
  destruct (stacks_cases u) as [-> | (u' & c & ->)].
  - rewrite undo_empty. reflexivity.
  - rewrite undo_top. cbn [history undoStack redoStack]. rewrite !length_app. simpl. lia.
Qed.

Lemma redo_conserves w :
  List.length (undoStack (history (redo w))) + List.length (redoStack (history (redo w))) =
  List.length (undoStack (history w)) + List.length (redoStack (history w)).
Proof.
  destruct w as [s [u r]].
  destruct (stacks_cases r) as [-> | (r' & c & ->)].
  - rewrite redo_empty. reflexivity.
  - rewrite redo_top. cbn [history undoStack redoStack]. rewrite !length_app. simpl. lia.
Qed.

Lemma runOp_within_capacity w (op : HistoryOp State) :
  within_capacity (history w) -> within_capacity (history (runOp w op)).
Proof.
  intros Hw. destruct op as [c s' | | |]; cbn [runOp].
  - apply pushCommand_within_capacity.
  - apply undo_within_capacity. exact Hw.
  - apply redo_within_capacity. exact Hw.
  - unfold within_capacity. cbn. lia.
Qed.

(** X1. Whatever sequence of pushes, undos, redos and clears a user of
    the hook carries out, the two stacks never hold more than 50 commands
    between them. *)
Theorem history_stays_within_capacity w (ops : list (HistoryOp State)) :
  List.length (undoStack (history w)) + List.length (redoStack (history w)) <= 50 ->
  List.length (undoStack (history (runOps w ops)))
  + List.length (redoStack (history (runOps w ops))) <= 50.
Proof.
  change (within_capacity (history w) -> within_capacity (history (runOps w ops))).
  revert w. induction ops as [| op ops IH]; intros w Hw; [exact Hw |].
  cbn [runOps fold_left]. apply IH. apply runOp_within_capacity. exact Hw.
Qed.

(** X2. [undo] and [redo] lose no command: each moves at most one
    command from one stack to the other, so the stacks together hold as
    many commands as before; with nothing to undo (to redo) the call
    changes neither the state nor the history. *)
Theorem undo_redo_conserve_commands w :
  List.length (undoStack (history (undo w))) + List.length (redoStack (history (undo w))) =
  List.length (undoStack (history w)) + List.length (redoStack (history w)) /\
  List.length (undoStack (history (redo w))) + List.length (redoStack (history (redo w))) =
  List.length (undoStack (history w)) + List.length (redoStack (history w)) /\
  (canUndo (history w) = false -> undo w = w) /\
  (canRedo (history w) = false -> redo w = w).
Proof.
  split; [apply undo_conserves |]. split; [apply redo_conserves |].
  destruct w as [s [u r]]. unfold canUndo, canRedo. cbn [history undoStack redoStack].
  split; intros H.
  - destruct u; [reflexivity | discriminate H].
  - destruct r; [reflexivity | discriminate H].
Qed.

(** X3. A push empties the redo stack: right after an edit redo does
    nothing.  The command just pushed is the one undo takes: undo runs
    its [undo] on the state and leaves it as the only command to redo,
    and redo then runs its [execute] and gives the history back as the
    push left it. *)
Theorem pushed_command_is_next_to_undo w (edit : Command State * State) :
  canRedo (history (perform w edit)) = false /\
  redo (perform w edit) = perform w edit /\
  state (undo (perform w edit)) = cmd_undo (fst edit) (snd edit) /\
  redoStack (history (undo (perform w edit))) = [fst edit] /\
  state (redo (undo (perform w edit))) = execute (fst edit) (cmd_undo (fst edit) (snd edit)) /\
  history (redo (undo (perform w edit))) = history (perform w edit).
Proof.
  unfold perform.
  split; [reflexivity |]. split; [reflexivity |].
  rewrite redo_undo_pushed, undo_pushed. repeat split.
Qed.

(** Undoing everything. *)
Lemma undo_all (u : list (Command State)) : forall s r,
  history (Nat.iter (List.length u) undo
             {| state := s; history := {| undoStack := u; redoStack := r |} |}) =
  {| undoStack := []; redoStack := r ++ rev u |}.
Proof.
  induction u as [| c u IH] using rev_ind; intros s r.
  - cbn. rewrite app_nil_r. reflexivity.
  - rewrite length_app. cbn [List.length]. rewrite Nat.add_1_r, Nat.iter_succ_r.
    rewrite undo_top, IH, rev_app_distr. cbn. rewrite <- app_assoc. reflexivity.
Qed.

Lemma undo_on_empty (n : nat) : forall w,
  undoStack (history w) = [] -> Nat.iter n undo w = w.
Proof.
  induction n as [| n IH]; intros w Hw; [reflexivity |].
  rewrite Nat.iter_succ_r.
  assert (Hundo : undo w = w).
  { destruct w as [s [u r]]. cbn in Hw. subst u. reflexivity. }
  rewrite Hundo. apply IH. exact Hw.
Qed.

(** X4. Undoing at least as often as there are commands to undo empties
    the undo stack and moves every command to the redo stack, in reverse
    order, so that redo replays the oldest edit first; the surplus
    calls do nothing. *)
Theorem undo_stops_at_the_empty_stack w (n : nat) :
  List.length (undoStack (history w)) <= n ->
  history (Nat.iter n undo w) =
  {| undoStack := []; redoStack := redoStack (history w) ++ rev (undoStack (history w)) |} /\
  canUndo (history (Nat.iter n undo w)) = false.
Proof.
  intros Hn. destruct w as [s [u r]]. cbn [history undoStack redoStack] in *.
  replace n with (List.length u + (n - List.length u)) by lia.
  rewrite Nat.add_comm, Nat.iter_add.
  assert (Hall := undo_all u s r).
  remember (Nat.iter (List.length u) undo
              {| state := s; history := {| undoStack := u; redoStack := r |} |}) as w1.
  rewrite undo_on_empty by (rewrite Hall; reflexivity).
  rewrite Hall. split; reflexivity.
Qed.

End HistoryComposition.

(** ** Maps keyed by id *)

Section MapFacts.

Variable V : Type.
Implicit Types (m : JSMap V) (k : string) (v : V).

Lemma mapGet_mapSet_same m k v : mapGet (mapSet m k v) k = Some v.
Proof.
  induction m as [| [k0 v0] m IH]; cbn.
  - rewrite String.eqb_refl. reflexivity.
  - destruct (String.eqb_spec k0 k) as [-> | Hne]; cbn.
    + rewrite String.eqb_refl. reflexivity.
    + destruct (String.eqb_spec k0 k); [contradiction | exact IH].
Qed.

Lemma mapGet_mapSet_other m k k' v : k' <> k -> mapGet (mapSet m k v) k' = mapGet m k'.
Proof.
  intros Hne. induction m as [| [k0 v0] m IH]; cbn.
  - destruct (String.eqb_spec k k'); [congruence | reflexivity].
  - destruct (String.eqb_spec k0 k) as [-> | Hk]; cbn.
    + destruct (String.eqb_spec k k'); [congruence | reflexivity].
    + destruct (String.eqb_spec k0 k'); [reflexivity | exact IH].
Qed.

Lemma mapKeys_mapSet m k v k' :
  In k' (mapKeys (mapSet m k v)) <-> k' = k \/ In k' (mapKeys m).
Proof.
  unfold mapKeys. induction m as [| [k0 v0] m IH]; cbn.
  - intuition congruence.
  - destruct (String.eqb_spec k0 k) as [-> | Hk]; cbn; [intuition congruence |].
    rewrite IH. intuition congruence.
Qed.

Lemma mapKeys_mapSet_NoDup m k v : NoDup (mapKeys m) -> NoDup (mapKeys (mapSet m k v)).
Proof.
  unfold mapKeys. induction m as [| [k0 v0] m IH]; cbn; intros Hnd.
  - constructor; [intros [] | constructor].
  - inversion Hnd as [| ? ? Hnot Hrest]; subst.
    destruct (String.eqb_spec k0 k) as [-> | Hk]; cbn.
    + constructor; assumption.
    + constructor; [| apply IH; exact Hrest].
      intros Hin. apply (mapKeys_mapSet m k v k0) in Hin.
      destruct Hin as [-> | Hin]; [congruence | contradiction].
Qed.

Lemma mapSet_fresh m k v : ~ In k (mapKeys m) -> mapSet m k v = m ++ [(k, v)].
Proof.
  unfold mapKeys. induction m as [| [k0 v0] m IH]; cbn; intros Hnot; [reflexivity |].
  destruct (String.eqb_spec k0 k) as [-> | Hk]; [exfalso; apply Hnot; left; reflexivity |].
  rewrite IH by (intros H; apply Hnot; right; exact H). reflexivity.
Qed.

Lemma mapGet_None m k : ~ In k (mapKeys m) -> mapGet m k = None.
Proof.
  unfold mapKeys. induction m as [| [k0 v0] m IH]; cbn; intros Hnot; [reflexivity |].
  destruct (String.eqb_spec k0 k) as [-> | Hk]; [exfalso; apply Hnot; left; reflexivity |].
  apply IH. intros H. apply Hnot. right. exact H.
Qed.

End MapFacts.

(** ** Poses: capture and apply *)

Section PoseFacts.

Context {num : Type} {NUM : JSNumber num}.
Context {Quaternion Geometry : Type}.

Implicit Types (st : SceneState num Quaternion Geometry) (w : Scene num Quaternion Geometry).
Implicit Types (s : Store num Quaternion Geometry) (a : LoadedAsset) (r : ObjRef).
Implicit Types (l : list LoadedAsset) (m : JSMap (SavedPose num Quaternion)).

Lemma findAsset_unique l a : uniqueIds l -> In a l -> findAsset l (id a) = Some a.
Proof.
  unfold uniqueIds, findAsset. induction l as [| b l IH]; cbn; intros Hnd Hin; [destruct Hin |].
  inversion Hnd as [| ? ? Hnot Hrest]; subst.
  match goal with |- context [String.eqb ?x ?y] =>
    destruct (String.eqb_spec x y) as [E | Hne] end.
  - destruct Hin as [Hba | Hin]; [rewrite Hba; reflexivity |].
    exfalso. apply Hnot. apply in_map_iff. exists a. split; [symmetry; exact E | exact Hin].
  - destruct Hin as [Hba | Hin]; [exfalso; apply Hne; subst b; reflexivity |].
    apply IH; assumption.
Qed.

Lemma findAsset_some l k a : findAsset l k = Some a -> In a l /\ id a = k.
Proof.
  unfold findAsset. intros H. apply find_some in H. destruct H as [Hin Hk].
  split; [exact Hin |]. apply String.eqb_eq. exact Hk.
Qed.

Lemma uniqueIds_filter l (f : LoadedAsset -> bool) : uniqueIds l -> uniqueIds (filter f l).
Proof.
  unfold uniqueIds. induction l as [| b l IH]; cbn; intros Hnd; [constructor |].
  inversion Hnd as [| ? ? Hnot Hrest]; subst.
  destruct (f b); cbn; [| apply IH; exact Hrest].
  constructor; [| apply IH; exact Hrest].
  intros Hin. apply Hnot. apply in_map_iff in Hin. destruct Hin as (x & Hx & Hfx).
  apply filter_In in Hfx. apply in_map_iff. exists x. split; [exact Hx | apply Hfx].
Qed.

Lemma captureFrom_cons s a l m :
  captureFrom s (a :: l) m = captureFrom s l (mapSet m (id a) (poseOf s a)).
Proof. reflexivity. Qed.

Lemma capture_keys s l : forall m k,
  In k (mapKeys (captureFrom s l m)) <-> In k (mapKeys m) \/ In k (map id l).
Proof.
  induction l as [| a l IH]; intros m k; [cbn; tauto |].
  rewrite captureFrom_cons, IH, mapKeys_mapSet. cbn [map In]. intuition congruence.
Qed.

Lemma capture_NoDup s l : forall m, NoDup (mapKeys m) -> NoDup (mapKeys (captureFrom s l m)).
Proof.
  induction l as [| a l IH]; intros m Hm; [exact Hm |].
  rewrite captureFrom_cons. apply IH. apply mapKeys_mapSet_NoDup. exact Hm.
Qed.

Lemma capture_entries s l : forall m,
  NoDup (map id l) -> (forall a, In a l -> ~ In (id a) (mapKeys m)) ->
  captureFrom s l m = m ++ map (fun a => (id a, poseOf s a)) l.
Proof.
  induction l as [| a l IH]; intros m Hnd Hfresh; [cbn; symmetry; apply app_nil_r |].
  inversion Hnd as [| ? ? Hnot Hrest]; subst.
  rewrite captureFrom_cons. cbn [map].
  rewrite IH; [| exact Hrest |].
  - rewrite mapSet_fresh by (apply Hfresh; left; reflexivity).
    rewrite <- app_assoc. reflexivity.
  - intros b Hb Hin. apply mapKeys_mapSet in Hin. destruct Hin as [E | Hin].
    + apply Hnot. apply in_map_iff. exists b. split; [exact E | exact Hb].
    + exact (Hfresh b (or_intror Hb) Hin).
Qed.

Lemma posesOf_entries s l :
  NoDup (map id l) -> posesOf s l = map (fun a => (id a, poseOf s a)) l.
Proof.
  intros Hnd. unfold posesOf. fold (captureFrom s l []).
  rewrite capture_entries; [reflexivity | exact Hnd | intros a _ []].
Qed.

Lemma mapGet_entries s l a :
  NoDup (map id l) -> In a l ->
  mapGet (map (fun b => (id b, poseOf s b)) l) (id a) = Some (poseOf s a).
Proof.
  induction l as [| b l IH]; cbn; intros Hnd Hin; [destruct Hin |].
  inversion Hnd as [| ? ? Hnot Hrest]; subst.
  match goal with |- context [String.eqb ?x ?y] =>
    destruct (String.eqb_spec x y) as [E | Hne] end.
  - destruct Hin as [Hba | Hin]; [rewrite Hba; reflexivity |].
    exfalso. apply Hnot. apply in_map_iff. exists a. split; [symmetry; exact E | exact Hin].
  - destruct Hin as [Hba | Hin]; [exfalso; apply Hne; subst b; reflexivity |].
    apply IH; assumption.
Qed.

(** Applying a pose keeps the geometry and the scale of every object. *)
Lemma applyPose_shape l s entry r :
  geometry (applyPose l s entry r) = geometry (s r) /\
  scale (applyPose l s entry r) = scale (s r).
Proof.
  unfold applyPose. destruct (findAsset l (fst entry)) as [a |]; [| split; reflexivity].
  destruct (Nat.eq_dec r (object a)) as [-> | Hne].
  - unfold setQuaternion. rewrite upd_same. cbn.
    unfold setPosition. rewrite upd_same. cbn. split; reflexivity.
  - rewrite setQuaternion_other, setPosition_other by exact Hne. split; reflexivity.
Qed.

Lemma applyPose_object l s entry a :
  findAsset l (fst entry) = Some a ->
  applyPose l s entry (object a) = posed (s (object a)) (snd entry).
Proof.
  intros Hfound. unfold applyPose. rewrite Hfound.
  unfold setQuaternion. rewrite upd_same. cbn.
  unfold setPosition. rewrite upd_same. reflexivity.
Qed.

Lemma applyPose_other l s entry r :
  (forall a, findAsset l (fst entry) = Some a -> object a <> r) ->
  applyPose l s entry r = s r.
Proof.
  intros Hother. unfold applyPose.
  destruct (findAsset l (fst entry)) as [a |] eqn:Hfound; [| reflexivity].
  assert (Hne : r <> object a) by (intros ->; exact (Hother a eq_refl eq_refl)).
  rewrite setQuaternion_other, setPosition_other by exact Hne. reflexivity.
Qed.

Lemma applyPoses_shape l (ps : JSMap (SavedPose num Quaternion)) : forall s r,
  geometry (fold_left (applyPose l) ps s r) = geometry (s r) /\
  scale (fold_left (applyPose l) ps s r) = scale (s r).
Proof.
  induction ps as [| entry ps IH]; intros s r; [split; reflexivity |].
  cbn [fold_left]. destruct (IH (applyPose l s entry) r) as [Hg Hs].
  destruct (applyPose_shape l s entry r) as [Hg' Hs'].
  rewrite Hg, Hs, Hg', Hs'. split; reflexivity.
Qed.

(** Poses are applied to the assets their keys find, and to no other. *)
Lemma applyPoses_other l (ps : JSMap (SavedPose num Quaternion)) r : forall s,
  (forall k a, In k (mapKeys ps) -> findAsset l k = Some a -> object a <> r) ->
  fold_left (applyPose l) ps s r = s r.
Proof.
  induction ps as [| entry ps IH]; intros s Hother; [reflexivity |].
  cbn [fold_left]. rewrite IH.
  - apply applyPose_other. intros a Ha. apply (Hother (fst entry) a); [left; reflexivity | exact Ha].
  - intros k a Hk. apply Hother. right. exact Hk.
Qed.

(** Applying the poses captured from [s0] for assets of the registry
    gives their objects the pose they had in [s0]. *)
Lemma restore_captured l s0 (captured : list LoadedAsset) :
  uniqueIds l -> (forall a, In a captured -> In a l) ->
  forall s r,
    fold_left (applyPose l) (map (fun a => (id a, poseOf s0 a)) captured) s r =
    if in_dec Nat.eq_dec r (map object captured)
    then posed (s r) (poseAt s0 r)
    else s r.
Proof.
  intros Hids. induction captured as [| a rest IH]; intros Hsub s r; [reflexivity |].
  cbn [map fold_left].
  assert (Hfound : findAsset l (fst (id a, poseOf s0 a)) = Some a)
    by (apply findAsset_unique; [exact Hids | apply Hsub; left; reflexivity]).
  rewrite IH by (intros b Hb; apply Hsub; right; exact Hb).
  destruct (applyPose_shape l s (id a, poseOf s0 a) r) as [Hg Hs].
  destruct (in_dec Nat.eq_dec r (map object rest)) as [Hin | Hnot];
    match goal with |- context [in_dec Nat.eq_dec r (?h :: ?t)] =>
      destruct (in_dec Nat.eq_dec r (h :: t)) as [Hyes | Hno] end.
  - unfold posed. rewrite Hg, Hs. reflexivity.
  - exfalso. apply Hno. right. exact Hin.
  - destruct Hyes as [E | Hin]; [| contradiction].
    subst r. exact (applyPose_object l s (id a, poseOf s0 a) a Hfound).
  - apply applyPose_other. intros b Hb. rewrite Hfound in Hb. injection Hb as <-.
    intros E. apply Hno. left. exact E.
Qed.

End PoseFacts.

(** ** Capturing and restoring poses *)

Section CaptureFacts.

Context {num : Type} {NUM : JSNumber num}.
Context {Quaternion Geometry : Type} {THREE : Three num Quaternion Geometry}.

Implicit Types (st : SceneState num Quaternion Geometry) (w : Scene num Quaternion Geometry).
Implicit Types (s : Store num Quaternion Geometry) (a asset : LoadedAsset) (r : ObjRef).
Implicit Types (p : Placement num Quaternion Geometry) (bounds : SpawnBounds num).
Implicit Types (random : nat -> num) (saved : JSMap (SavedPose num Quaternion)).

Lemma capturePoses_keys st k :
  In k (mapKeys (capturePoses st)) <->
  exists a, In a (assets st) /\ isDynamic a = true /\ id a = k.
Proof.
  unfold capturePoses, posesOf. fold (captureFrom (objects st) (filter isDynamic (assets st)) []).
  rewrite capture_keys. cbn [mapKeys map In]. rewrite in_map_iff. split.
  - intros [[] | (a & Hid & Ha)]. apply filter_In in Ha. exists a. tauto.
  - intros (a & Hin & Hdyn & Hid). right. exists a. split; [exact Hid |].
    apply filter_In. split; assumption.
Qed.

Lemma capturePoses_lookup st a :
  uniqueIds (assets st) -> In a (assets st) -> isDynamic a = true ->
  mapGet (capturePoses st) (id a) = Some (poseAt (objects st) (object a)).
Proof.
  intros Hids Hin Hdyn. unfold capturePoses.
  assert (Hnd : NoDup (map id (filter isDynamic (assets st))))
    by (apply (uniqueIds_filter _ isDynamic Hids)).
  rewrite posesOf_entries by exact Hnd.
  apply mapGet_entries; [exact Hnd |]. apply filter_In. split; assumption.
Qed.

(** X5. [capturePoses] returns a map with one key per id of a dynamic
    asset (not excluded from export, gravity enabled, not locked) and no
    other key; an id that no dynamic asset carries is not found; when
    the ids of the registry are distinct the entry of a dynamic asset is
    the position and orientation of its own object. *)
Theorem capturePoses_holds_the_dynamic_assets st :
  NoDup (mapKeys (capturePoses st)) /\
  (forall k, In k (mapKeys (capturePoses st)) <->
             exists a, In a (assets st) /\ isDynamic a = true /\ id a = k) /\
  (forall k, (forall a, In a (assets st) -> isDynamic a = true -> id a <> k) ->
             mapGet (capturePoses st) k = None) /\
  (uniqueIds (assets st) ->
   forall a, In a (assets st) -> isDynamic a = true ->
     mapGet (capturePoses st) (id a) = Some (poseAt (objects st) (object a))).
Proof.
  split.
  { unfold capturePoses, posesOf.
    fold (captureFrom (objects st) (filter isDynamic (assets st)) []).
    apply capture_NoDup. constructor. }
  split; [apply capturePoses_keys |]. split.
  - intros k Hnone. apply mapGet_None. intros Hin. apply capturePoses_keys in Hin.
    destruct Hin as (a & Ha & Hdyn & Hid). exact (Hnone a Ha Hdyn Hid).
  - intros Hids a. apply capturePoses_lookup. exact Hids.
Qed.

Lemma applyPoses_objects (ps : JSMap (SavedPose num Quaternion)) st :
  objects (applyPoses ps st) = fold_left (applyPose (assets st)) ps (objects st).
Proof. reflexivity. Qed.

(** X6. Applying to a scene the poses just captured from it changes no
    object, when the ids of the registry are distinct. *)
Theorem applying_a_fresh_capture_changes_nothing st :
  uniqueIds (assets st) ->
  forall r, objects (applyPoses (capturePoses st) st) r = objects st r.
Proof.
  intros Hids r. rewrite applyPoses_objects. unfold capturePoses.
  rewrite posesOf_entries by (apply (uniqueIds_filter _ isDynamic Hids)).
  rewrite (restore_captured (assets st) (objects st) _ Hids)
    by (intros a Ha; apply filter_In in Ha; apply Ha).
  destruct (in_dec Nat.eq_dec r (map object (filter isDynamic (assets st)))); reflexivity.
Qed.

(** *** The pass keeps shapes *)

Lemma setPose_shape s r0 v q r :
  geometry (setQuaternion (setPosition s r0 v) r0 q r) = geometry (s r) /\
  scale (setQuaternion (setPosition s r0 v) r0 q r) = scale (s r).
Proof.
  destruct (Nat.eq_dec r r0) as [-> | Hne].
  - unfold setQuaternion. rewrite upd_same. cbn.
    unfold setPosition. rewrite upd_same. cbn. split; reflexivity.
  - rewrite setQuaternion_other, setPosition_other by exact Hne. split; reflexivity.
Qed.

Lemma attempt_objects random bounds asset sp f p :
  exists v q,
    placed_objects (fst (attempt random bounds asset sp f p)) =
    setQuaternion (setPosition (placed_objects p) (object asset) v) (object asset) q /\
    vy v = originalHeight f /\
    (canFit f = false ->
     vx v = div (add (minX bounds) (maxX bounds)) (ofZ 2) /\
     vz v = neg (div (add (minY bounds) (maxY bounds)) (ofZ 2))) /\
    (canFit f = true ->
     vx v = add (validMinX f) (mul (random (drawn p)) (sub (validMaxX f) (validMinX f))) /\
     vz v = neg (add (validMinY f)
                     (mul (random (S (drawn p))) (sub (validMaxY f) (validMinY f))))).
Proof.
  unfold attempt. destruct (canFit f); cbn zeta beta iota;
    repeat match goal with |- context [if ?b then _ else _] => destruct b end;
    cbn [fst placed_objects];
    eexists; eexists; (split; [reflexivity |]); cbn [vx vy vz];
    (split; [reflexivity |]); split; intros H; try discriminate H; split; reflexivity.
Qed.

Lemma attempt_shape random bounds asset sp f p r :
  geometry (placed_objects (fst (attempt random bounds asset sp f p)) r)
  = geometry (placed_objects p r) /\
  scale (placed_objects (fst (attempt random bounds asset sp f p)) r)
  = scale (placed_objects p r).
Proof.
  destruct (attempt_objects random bounds asset sp f p) as (v & q & -> & _).
  apply setPose_shape.
Qed.

Lemma attempts_shape n random bounds asset sp f : forall p r,
  geometry (placed_objects (fst (attempts n random bounds asset sp f p)) r)
  = geometry (placed_objects p r) /\
  scale (placed_objects (fst (attempts n random bounds asset sp f p)) r)
  = scale (placed_objects p r).
Proof.
  induction n as [| n IH]; intros p r; [split; reflexivity |].
  rewrite attempts_succ.
  destruct (attempt_shape random bounds asset sp f p r) as [Hg Hs].
  destruct (snd (attempt random bounds asset sp f p)); cbn [fst]; [split; assumption |].
  destruct (IH (fst (attempt random bounds asset sp f p)) r) as [Hg' Hs'].
  rewrite Hg', Hs'. split; assumption.
Qed.

Lemma placeAsset_shape random bounds saved p asset r :
  geometry (placed_objects (placeAsset random bounds saved p asset) r)
  = geometry (placed_objects p r) /\
  scale (placed_objects (placeAsset random bounds saved p asset) r)
  = scale (placed_objects p r).
Proof.
  rewrite placeAsset_objects. unfold runAttempts.
  destruct (attempts_shape maxAttempts random bounds asset
              (savedPose (prepare bounds saved p asset)) (fit (prepare bounds saved p asset))
              (start (prepare bounds saved p asset)) r) as [Hg Hs].
  rewrite Hg, Hs, prepare_start_objects. split; reflexivity.
Qed.

Lemma placeAll_shape random bounds saved l : forall p r,
  geometry (placed_objects (placeAll random bounds saved p l) r) = geometry (placed_objects p r) /\
  scale (placed_objects (placeAll random bounds saved p l) r) = scale (placed_objects p r).
Proof.
  induction l as [| asset l IH]; intros p r; [split; reflexivity |].
  cbn [placeAll fold_left].
  fold (placeAll random bounds saved (placeAsset random bounds saved p asset) l).
  destruct (IH (placeAsset random bounds saved p asset) r) as [Hg Hs].
  destruct (placeAsset_shape random bounds saved p asset r) as [Hg' Hs'].
  rewrite Hg, Hs. split; assumption.
Qed.

Lemma doRandomize_shape random st r :
  geometry (objects (doRandomizeNonStaticAssets random st) r) = geometry (objects st r) /\
  scale (objects (doRandomizeNonStaticAssets random st) r) = scale (objects st r).
Proof. rewrite doRandomize_objects. apply placeAll_shape. Qed.

Lemma doRandomize_other random st r :
  ~ In r (map object (filter isDynamic (assets st))) ->
  objects (doRandomizeNonStaticAssets random st) r = objects st r.
Proof. intros Hnot. rewrite doRandomize_objects. apply placeAll_other. exact Hnot. Qed.

Lemma doRandomize_assets random st :
  assets (doRandomizeNonStaticAssets random st) = assets st.
Proof.
  unfold doRandomizeNonStaticAssets.
  destruct (List.length (filter isDynamic (assets st)) =? 0)%nat; reflexivity.
Qed.

(** With something to randomize, the pass is followed by one push. *)
Lemma randomize_pushes random w :
  filter isDynamic (assets (state w)) <> [] ->
  randomizeNonStaticAssets random w =
  {| state := doRandomizeNonStaticAssets random (state w);
     history :=
       pushCommand (history w)
         {| cmd_type := "randomize";
            execute := applyPoses (capturePoses (doRandomizeNonStaticAssets random (state w)));
            cmd_undo := applyPoses (capturePoses (state w)) |} |}.
Proof.
  intros Hsome. unfold randomizeNonStaticAssets.
  destruct (mapSize (capturePoses (state w)) =? 0)%nat eqn:E; [| reflexivity].
  apply capturePoses_empty in E. contradiction.
Qed.

(** Restoring, onto [st1], the poses captured in [st0]: when the two
    states have the same registry and shapes and differ only on objects
    of dynamic assets, the objects of [st0] come back. *)
Lemma restore_capture_of st0 st1 :
  uniqueIds (assets st0) ->
  assets st1 = assets st0 ->
  (forall r, geometry (objects st1 r) = geometry (objects st0 r) /\
             scale (objects st1 r) = scale (objects st0 r)) ->
  (forall r, ~ In r (map object (filter isDynamic (assets st0))) ->
             objects st1 r = objects st0 r) ->
  forall r, objects (applyPoses (capturePoses st0) st1) r = objects st0 r.
Proof.
  intros Hids Hassets Hshape Hother r.
  rewrite applyPoses_objects, Hassets. unfold capturePoses.
  rewrite posesOf_entries by (apply (uniqueIds_filter _ isDynamic Hids)).
  rewrite (restore_captured (assets st0) (objects st0) _ Hids)
    by (intros a Ha; apply filter_In in Ha; apply Ha).
  destruct (in_dec Nat.eq_dec r (map object (filter isDynamic (assets st0)))) as [Hin | Hnot].
  - destruct (Hshape r) as [Hg Hs]. unfold posed, poseAt. rewrite Hg, Hs. reflexivity.
  - apply Hother. exact Hnot.
Qed.

(** X7. With distinct ids and something to randomize, undoing a
    randomization gives every object of the scene the pose, geometry
    and scale it had before, and redoing it gives every object what the
    randomization had produced. *)
Theorem randomize_undo_redo_objects random w :
  uniqueIds (assets (state w)) ->
  filter isDynamic (assets (state w)) <> [] ->
  (forall r, objects (state (undo (randomizeNonStaticAssets random w))) r
             = objects (state w) r) /\
  (forall r, objects (state (redo (undo (randomizeNonStaticAssets random w)))) r
             = objects (state (randomizeNonStaticAssets random w)) r).
Proof.
  intros Hids Hsome. rewrite (randomize_pushes random w Hsome).
  set (st0 := state w). set (st1 := doRandomizeNonStaticAssets random st0).
  assert (Hback : forall r, objects (applyPoses (capturePoses st0) st1) r = objects st0 r).
  { apply restore_capture_of.
    - exact Hids.
    - apply doRandomize_assets.
    - intros r. apply doRandomize_shape.
    - intros r. apply doRandomize_other. }
  split.
  - intros r. rewrite undo_pushed. cbn [state cmd_undo]. apply Hback.
  - intros r. rewrite redo_undo_pushed. cbn [state cmd_undo execute].
    apply restore_capture_of.
    + unfold st1. rewrite doRandomize_assets. exact Hids.
    + reflexivity.
    + intros r'. rewrite applyPoses_objects.
      destruct (applyPoses_shape (assets st1) (capturePoses st0) (objects st1) r') as [Hg Hs].
      rewrite Hg, Hs. split; reflexivity.
    + intros r' Hnot. rewrite Hback.
      unfold st1 in Hnot. rewrite doRandomize_assets in Hnot.
      symmetry. apply doRandomize_other. exact Hnot.
Qed.

(** X8. A randomization changes poses only: the registry, the spawn
    bounds, the saved conditions and the instruction are as before, and
    every object keeps its geometry and its scale. *)
Theorem randomize_keeps_everything_but_poses random w :
  assets (state (randomizeNonStaticAssets random w)) = assets (state w) /\
  spawnBounds (state (randomizeNonStaticAssets random w)) = spawnBounds (state w) /\
  savedConditions (state (randomizeNonStaticAssets random w)) = savedConditions (state w) /\
  instruction (state (randomizeNonStaticAssets random w)) = instruction (state w) /\
  (forall r,
     geometry (objects (state (randomizeNonStaticAssets random w)) r)
     = geometry (objects (state w) r) /\
     scale (objects (state (randomizeNonStaticAssets random w)) r)
     = scale (objects (state w) r)).
Proof.
  assert (Hfields : forall st,
            spawnBounds (doRandomizeNonStaticAssets random st) = spawnBounds st /\
            savedConditions (doRandomizeNonStaticAssets random st) = savedConditions st /\
            instruction (doRandomizeNonStaticAssets random st) = instruction st).
  { intros st. unfold doRandomizeNonStaticAssets.
    destruct (List.length (filter isDynamic (assets st)) =? 0)%nat; repeat split. }
  split; [apply randomize_assets |].
  unfold randomizeNonStaticAssets.
  destruct (mapSize (capturePoses (state w)) =? 0)%nat.
  - repeat split.
  - cbn [push onState state]. destruct (Hfields (state w)) as (Hb & Hc & Hi).
    repeat split; try assumption; apply doRandomize_shape.
Qed.

End CaptureFacts.

(** ** The placement pass, asset by asset *)

Section PassFacts.

Context {num : Type} {NUM : JSNumber num}.
Context {Quaternion Geometry : Type} {THREE : Three num Quaternion Geometry}.

Implicit Types (st : SceneState num Quaternion Geometry) (w : Scene num Quaternion Geometry).
Implicit Types (s : Store num Quaternion Geometry) (a asset : LoadedAsset) (r : ObjRef).
Implicit Types (p : Placement num Quaternion Geometry) (bounds : SpawnBounds num).
Implicit Types (random : nat -> num) (saved : JSMap (SavedPose num Quaternion)).

(** What every attempt establishes holds when the loop is left. *)
Lemma attempts_establish (P : Placement num Quaternion Geometry -> Prop)
    random bounds asset sp f :
  (forall p, P (fst (attempt random bounds asset sp f p))) ->
  forall n p, P (fst (attempts (S n) random bounds asset sp f p)).
Proof.
  intros Hstep. induction n as [| n IH]; intros p; rewrite attempts_succ.
  - destruct (snd (attempt random bounds asset sp f p)); cbn [fst attempts]; apply Hstep.
  - destruct (snd (attempt random bounds asset sp f p)); cbn [fst]; [apply Hstep | apply IH].
Qed.

Lemma attempt_position random bounds asset sp f p :
  vy (position (placed_objects (fst (attempt random bounds asset sp f p)) (object asset)))
  = originalHeight f /\
  (canFit f = false ->
   vx (position (placed_objects (fst (attempt random bounds asset sp f p)) (object asset)))
   = div (add (minX bounds) (maxX bounds)) (ofZ 2) /\
   vz (position (placed_objects (fst (attempt random bounds asset sp f p)) (object asset)))
   = neg (div (add (minY bounds) (maxY bounds)) (ofZ 2))).
Proof.
  destruct (attempt_objects random bounds asset sp f p) as (v & q & -> & Hy & Hcentre & _).
  unfold setQuaternion. rewrite upd_same. cbn [position].
  unfold setPosition. rewrite upd_same. cbn [position].
  split; [exact Hy | exact Hcentre].
Qed.

(** The state of the pass once the asset [a] has had its turn. *)
Lemma pass_split random st (pre post : list LoadedAsset) a r :
  filter isDynamic (assets st) = pre ++ a :: post ->
  ~ In r (map object post) ->
  objects (doRandomizeNonStaticAssets random st) r =
  placed_objects (fst (runAttempts random (spawnBounds st) a (turnOf random st pre a))) r.
Proof.
  intros Hdyn Hlater. rewrite doRandomize_objects, Hdyn, placeAll_app.
  cbn [placeAll fold_left].
  match goal with |- placed_objects (fold_left ?f post ?p0) r = _ =>
    change (fold_left f post p0) with (placeAll random (spawnBounds st)
      (posesOf (objects st) (pre ++ a :: post)) p0 post) end.
  rewrite placeAll_other by exact Hlater.
  rewrite placeAsset_objects. unfold turnOf, placedBefore. rewrite Hdyn. reflexivity.
Qed.

Lemma placedBefore_other random st (pre : list LoadedAsset) r :
  ~ In r (map object pre) ->
  placed_objects (placedBefore random st pre) r = objects st r.
Proof. intros Hnot. unfold placedBefore. rewrite placeAll_other by exact Hnot. reflexivity. Qed.

(** The height used for an asset is its own, when ids are distinct. *)
Lemma turnOf_height random st (pre post : list LoadedAsset) a :
  filter isDynamic (assets st) = pre ++ a :: post ->
  NoDup (map id (filter isDynamic (assets st))) ->
  originalHeight (fit (turnOf random st pre a)) = vy (position (objects st (object a))).
Proof.
  intros Hdyn Hids.
  change (originalHeight (fit (turnOf random st pre a)))
    with (match savedPose (turnOf random st pre a) with
          | Some sp => vy (pose_position sp)
          | None => vy (position (placed_objects (start (turnOf random st pre a)) (object a)))
          end).
  change (savedPose (turnOf random st pre a))
    with (mapGet (posesOf (objects st) (filter isDynamic (assets st))) (id a)).
  rewrite posesOf_entries by exact Hids.
  rewrite mapGet_entries; [reflexivity | exact Hids |].
  rewrite Hdyn. apply in_or_app. right. left. reflexivity.
Qed.

Lemma NoDup_app_right (A : Type) (l1 l2 : list A) (x : A) :
  NoDup (l1 ++ x :: l2) -> ~ In x l2.
Proof.
  intros Hnd Hin. apply NoDup_remove_2 in Hnd. apply Hnd. apply in_or_app. right. exact Hin.
Qed.

(** X9. A randomization keeps every dynamic asset at its height: the
    vertical coordinate of its position is the one it had before, when
    no two dynamic assets share an id or an object. *)
Theorem randomize_keeps_heights random w a :
  In a (filter isDynamic (assets (state w))) ->
  NoDup (map id (filter isDynamic (assets (state w)))) ->
  NoDup (map object (filter isDynamic (assets (state w)))) ->
  vy (position (objects (state (randomizeNonStaticAssets random w)) (object a)))
  = vy (position (objects (state w) (object a))).
Proof.
  intros Hin Hids Hobjs. rewrite randomize_state_objects.
  destruct (in_split a _ Hin) as (pre & post & Hdyn).
  assert (Hlater : ~ In (object a) (map object post)).
  { rewrite Hdyn, map_app in Hobjs. cbn [map] in Hobjs.
    apply (NoDup_app_right _ _ _ _ Hobjs). }
  rewrite (pass_split random (state w) pre post a (object a) Hdyn Hlater).
  unfold runAttempts. change maxAttempts with (S 99).
  rewrite <- (turnOf_height random (state w) pre post a Hdyn Hids).
  apply (attempts_establish
           (fun p => vy (position (placed_objects p (object a)))
                     = originalHeight (fit (turnOf random (state w) pre a)))).
  intros p. apply attempt_position.
Qed.

(** X10. A dynamic asset that cannot fit (the rectangle shrunk by half
    its larger horizontal extent is empty) ends a randomization at the
    centre of the spawn rectangle: x is the midpoint of minX and maxX,
    z the negated midpoint of minY and maxY. *)
Theorem asset_too_big_is_centred random w (pre post : list LoadedAsset) a :
  filter isDynamic (assets (state w)) = pre ++ a :: post ->
  ~ In (object a) (map object post) ->
  canFit (fit (turnOf random (state w) pre a)) = false ->
  vx (position (objects (state (randomizeNonStaticAssets random w)) (object a)))
  = div (add (minX (spawnBounds (state w))) (maxX (spawnBounds (state w)))) (ofZ 2) /\
  vz (position (objects (state (randomizeNonStaticAssets random w)) (object a)))
  = neg (div (add (minY (spawnBounds (state w))) (maxY (spawnBounds (state w)))) (ofZ 2)).
Proof.
  intros Hdyn Hlater Hbig. rewrite randomize_state_objects.
  rewrite (pass_split random (state w) pre post a (object a) Hdyn Hlater).
  unfold runAttempts. change maxAttempts with (S 99).
  apply (attempts_establish
           (fun p =>
              vx (position (placed_objects p (object a)))
              = div (add (minX (spawnBounds (state w))) (maxX (spawnBounds (state w)))) (ofZ 2) /\
              vz (position (placed_objects p (object a)))
              = neg (div (add (minY (spawnBounds (state w))) (maxY (spawnBounds (state w))))
                         (ofZ 2)))).
  intros p. apply attempt_position. exact Hbig.
Qed.

(** *** The boxes on record *)

Lemma attempt_boxes random bounds asset sp f p :
  placedBoxes (fst (attempt random bounds asset sp f p)) =
  if snd (attempt random bounds asset sp f p)
  then placedBoxes p
       ++ [getAssetBoundingBox (placed_objects (fst (attempt random bounds asset sp f p))) asset]
  else placedBoxes p.
Proof.
  unfold attempt. destruct (canFit f); cbn zeta beta iota;
    match goal with |- context [if negb ?c && ?wb then _ else _] =>
      destruct c; destruct wb end;
    cbn [negb andb fst snd placedBoxes placed_objects]; reflexivity.
Qed.

Lemma attempt_accepted_clear random bounds asset sp f p :
  snd (attempt random bounds asset sp f p) = true ->
  existsb (checkCollision
             (getAssetBoundingBox (placed_objects (fst (attempt random bounds asset sp f p))) asset))
          (placedBoxes p) = false.
Proof.
  unfold attempt. destruct (canFit f); cbn zeta beta iota;
    match goal with |- context [if negb ?c && ?wb then _ else _] =>
      destruct c eqn:Hc; destruct wb end;
    cbn [negb andb fst snd placed_objects]; intros H; try discriminate H; exact Hc.
Qed.

Lemma attempts_boxes n random bounds asset sp f : forall p,
  placedBoxes (fst (attempts n random bounds asset sp f p)) =
  if snd (attempts n random bounds asset sp f p)
  then placedBoxes p
       ++ [getAssetBoundingBox (placed_objects (fst (attempts n random bounds asset sp f p))) asset]
  else placedBoxes p.
Proof.
  induction n as [| n IH]; intros p; [reflexivity |].
  rewrite attempts_succ.
  pose proof (attempt_boxes random bounds asset sp f p) as Hstep.
  destruct (snd (attempt random bounds asset sp f p)) eqn:Hflag; cbn [fst snd]; [exact Hstep |].
  rewrite IH, Hstep. reflexivity.
Qed.

Lemma attempts_accepted_clear n random bounds asset sp f : forall p,
  snd (attempts n random bounds asset sp f p) = true ->
  existsb (checkCollision
             (getAssetBoundingBox (placed_objects (fst (attempts n random bounds asset sp f p))) asset))
          (placedBoxes p) = false.
Proof.
  induction n as [| n IH]; intros p; [discriminate |].
  rewrite attempts_succ.
  pose proof (attempt_accepted_clear random bounds asset sp f p) as Hstep.
  pose proof (attempt_boxes random bounds asset sp f p) as Hboxes.
  destruct (snd (attempt random bounds asset sp f p)) eqn:Hflag; cbn [fst snd].
  - intros _. apply Hstep. reflexivity.
  - intros Hlater. rewrite <- Hboxes. apply IH. exact Hlater.
Qed.

(** Placed or not, an asset leaves exactly one box: the one it has when
    its turn ends. *)
Lemma placeAsset_boxes random bounds saved p asset :
  placedBoxes (placeAsset random bounds saved p asset) =
  placedBoxes p
  ++ [getAssetBoundingBox (placed_objects (placeAsset random bounds saved p asset)) asset].
Proof.
  rewrite placeAsset_objects. unfold placeAsset, runAttempts.
  pose proof (attempts_boxes maxAttempts random bounds asset
                (savedPose (prepare bounds saved p asset)) (fit (prepare bounds saved p asset))
                (start (prepare bounds saved p asset))) as Hboxes.
  destruct (snd (attempts maxAttempts random bounds asset
                   (savedPose (prepare bounds saved p asset))
                   (fit (prepare bounds saved p asset))
                   (start (prepare bounds saved p asset)))).
  - rewrite Hboxes. reflexivity.
  - cbn [placedBoxes]. rewrite Hboxes. reflexivity.
Qed.

Lemma placeAll_snoc random bounds saved p l asset :
  placeAll random bounds saved p (l ++ [asset]) =
  placeAsset random bounds saved (placeAll random bounds saved p l) asset.
Proof. rewrite placeAll_app. reflexivity. Qed.

Lemma placeAll_boxes random bounds saved l : forall p,
  NoDup (map object l) ->
  placedBoxes (placeAll random bounds saved p l) =
  placedBoxes p
  ++ map (getAssetBoundingBox (placed_objects (placeAll random bounds saved p l))) l.
Proof.
  induction l as [| asset l IH] using rev_ind; intros p Hnd.
  - cbn. symmetry. apply app_nil_r.
  - rewrite placeAll_snoc, placeAsset_boxes, map_app. cbn [map].
    rewrite map_app in Hnd. cbn [map] in Hnd.
    rewrite IH by (apply NoDup_remove_1 in Hnd; rewrite app_nil_r in Hnd; exact Hnd).
    rewrite <- app_assoc. f_equal. f_equal.
    apply map_ext_in. intros b Hb. unfold getAssetBoundingBox.
    rewrite placeAsset_other; [reflexivity |].
    intros E. apply NoDup_remove_2 in Hnd. apply Hnd. rewrite app_nil_r.
    apply in_map_iff. exists b. split; [first [exact E | symmetry; exact E] | exact Hb].
Qed.

(** X11. The pass records exactly one box per asset it has handled,
    whether one of its attempts was accepted or all 100 were rejected;
    when the assets have objects of their own, the boxes on record are
    the boxes the assets have when the pass ends, in registry order. *)
Theorem pass_records_one_box_per_asset random bounds saved p (l : list LoadedAsset) :
  List.length (placedBoxes (placeAll random bounds saved p l))
  = List.length (placedBoxes p) + List.length l /\
  (NoDup (map object l) ->
   placedBoxes (placeAll random bounds saved p l) =
   placedBoxes p
   ++ map (getAssetBoundingBox (placed_objects (placeAll random bounds saved p l))) l).
Proof.
  split; [| apply placeAll_boxes].
  induction l as [| asset l IH] using rev_ind; [cbn; lia |].
  rewrite placeAll_snoc, placeAsset_boxes, !length_app, IH. cbn. lia.
Qed.

(** X12. A dynamic asset one of whose attempts was accepted ends the
    randomization with a bounding box that intersects none of the boxes
    recorded for the dynamic assets before it in the registry. *)
Theorem accepted_placement_is_clear random w (pre post : list LoadedAsset) a :
  filter isDynamic (assets (state w)) = pre ++ a :: post ->
  ~ In (object a) (map object post) ->
  snd (runAttempts random (spawnBounds (state w)) a (turnOf random (state w) pre a)) = true ->
  existsb (checkCollision
             (getAssetBoundingBox (objects (state (randomizeNonStaticAssets random w))) a))
          (placedBoxes (placedBefore random (state w) pre)) = false /\
  (forall box, In box (placedBoxes (placedBefore random (state w) pre)) ->
     checkCollision
       (getAssetBoundingBox (objects (state (randomizeNonStaticAssets random w))) a) box = false).
Proof.
  intros Hdyn Hlater Haccepted.
  unfold getAssetBoundingBox at 1 2. rewrite randomize_state_objects.
  rewrite (pass_split random (state w) pre post a (object a) Hdyn Hlater).
  pose proof (attempts_accepted_clear maxAttempts random (spawnBounds (state w)) a
                (savedPose (turnOf random (state w) pre a))
                (fit (turnOf random (state w) pre a))
                (start (turnOf random (state w) pre a)) Haccepted) as Hclear.
  assert (Hall : forall b, In b (placedBoxes (start (turnOf random (state w) pre a))) ->
                 checkCollision
                   (getAssetBoundingBox
                      (placed_objects
                         (fst (runAttempts random (spawnBounds (state w)) a
                                 (turnOf random (state w) pre a)))) a) b = false).
  { intros b Hb. destruct (checkCollision _ b) eqn:E; [| reflexivity].
    assert (Hex : existsb (checkCollision
                    (getAssetBoundingBox
                       (placed_objects
                          (fst (runAttempts random (spawnBounds (state w)) a
                                  (turnOf random (state w) pre a)))) a))
                    (placedBoxes (start (turnOf random (state w) pre a))) = true)
      by (apply existsb_exists; exists b; split; assumption).
    unfold runAttempts in Hex. rewrite Hclear in Hex. discriminate Hex. }
  split; [exact Hclear | exact Hall].
Qed.

(** The pass calls [Math.random()] at most 300 times per asset: three
    numbers for each of at most 100 attempts. *)
Lemma pass_draws_at_most_300_per_asset random bounds saved (l : list LoadedAsset) : forall p,
  drawn p <= drawn (placeAll random bounds saved p l) <= drawn p + 300 * List.length l.
Proof.
  induction l as [| asset l IH]; intros p; [cbn; lia |].
  cbn [placeAll fold_left].
  fold (placeAll random bounds saved (placeAsset random bounds saved p asset) l).
  specialize (IH (placeAsset random bounds saved p asset)).
  assert (Hone : drawn p <= drawn (placeAsset random bounds saved p asset) <= drawn p + 300).
  { unfold placeAsset, runAttempts.
    pose proof (attempts_drawn maxAttempts random bounds asset
                  (savedPose (prepare bounds saved p asset)) (fit (prepare bounds saved p asset))
                  (start (prepare bounds saved p asset))) as Hd.
    change (drawn (start (prepare bounds saved p asset))) with (drawn p) in Hd.
    change (3 * maxAttempts) with 300 in Hd.
    destruct (snd (attempts maxAttempts random bounds asset
                     (savedPose (prepare bounds saved p asset))
                     (fit (prepare bounds saved p asset))
                     (start (prepare bounds saved p asset)))); cbn [drawn]; exact Hd. }
  cbn [List.length]. lia.
Qed.

End PassFacts.

(** ** The placement pass in exact arithmetic *)

Section ExactPlacement.

Context {Quaternion Geometry : Type} {THREE : Three R Quaternion Geometry}.

Local Open Scope R_scope.

Lemma Rltb_lt a b : Rltb a b = true -> a < b.
Proof. unfold Rltb. destruct (Rlt_dec a b); [trivial | discriminate]. Qed.

Lemma fitOf_canFit (bounds : SpawnBounds R) (s : Store R Quaternion Geometry) asset sp size :
  canFit (fitOf bounds s asset sp size) = true ->
  validMinX (fitOf bounds s asset sp size) < validMaxX (fitOf bounds s asset sp size) /\
  validMinY (fitOf bounds s asset sp size) < validMaxY (fitOf bounds s asset sp size).
Proof.
  unfold fitOf. cbn [canFit validMinX validMaxX validMinY validMaxY].
  intros H. apply andb_prop in H. destruct H as [Hx Hy].
  split; [exact (Rltb_lt _ _ Hx) | exact (Rltb_lt _ _ Hy)].
Qed.

Lemma attempt_origin_in_valid_rectangle (random : nat -> R) bounds asset sp (f : Fit R)
    (p : Placement R Quaternion Geometry) :
  (forall k, 0 <= random k < 1) ->
  canFit f = true ->
  validMinX f < validMaxX f -> validMinY f < validMaxY f ->
  validMinX f <= vx (position (placed_objects (fst (attempt random bounds asset sp f p))
                                 (object asset))) < validMaxX f /\
  validMinY f <= - vz (position (placed_objects (fst (attempt random bounds asset sp f p))
                                   (object asset))) < validMaxY f.
Proof.
  intros Hrandom Hfit Hx Hy.
  destruct (attempt_objects random bounds asset sp f p) as (v & q & -> & _ & _ & Hpos).
  destruct (Hpos Hfit) as [Evx Evz].
  unfold setQuaternion. rewrite upd_same. cbn [position].
  unfold setPosition. rewrite upd_same. cbn [position].
  rewrite Evx, Evz.
  change (add ?a ?b) with (a + b). change (mul ?a ?b) with (a * b).
  change (sub ?a ?b) with (a - b). change (neg ?a) with (- a).
  pose proof (Hrandom (drawn p)) as H1. pose proof (Hrandom (S (drawn p))) as H2.
  split; split; nra.
Qed.

(** X13. In exact arithmetic, with [Math.random()] in [0, 1), a dynamic
    asset that can fit ends a randomization with its origin inside the
    spawn rectangle shrunk by half its larger horizontal extent: x in
    [validMinX, validMaxX) and -z in [validMinY, validMaxY), whether or
    not one of its attempts was accepted. *)
Theorem fitting_asset_origin_in_valid_rectangle (random : nat -> R)
    (w : Scene R Quaternion Geometry) (pre post : list LoadedAsset) a :
  (forall k, 0 <= random k < 1) ->
  filter isDynamic (assets (state w)) = pre ++ a :: post ->
  ~ In (object a) (map object post) ->
  canFit (fit (turnOf random (state w) pre a)) = true ->
  validMinX (fit (turnOf random (state w) pre a))
  <= vx (position (objects (state (randomizeNonStaticAssets random w)) (object a)))
  < validMaxX (fit (turnOf random (state w) pre a)) /\
  validMinY (fit (turnOf random (state w) pre a))
  <= - vz (position (objects (state (randomizeNonStaticAssets random w)) (object a)))
  < validMaxY (fit (turnOf random (state w) pre a)).
Proof.
  intros Hrandom Hdyn Hlater Hfit. rewrite randomize_state_objects.
  rewrite (pass_split random (state w) pre post a (object a) Hdyn Hlater).
  destruct (fitOf_canFit _ _ _ _ _ Hfit) as [Hx Hy].
  unfold runAttempts. change maxAttempts with (S 99).
  apply (attempts_establish
           (fun p =>
              validMinX (fit (turnOf random (state w) pre a))
              <= vx (position (placed_objects p (object a)))
              < validMaxX (fit (turnOf random (state w) pre a)) /\
              validMinY (fit (turnOf random (state w) pre a))
              <= - vz (position (placed_objects p (object a)))
              < validMaxY (fit (turnOf random (state w) pre a)))).
  intros p. apply attempt_origin_in_valid_rectangle; assumption.
Qed.

End ExactPlacement.

(** ** The registry and the saved conditions under undo *)

Lemma filter_index_below (A : Type) (t : nat) (arr : list A) : forall k,
  t < k ->
  map snd (filter (fun entry => negb (Z.of_nat (fst entry) =? Z.of_nat t)%Z)
                  (combine (seq k (List.length arr)) arr)) = arr.
Proof.
  induction arr as [| x arr IH]; intros k Hk; [reflexivity |].
  cbn [List.length seq combine filter fst].
  destruct (Z.eqb_spec (Z.of_nat k) (Z.of_nat t)) as [E | _]; [lia |].
  cbn [negb map snd]. rewrite IH by lia. reflexivity.
Qed.

Lemma filter_index_at (A : Type) (t : nat) (arr : list A) : forall k,
  k <= t < k + List.length arr ->
  map snd (filter (fun entry => negb (Z.of_nat (fst entry) =? Z.of_nat t)%Z)
                  (combine (seq k (List.length arr)) arr))
  = firstn (t - k) arr ++ skipn (S (t - k)) arr.
Proof.
  induction arr as [| x arr IH]; intros k Hk; [cbn in Hk; lia |].
  cbn [List.length seq combine filter fst].
  destruct (Z.eqb_spec (Z.of_nat k) (Z.of_nat t)) as [E | Hne]; cbn [negb map snd].
  - apply Nat2Z.inj in E. subst t. rewrite Nat.sub_diag. cbn [firstn skipn app].
    apply filter_index_below. lia.
  - assert (Hlt : k < t) by lia.
    replace (t - k) with (S (t - S k)) by lia. cbn [firstn skipn app].
    rewrite IH by (cbn [List.length] in Hk; lia). reflexivity.
Qed.

(** [arr.filter((_, i) => i !== index)] takes out the entry at [index]
    and keeps the others in order. *)
Lemma removeIndex_in_range (A : Type) (arr : list A) (i : nat) :
  i < List.length arr ->
  removeIndex arr (Z.of_nat i) = firstn i arr ++ skipn (S i) arr.
Proof.
  intros Hi. unfold removeIndex.
  rewrite (filter_index_at A i arr 0) by lia. rewrite Nat.sub_0_r. reflexivity.
Qed.

Section RegistryFacts.

Context {num : Type} {NUM : JSNumber num}.
Context {Quaternion Geometry : Type} {THREE : Three num Quaternion Geometry}.

Implicit Types (st : SceneState num Quaternion Geometry) (w : Scene num Quaternion Geometry).
Implicit Types (a asset : LoadedAsset) (r : ObjRef).

Lemma filter_other_ids (l : list LoadedAsset) (i : string) :
  (forall b, In b l -> id b <> i) ->
  filter (fun b => negb (String.eqb (id b) i)) l = l.
Proof.
  induction l as [| b l IH]; intros Hfresh; [reflexivity |]. cbn [filter].
  destruct (String.eqb_spec (id b) i) as [E | _];
    [exfalso; exact (Hfresh b (or_introl eq_refl) E) |].
  cbn [negb]. rewrite IH by (intros c Hc; apply Hfresh; right; exact Hc). reflexivity.
Qed.

Lemma filter_drops_id (l : list LoadedAsset) a :
  filter (fun b => negb (String.eqb (id b) (id a))) (l ++ [a])
  = filter (fun b => negb (String.eqb (id b) (id a))) l.
Proof. rewrite filter_app. cbn [filter]. rewrite String.eqb_refl. cbn [negb]. apply app_nil_r. Qed.

(** X14. [addAsset] appends the asset to the registry; when no asset of
    the registry carries its id, undo gives back the state before the
    addition and redo the state after it. *)
Theorem addAsset_undo_redo a w :
  (forall b, In b (assets (state w)) -> id b <> id a) ->
  assets (state (addAsset a w)) = assets (state w) ++ [a] /\
  state (undo (addAsset a w)) = state w /\
  state (redo (undo (addAsset a w))) = state (addAsset a w).
Proof.
  intros Hfresh. split; [reflexivity |].
  assert (Hback : doRemoveAsset (id a) (doAddAsset a (state w)) = state w).
  { unfold doRemoveAsset, doAddAsset, setAssets. cbn.
    rewrite filter_drops_id, (filter_other_ids _ _ Hfresh). reflexivity. }
  unfold addAsset, push, onState. cbn [state history]. split.
  - rewrite undo_pushed. cbn [state cmd_undo]. exact Hback.
  - rewrite redo_undo_pushed. cbn [state cmd_undo execute]. rewrite Hback. reflexivity.
Qed.

Lemma removed_and_found_permutation (l : list LoadedAsset) (i : string) a :
  NoDup (map id l) -> findAsset l i = Some a ->
  Permutation (filter (fun b => negb (String.eqb (id b) i)) l ++ [a]) l.
Proof.
  unfold findAsset. induction l as [| b l IH]; cbn [find filter map]; intros Hnd Hfound;
    [discriminate |].
  inversion Hnd as [| ? ? Hnot Hrest]; subst.
  destruct (String.eqb_spec (id b) i) as [E | Hne]; cbn [negb].
  - injection Hfound as ->.
    rewrite filter_other_ids.
    + apply Permutation_sym, Permutation_cons_append.
    + intros c Hc Hci. apply Hnot. apply in_map_iff. exists c.
      split; [exact (eq_trans Hci (eq_sym E)) | exact Hc].
  - cbn [app]. apply perm_skip. apply IH; assumption.
Qed.

(** X15. [removeAsset] takes every asset with the id out of the registry;
    undo puts the asset that was found back at the end of the registry,
    not at its old place: with distinct ids the registry after undo is a
    permutation of the one before the removal; the transforms of the
    objects are untouched.
    With no asset of that id the call does nothing and pushes nothing. *)
Theorem removeAsset_undo_moves_to_the_end (i : string) w :
  (forall a, findAsset (assets (state w)) i = Some a ->
     assets (state (removeAsset i w))
       = filter (fun b => negb (String.eqb (id b) i)) (assets (state w)) /\
     assets (state (undo (removeAsset i w))) = assets (state (removeAsset i w)) ++ [a] /\
     (uniqueIds (assets (state w)) ->
      Permutation (assets (state (undo (removeAsset i w)))) (assets (state w))) /\
     objects (state (undo (removeAsset i w))) = objects (state w)) /\
  (findAsset (assets (state w)) i = None -> removeAsset i w = w).
Proof.
  unfold removeAsset. split.
  - intros a Hfound. rewrite Hfound. unfold push, onState. cbn [state history].
    rewrite undo_pushed. cbn [state cmd_undo].
    split; [reflexivity |]. split; [reflexivity |]. split; [| reflexivity].
    intros Hids. cbn [doAddAsset doRemoveAsset setAssets assets].
    apply removed_and_found_permutation; assumption.
  - intros Hnone. rewrite Hnone. reflexivity.
Qed.

(** *** Saved conditions *)

(** X16. With a dynamic asset in the registry, [saveCurrentCondition]
    appends one condition, the capture of the current poses, and moves
    no object; undo gives back the state before and redo the state
    after.  With no dynamic asset it does nothing and pushes nothing. *)
Theorem saveCurrentCondition_appends_the_capture w :
  (filter isDynamic (assets (state w)) <> [] ->
   savedConditions (state (saveCurrentCondition w))
     = savedConditions (state w) ++ [{| poses := capturePoses (state w) |}] /\
   objects (state (saveCurrentCondition w)) = objects (state w) /\
   state (undo (saveCurrentCondition w)) = state w /\
   state (redo (undo (saveCurrentCondition w))) = state (saveCurrentCondition w)) /\
  (filter isDynamic (assets (state w)) = [] -> saveCurrentCondition w = w).
Proof.
  unfold saveCurrentCondition. split.
  - intros Hsome.
    destruct (filter isDynamic (assets (state w))) as [| a dyn] eqn:Hdyn; [contradiction |].
    cbn [List.length Nat.ltb Nat.leb]. rewrite <- Hdyn.
    assert (Hback : forall c, doRemoveLastSavedCondition (doAddSavedCondition c (state w))
                              = state w).
    { intros c. unfold doRemoveLastSavedCondition, doAddSavedCondition, setSavedConditions.
      cbn -[slice]. rewrite slice_init. reflexivity. }
    unfold push, onState. cbn [state history].
    split; [reflexivity |]. split; [reflexivity |]. split.
    + rewrite undo_pushed. cbn [state cmd_undo]. apply Hback.
    + rewrite redo_undo_pushed. cbn [state cmd_undo execute]. rewrite Hback. reflexivity.
  - intros Hnone. rewrite Hnone. reflexivity.
Qed.


(** *** Loading a condition *)

Lemma loadCondition_in_range (i : nat) w c :
  nth_error (savedConditions (state w)) i = Some c ->
  loadCondition (Z.of_nat i) w =
  {| state := applyPoses (poses c) (state w);
     history :=
       pushCommand (history w)
         {| cmd_type := "loadCondition";
            execute := applyPoses (capturePoses (applyPoses (poses c) (state w)));
            cmd_undo := applyPoses (capturePoses (state w)) |} |}.
Proof.
  intros Hc. unfold loadCondition.
  assert (Hi : i < List.length (savedConditions (state w)))
    by (apply nth_error_Some; rewrite Hc; discriminate).
  destruct (Z.ltb_spec (Z.of_nat i) 0) as [Hneg | _]; [lia |].
  destruct (Z.leb_spec (Z.of_nat (List.length (savedConditions (state w)))) (Z.of_nat i))
    as [Hout | _]; [lia |].
  cbn [orb]. rewrite Nat2Z.id, Hc. reflexivity.
Qed.

(** X18. Loading a condition captured from an earlier scene with the
    same registry (ids distinct) gives the object of every dynamic asset
    the position and orientation it had in that scene, keeps its
    geometry and scale, and leaves every other object alone. *)
Theorem loading_a_saved_condition_restores_its_poses (i : nat) w st0 :
  uniqueIds (assets (state w)) ->
  assets st0 = assets (state w) ->
  nth_error (savedConditions (state w)) i = Some {| poses := capturePoses st0 |} ->
  (forall a, In a (assets (state w)) -> isDynamic a = true ->
     objects (state (loadCondition (Z.of_nat i) w)) (object a)
     = posed (objects (state w) (object a)) (poseAt (objects st0) (object a))) /\
  (forall r, ~ In r (map object (filter isDynamic (assets (state w)))) ->
     objects (state (loadCondition (Z.of_nat i) w)) r = objects (state w) r).
Proof.
  intros Hids Hassets Hc. rewrite (loadCondition_in_range i w _ Hc). cbn [state poses].
  assert (Hall : forall r,
            objects (applyPoses (capturePoses st0) (state w)) r =
            if in_dec Nat.eq_dec r (map object (filter isDynamic (assets (state w))))
            then posed (objects (state w) r) (poseAt (objects st0) r)
            else objects (state w) r).
  { intros r. rewrite applyPoses_objects. unfold capturePoses. rewrite Hassets.
    rewrite posesOf_entries by (apply (uniqueIds_filter _ isDynamic Hids)).
    apply (restore_captured (assets (state w)) (objects st0) _ Hids).
    intros a Ha. apply filter_In in Ha. apply Ha. }
  split.
  - intros a Hin Hdyn. rewrite Hall.
    destruct (in_dec Nat.eq_dec (object a) (map object (filter isDynamic (assets (state w)))))
      as [_ | Hnot]; [reflexivity |].
    exfalso. apply Hnot. apply in_map. apply filter_In. split; assumption.
  - intros r Hnot. rewrite Hall.
    destruct (in_dec Nat.eq_dec r (map object (filter isDynamic (assets (state w)))))
      as [Hin | _]; [contradiction | reflexivity].
Qed.

(** X19. Undoing [loadCondition] gives every object back, when the ids
    are distinct and every key of the condition that names an asset
    names a dynamic one (the poses captured for undo are those of the
    dynamic assets). *)
Theorem loadCondition_undo_restores_objects (i : nat) w c :
  uniqueIds (assets (state w)) ->
  nth_error (savedConditions (state w)) i = Some c ->
  (forall k a, In k (mapKeys (poses c)) -> findAsset (assets (state w)) k = Some a ->
     isDynamic a = true) ->
  forall r, objects (state (undo (loadCondition (Z.of_nat i) w))) r = objects (state w) r.
Proof.
  intros Hids Hc Hkeys r. rewrite (loadCondition_in_range i w c Hc).
  rewrite undo_pushed. cbn [state cmd_undo].
  apply restore_capture_of.
  - exact Hids.
  - reflexivity.
  - intros r'. rewrite applyPoses_objects. apply applyPoses_shape.
  - intros r' Hnot. rewrite applyPoses_objects. apply applyPoses_other.
    intros k a Hk Hfound E. apply Hnot. subst r'.
    apply in_map. apply filter_In. split.
    + apply (findAsset_some _ _ _ Hfound).
    + exact (Hkeys k a Hk Hfound).
Qed.

End RegistryFacts.

(** What [acceptRandomization] does at once: it saves the condition
    [saveCurrentCondition] would save, moves nothing, and forgets the
    poses kept for the current randomization. *)
Lemma acceptRandomization_saves_and_clears :
  forall (num Quaternion Geometry : Type) (w : Scene num Quaternion Geometry),
  savedConditions (state (acceptRandomization w))
    = savedConditions (state (saveCurrentCondition w)) /\
  savedPoses (state (acceptRandomization w)) = None /\
  objects (state (acceptRandomization w)) = objects (state w).
Proof.
  intros num Quaternion Geometry w. unfold acceptRandomization, saveCurrentCondition.
  destruct (0 <? List.length (filter isDynamic (assets (state w))))%nat; repeat split.
Qed.

(** ** The panels: editing sessions and the guard of Randomize mode *)

Lemma last_cons (A : Type) (x : A) (l : list A) (d : A) : last (x :: l) d = last l x.
Proof.
  revert x d. induction l as [| y l IH]; intros x d; [reflexivity |].
  change (last (x :: y :: l) d) with (last (y :: l) d). rewrite !IH. reflexivity.
Qed.

Lemma fold_left_pointwise (A B : Type) (f g : A -> B -> A) (l : list B) :
  (forall x y, f x y = g x y) -> forall x, fold_left f l x = fold_left g l x.
Proof.
  intros Hfg. induction l as [| y l IH]; intros x; [reflexivity |].
  cbn [fold_left]. rewrite Hfg. apply IH.
Qed.

Section PanelFacts.

Context {num : Type} {NUM : JSNumber num}.
Context {Quaternion Geometry : Type} {THREE : Three num Quaternion Geometry}.

Implicit Types (st : SceneState num Quaternion Geometry) (w : Scene num Quaternion Geometry).

(** *** InstructionPanel *)

Lemma inputs_run (values : list string) : forall w,
  fold_left (fun w' value => onInput value w') values w =
  {| state := setInstruction (last values (instruction (state w))) (state w);
     history := history w |}.
Proof.
  induction values as [| v values IH]; intros w; [reflexivity |].
  cbn [fold_left]. rewrite IH, last_cons. reflexivity.
Qed.

(** X20. An editing session of the instruction field (focus, any run of
    inputs, blur) leaves the last text typed.  It pushes exactly one
    command when the text differs from the text at focus, whose undo
    gives back the state at focus and whose redo gives the state at
    blur; when the text ends as it began the session leaves the world
    as it was, with no command pushed. *)
Theorem instruction_session_is_one_undo_step (values : list string) w
    (panel : InstructionPanel) :
  instruction (state (fst (editInstruction values w panel)))
    = last values (instruction (state w)) /\
  beforeValueRef (snd (editInstruction values w panel)) = None /\
  (last values (instruction (state w)) = instruction (state w) ->
   fst (editInstruction values w panel) = w) /\
  (last values (instruction (state w)) <> instruction (state w) ->
   history (fst (editInstruction values w panel))
     = pushCommand (history w)
         {| cmd_type := "instruction";
            execute := setInstruction (last values (instruction (state w)));
            cmd_undo := setInstruction (instruction (state w)) |} /\
   state (undo (fst (editInstruction values w panel))) = state w /\
   state (redo (undo (fst (editInstruction values w panel))))
     = state (fst (editInstruction values w panel))).
Proof.
  unfold editInstruction, handleBlur, handleFocus. cbn [beforeValueRef fst snd].
  rewrite inputs_run. cbn [state instruction setInstruction].
  destruct (String.eqb_spec (instruction (state w)) (last values (instruction (state w))))
    as [E | Hne]; cbn [negb].
  - split; [reflexivity |]. split; [reflexivity |]. split.
    + intros _. rewrite <- E. reflexivity.
    + intros Hchanged. exfalso. apply Hchanged. symmetry. exact E.
  - split; [reflexivity |]. split; [reflexivity |]. split.
    + intros Hsame. exfalso. apply Hne. symmetry. exact Hsame.
    + intros _. unfold createInstructionCommand, push. cbn [state history].
      split; [reflexivity |]. split.
      * rewrite undo_pushed. reflexivity.
      * rewrite redo_undo_pushed. reflexivity.
Qed.

(** *** The bounds fields *)

(** What one change leaves: the side typed, and in Randomize mode the
    bounds read back from the proxy rebuilt for it. *)
Lemma handleBoundsChange_state (k : BoundsKey) (v : num) w :
  history (handleBoundsChange k v w) = history w /\
  spawnBounds (state (handleBoundsChange k v w))
    = settledBounds (state w) (withSide (spawnBounds (state w)) k v) /\
  isRandomizeMode (state (handleBoundsChange k v w)) = isRandomizeMode (state w) /\
  match boundsMeshRef (state (handleBoundsChange k v w)) with Some _ => true | None => false end
    = match boundsMeshRef (state w) with Some _ => true | None => false end /\
  (isRandomizeMode (state w) = true -> boundsMeshRef (state w) <> None ->
   boundsMeshRef (state (handleBoundsChange k v w))
     = Some (createBoundsMesh (withSide (spawnBounds (state w)) k v))).
Proof.
  unfold handleBoundsChange, onState, setSpawnBounds, settledBounds. cbn [state history].
  destruct (isRandomizeMode (state w)) eqn:Hmode;
    destruct (boundsMeshRef (state w)) as [mesh |] eqn:Hmesh; cbn [andb];
    cbn [updateBoundsFromMesh setSpawnBoundsState setBoundsMeshRef spawnBounds
         isRandomizeMode boundsMeshRef];
    rewrite ?Hmode, ?Hmesh; repeat split;
    try (intros H; discriminate H); try (intros _ H; contradiction).
Qed.

Lemma settledBounds_same st st' (bounds : SpawnBounds num) :
  isRandomizeMode st' = isRandomizeMode st ->
  match boundsMeshRef st' with Some _ => true | None => false end
    = match boundsMeshRef st with Some _ => true | None => false end ->
  settledBounds st' bounds = settledBounds st bounds.
Proof. unfold settledBounds. intros -> ->. reflexivity. Qed.

(** The bounds after a run of changes. *)
Lemma changes_run (changes : list (BoundsKey * num)) : forall w,
  history (fold_left (fun w' change => handleBoundsChange (fst change) (snd change) w')
                     changes w) = history w /\
  spawnBounds (state (fold_left (fun w' change =>
                                   handleBoundsChange (fst change) (snd change) w')
                                changes w))
  = fold_left (fun b change => settledBounds (state w) (withSide b (fst change) (snd change)))
              changes (spawnBounds (state w)) /\
  isRandomizeMode (state (fold_left (fun w' change =>
                                       handleBoundsChange (fst change) (snd change) w')
                                    changes w)) = isRandomizeMode (state w) /\
  match boundsMeshRef (state (fold_left (fun w' change =>
                                           handleBoundsChange (fst change) (snd change) w')
                                        changes w)) with Some _ => true | None => false end
    = match boundsMeshRef (state w) with Some _ => true | None => false end.
Proof.
  induction changes as [| change changes IH]; intros w; [repeat split |].
  cbn [fold_left].
  destruct (handleBoundsChange_state (fst change) (snd change) w) as (Hh & Hb & Hm & Hp & _).
  destruct (IH (handleBoundsChange (fst change) (snd change) w)) as (Hh' & Hb' & Hm' & Hp').
  rewrite Hh', Hb', Hm', Hp', Hh, Hb, Hm, Hp.
  split; [reflexivity |]. split; [| split; reflexivity].
  apply fold_left_pointwise. intros b c. apply settledBounds_same; assumption.
Qed.

(** In Randomize mode the proxy the session ends with is the one built
    for the bounds of the last change, as typed. *)
Lemma changes_proxy (init : list (BoundsKey * num)) (last : BoundsKey * num) w :
  isRandomizeMode (state w) = true ->
  boundsMeshRef (state w) <> None ->
  boundsMeshRef (state (fold_left (fun w' change =>
                                     handleBoundsChange (fst change) (snd change) w')
                                  (init ++ [last]) w))
  = Some (createBoundsMesh
            (withSide
               (fold_left (fun b change =>
                             settledBounds (state w) (withSide b (fst change) (snd change)))
                          init (spawnBounds (state w)))
               (fst last) (snd last))).
Proof.
  intros Hmode Hproxy. rewrite fold_left_app. cbn [fold_left].
  destruct (changes_run init w) as (_ & Hb & Hm & Hp).
  destruct (handleBoundsChange_state (fst last) (snd last)
              (fold_left (fun w' change => handleBoundsChange (fst change) (snd change) w')
                         init w)) as (_ & _ & _ & _ & Hmesh).
  rewrite Hmesh, Hb; [reflexivity | rewrite Hm; exact Hmode |].
  intros Hnone. rewrite Hnone in Hp.
  destruct (boundsMeshRef (state w)); [discriminate Hp | apply Hproxy; reflexivity].
Qed.

(** X21. An editing session of the bounds fields (focus, any run of
    changes, blur).  Each change sets the side typed; in Randomize mode,
    where the proxy is rebuilt and attached at every change, the bounds
    the state is left with are the ones read back from the new proxy,
    which in binary64 need not be the ones typed.  The session pushes no
    command when the bounds it ends with are strictly equal to those at
    focus, and exactly one otherwise: its undo restores the bounds at
    focus and its redo the bounds at blur.  Undo does not touch the
    proxy: it stays the one built for the last change. *)
Theorem bounds_session_is_one_undo_step (changes : list (BoundsKey * num)) w :
  let step := fun b (change : BoundsKey * num) =>
                settledBounds (state w) (withSide b (fst change) (snd change)) in
  let final := fold_left step changes (spawnBounds (state w)) in
  let w' := fst (editBounds changes w {| beforeBoundsRef := None |}) in
  spawnBounds (state w') = final /\
  beforeBoundsRef (snd (editBounds changes w {| beforeBoundsRef := None |})) = None /\
  (boundsEqual (spawnBounds (state w)) final = true -> history w' = history w) /\
  (boundsEqual (spawnBounds (state w)) final = false ->
   history w' = pushCommand (history w)
                  {| cmd_type := "spawnBounds";
                     execute := setSpawnBoundsState final;
                     cmd_undo := setSpawnBoundsState (spawnBounds (state w)) |} /\
   spawnBounds (state (undo w')) = spawnBounds (state w) /\
   spawnBounds (state (redo (undo w'))) = final /\
   boundsMeshRef (state (undo w')) = boundsMeshRef (state w')) /\
  (forall init last, changes = init ++ [last] ->
   isRandomizeMode (state w) = true -> boundsMeshRef (state w) <> None ->
   boundsMeshRef (state w')
     = Some (createBoundsMesh
               (withSide (fold_left step init (spawnBounds (state w))) (fst last) (snd last)))).
Proof.
  cbn zeta. unfold editBounds, handleBoundsBlur, handleBoundsFocus.
  cbn [beforeBoundsRef fst snd].
  destruct (changes_run changes w) as (Hh & Hb & _).
  rewrite Hb.
  destruct (boundsEqual (spawnBounds (state w))
              (fold_left (fun b change =>
                            settledBounds (state w) (withSide b (fst change) (snd change)))
                         changes (spawnBounds (state w)))) eqn:Heq; cbn [negb].
  - split; [exact Hb |]. split; [reflexivity |]. split; [intros _; exact Hh |].
    split; [intros Hno; discriminate Hno |].
    intros init last -> Hmode Hproxy. apply changes_proxy; assumption.
  - unfold createSpawnBoundsCommand, push. cbn [state history].
    split; [exact Hb |]. split; [reflexivity |]. split; [intros Hyes; discriminate Hyes |].
    split.
    + intros _. rewrite Hh. split; [reflexivity |].
      rewrite redo_undo_pushed, undo_pushed. cbn [state cmd_undo execute]. repeat split.
    + intros init last -> Hmode Hproxy. apply changes_proxy; assumption.
Qed.

End PanelFacts.

(** *** RandomizationPanel: counts and hint *)

Lemma filter_split_length (A : Type) (f : A -> bool) (l : list A) :
  List.length (filter f l) + List.length (filter (fun x => negb (f x)) l) = List.length l.
Proof.
  induction l as [| x l IH]; [reflexivity |]. cbn [filter].
  destruct (f x); cbn [negb List.length]; lia.
Qed.

(** X22. The panel counts every exportable asset as dynamic or as
    static and never as both.  Its hint is empty exactly when there is
    a dynamic and a static asset; then, and only then, the button enters
    Randomize mode, and otherwise the scene is unchanged and the hint
    shown is not empty.  Entering builds the proxy for the current
    bounds and attaches the gizmo to it, which replaces the bounds by
    the ones read back from the proxy (in binary64 these need not be
    the bounds before); the registry, the objects, the saved conditions
    and the instruction are as before. *)
Theorem randomize_mode_is_entered_or_a_hint_is_shown :
  forall (num Quaternion Geometry : Type) (NUM : JSNumber num)
         (st : SceneState num Quaternion Geometry),
  List.length (dynamicAssets (assets st)) + List.length (staticAssets (assets st))
    = List.length (exportableAssets (assets st)) /\
  (getHint (assets st) = EmptyString <-> canRandomize (assets st) = true) /\
  (canRandomize (assets st) = true ->
   snd (handleEnterRandomize st) = None /\
   isRandomizeMode (fst (handleEnterRandomize st)) = true /\
   boundsMeshRef (fst (handleEnterRandomize st)) = Some (createBoundsMesh (spawnBounds st)) /\
   spawnBounds (fst (handleEnterRandomize st))
     = boundsFromMesh (createBoundsMesh (spawnBounds st)) /\
   assets (fst (handleEnterRandomize st)) = assets st /\
   objects (fst (handleEnterRandomize st)) = objects st /\
   savedPoses (fst (handleEnterRandomize st)) = savedPoses st /\
   savedConditions (fst (handleEnterRandomize st)) = savedConditions st /\
   instruction (fst (handleEnterRandomize st)) = instruction st) /\
  (canRandomize (assets st) = false ->
   handleEnterRandomize st = (st, Some (getHint (assets st))) /\
   getHint (assets st) <> EmptyString).
Proof.
  intros num Quaternion Geometry NUM st. split; [| split; [| split]].
  - unfold dynamicAssets, staticAssets.
    rewrite Nat.add_comm.
    exact (filter_split_length LoadedAsset (fun a => disableGravity a)
             (exportableAssets (assets st))).
  - unfold getHint, canRandomize.
    destruct (hasDynamicAssets (assets st)), (hasStaticAssets (assets st)); cbn;
      split; intros H; try reflexivity; discriminate H.
  - intros Hyes. unfold handleEnterRandomize. rewrite Hyes. cbn [negb fst snd].
    unfold enterRandomizeMode, updateBoundsFromMesh. cbn. repeat split.
  - apply handleEnterRandomize_refused.
Qed.

(** ** SelectionManager: what the events keep *)

Section SelectionInvariant.

Context {num : Type} {NUM : JSNumber num} {GRAPH : SceneGraph num}.
Context {Quaternion Geometry : Type} {EULER : EulerView num Quaternion}.

Implicit Types (m : SelectionManager num) (d : DragManager num).

Lemma follows_select (asset : option LoadedAsset) m : follows (select asset m).
Proof. unfold follows, select. destruct asset; cbn; auto. Qed.

Lemma follows_selectBounds m : follows m -> follows (selectBounds m).
Proof.
  intros H. unfold selectBounds.
  destruct (negb (sm_isRandomizeMode m)
            || match boundsMesh m with Some _ => false | None => true end); [exact H |].
  unfold follows. cbn. auto.
Qed.

Lemma follows_frame m m' :
  selectedAsset m' = selectedAsset m -> highlightBox m' = highlightBox m ->
  tc_object m' = tc_object m -> follows m -> follows m'.
Proof. unfold follows. intros -> -> ->. trivial. Qed.

Lemma follows_onClick (event : MouseEvent num) m : follows m -> follows (onClick event m).
Proof.
  intros H. unfold onClick.
  destruct (tc_dragging m); [exact H |].
  destruct (wasDragging m); [exact H |].
  destruct (movedTooFar event m); [exact H |].
  destruct (intersectObjects _ _) as [| hitObject rest].
  - destruct (sm_isRandomizeMode (setMouseDownPos None m));
      [apply follows_selectBounds; exact H | apply follows_select].
  - destruct (ownerOf _ hitObject); [apply follows_select | exact H].
Qed.

Lemma follows_onKeyDown (event : KeyboardEvent) m : follows m -> follows (onKeyDown event m).
Proof.
  intros H. unfold onKeyDown.
  destruct (target event); [exact H | |];
    repeat match goal with |- context [if ?b then _ else _] => destruct b end;
    first [exact H | apply follows_select].
Qed.

Lemma onDraggingChanged_frame (value : bool) (s : Store num Quaternion Geometry) d :
  selectedAsset (manager (fst (onDraggingChanged value s d))) = selectedAsset (manager d) /\
  highlightBox (manager (fst (onDraggingChanged value s d))) = highlightBox (manager d) /\
  tc_object (manager (fst (onDraggingChanged value s d))) = tc_object (manager d) /\
  tc_dragging (manager (fst (onDraggingChanged value s d))) = value /\
  orbitEnabled (fst (onDraggingChanged value s d)) = negb value /\
  wasDragging (manager (fst (onDraggingChanged value s d)))
    = (if value then true else wasDragging (manager d)).
Proof.
  unfold onDraggingChanged.
  destruct (selectedAsset (manager d)) as [a |] eqn:Hsel;
    [destruct (negb (sm_isRandomizeMode (manager d)) || negb (isBoundsSelected (manager d)));
     [destruct value;
      [| destruct (dragStartTransform d); [destruct (hasOnTransformDragEnd d) |]] |] |];
    cbn [fst manager selectedAsset highlightBox tc_object tc_dragging orbitEnabled wasDragging];
    rewrite ?Hsel; repeat split.
Qed.

Lemma follows_handleEvent d (ev : ManagerEvent num Quaternion Geometry) :
  follows (manager d) -> follows (manager (handleEvent d ev)).
Proof.
  intros H. destruct ev as [e | e | e | value s | l | asset | | mode | mode];
    cbn [handleEvent onManager manager].
  - exact H.
  - apply follows_onClick. exact H.
  - apply follows_onKeyDown. exact H.
  - destruct (onDraggingChanged_frame value s d) as (Hs & Hh & Ht & _).
    exact (follows_frame _ _ Hs Hh Ht H).
  - exact H.
  - apply follows_select.
  - apply follows_selectBounds. exact H.
  - exact H.
  - unfold setBoundsTransformMode. destruct (sm_isRandomizeMode (manager d)); exact H.
Qed.

(** X23. Through any sequence of mouse-downs, clicks, key presses, gizmo
    drags and calls of [setAssets], [select], [selectBounds], [setMode]
    and [setBoundsTransformMode], the gizmo and the outline follow the
    selection: while an asset is selected both are on its object, and
    with no asset selected there is no outline and the gizmo is detached
    or on the bounds proxy. *)
Theorem gizmo_and_outline_follow_the_selection d
    (evs : list (ManagerEvent num Quaternion Geometry)) :
  follows (manager d) -> follows (manager (runEvents d evs)).
Proof.
  unfold runEvents. revert d. induction evs as [| ev evs IH]; intros d H; [exact H |].
  cbn [fold_left]. apply IH. apply follows_handleEvent. exact H.
Qed.

(** [detachBoundsMesh] is not among these events: called with an asset
    selected it detaches the gizmo and leaves the asset selected and
    outlined. *)
Lemma detachBoundsMesh_leaves_a_selected_asset_without_gizmo m :
  follows m ->
  (follows (detachBoundsMesh m) <-> selectedAsset m = None) /\
  selectedAsset (detachBoundsMesh m) = selectedAsset m /\
  highlightBox (detachBoundsMesh m) = highlightBox m /\
  tc_object (detachBoundsMesh m) = None.
Proof.
  unfold follows, detachBoundsMesh. cbn.
  destruct (selectedAsset m) as [a |]; intros H.
  - split; [| repeat split]. split; [intros [Hattached _]; discriminate Hattached |].
    intros Hnone. discriminate Hnone.
  - split; [| repeat split]. split; [reflexivity |]. intros _. split; [apply H | left; reflexivity].
Qed.


(** *** Dragging the gizmo *)

(** The start of a drag on a selected asset. *)
Lemma drag_start (s0 : Store num Quaternion Geometry) d a :
  selectedAsset (manager d) = Some a ->
  negb (sm_isRandomizeMode (manager d)) || negb (isBoundsSelected (manager d)) = true ->
  onDraggingChanged true s0 d =
  ({| manager :=
        {| sm_assets := sm_assets (manager d);
           selectedAsset := selectedAsset (manager d);
           highlightBox := highlightBox (manager d);
           sm_isRandomizeMode := sm_isRandomizeMode (manager d);
           boundsMesh := boundsMesh (manager d);
           isBoundsSelected := isBoundsSelected (manager d);
           wasDragging := true;
           mouseDownPos := mouseDownPos (manager d);
           tc_mode := tc_mode (manager d); tc_object := tc_object (manager d);
           tc_dragging := true;
           hasOnSelectionChange := hasOnSelectionChange (manager d);
           selectionChanges := selectionChanges (manager d) |};
      dragStartTransform := Some (snapshot (s0 (object a)));
      orbitEnabled := false;
      hasOnTransformDragEnd := hasOnTransformDragEnd d |}, None).
Proof. intros Hsel Hg. unfold onDraggingChanged. rewrite Hsel, Hg. reflexivity. Qed.

(** X25. A drag of the gizmo on a selected asset reports once, when it
    ends: the event carries the asset's id, the transform captured when
    the drag began and the one at its end, whether or not a mouse-down
    reaches the manager while the drag is on.  Orbiting is off during
    the drag and on after it.  The mark set when the drag begins does
    not outlive such a mouse-down: after drag start, mouse-down and drag
    end the manager is what the mouse-down alone would have left, so the
    click that follows is handled as any other click. *)
Theorem drag_reports_before_and_after (s0 s1 : Store num Quaternion Geometry) d a :
  selectedAsset (manager d) = Some a ->
  sm_isRandomizeMode (manager d) = false \/ isBoundsSelected (manager d) = false ->
  hasOnTransformDragEnd d = true ->
  let started := fst (onDraggingChanged true s0 d) in
  let report := Some {| assetId := id a;
                        before := snapshot (s0 (object a));
                        after := snapshot (s1 (object a)) |} in
  snd (onDraggingChanged true s0 d) = None /\
  wasDragging (manager started) = true /\
  orbitEnabled started = false /\
  snd (onDraggingChanged false s1 started) = report /\
  dragStartTransform (fst (onDraggingChanged false s1 started)) = None /\
  orbitEnabled (fst (onDraggingChanged false s1 started)) = true /\
  (forall down : MouseEvent num,
     snd (onDraggingChanged false s1 (onManager (onMouseDown down) started)) = report /\
     dragStartTransform (fst (onDraggingChanged false s1 (onManager (onMouseDown down) started)))
       = None /\
     wasDragging
       (manager (fst (onDraggingChanged false s1 (onManager (onMouseDown down) started))))
       = false /\
     (tc_dragging (manager d) = false ->
      manager (fst (onDraggingChanged false s1 (onManager (onMouseDown down) started)))
        = onMouseDown down (manager d) /\
      forall event,
        onClick event
          (manager (fst (onDraggingChanged false s1 (onManager (onMouseDown down) started))))
        = onClick event (onMouseDown down (manager d)))).
Proof.
  intros Hsel Hguard Hcallback. cbn zeta.
  assert (Hg : negb (sm_isRandomizeMode (manager d)) || negb (isBoundsSelected (manager d))
               = true)
    by (destruct Hguard as [-> | ->]; cbn; [reflexivity | apply orb_true_r]).
  rewrite (drag_start s0 d a Hsel Hg). cbn [fst snd manager wasDragging orbitEnabled].
  split; [reflexivity |]. split; [reflexivity |]. split; [reflexivity |].
  assert (Hend : forall m',
            selectedAsset m' = Some a ->
            sm_isRandomizeMode m' = sm_isRandomizeMode (manager d) ->
            isBoundsSelected m' = isBoundsSelected (manager d) ->
            forall d',
              manager d' = m' ->
              dragStartTransform d' = Some (snapshot (s0 (object a))) ->
              hasOnTransformDragEnd d' = true ->
              snd (onDraggingChanged false s1 d')
                = Some {| assetId := id a;
                          before := snapshot (s0 (object a));
                          after := snapshot (s1 (object a)) |} /\
              dragStartTransform (fst (onDraggingChanged false s1 d')) = None /\
              orbitEnabled (fst (onDraggingChanged false s1 d')) = true /\
              wasDragging (manager (fst (onDraggingChanged false s1 d'))) = wasDragging m' /\
              manager (fst (onDraggingChanged false s1 d'))
                = {| sm_assets := sm_assets m'; selectedAsset := selectedAsset m';
                     highlightBox := highlightBox m';
                     sm_isRandomizeMode := sm_isRandomizeMode m';
                     boundsMesh := boundsMesh m';
                     isBoundsSelected := isBoundsSelected m';
                     wasDragging := wasDragging m';
                     mouseDownPos := mouseDownPos m'; tc_mode := tc_mode m';
                     tc_object := tc_object m'; tc_dragging := false;
                     hasOnSelectionChange := hasOnSelectionChange m';
                     selectionChanges := selectionChanges m' |}).
  { intros m' Hsel' Hmode' Hbounds' d' Hm Hstarted Hcb.
    unfold onDraggingChanged. rewrite Hm, Hsel', Hmode', Hbounds', Hg, Hstarted, Hcb.
    cbn [fst snd dragStartTransform orbitEnabled manager wasDragging negb]. repeat split. }
  match goal with |- snd (onDraggingChanged false s1 ?d') = _ /\ _ =>
    destruct (Hend (manager d') Hsel eq_refl eq_refl d' eq_refl eq_refl Hcallback)
      as (Hreport0 & Hcleared0 & Horbit0 & _)
  end.
  split; [exact Hreport0 |]. split; [exact Hcleared0 |]. split; [exact Horbit0 |].
  intros down. {
    match goal with |- snd (onDraggingChanged false s1 ?d') = _ /\ _ =>
      destruct (Hend (manager d') Hsel eq_refl eq_refl d' eq_refl eq_refl Hcallback)
        as (Hreport & Hcleared & _ & Hmark & Hmanager)
    end.
    split; [exact Hreport |]. split; [exact Hcleared |]. split; [exact Hmark |].
    intros Hidle.
    assert (Hsame : manager (fst (onDraggingChanged false s1
                       (onManager (onMouseDown down)
                          {| manager :=
                               {| sm_assets := sm_assets (manager d);
                                  selectedAsset := selectedAsset (manager d);
                                  highlightBox := highlightBox (manager d);
                                  sm_isRandomizeMode := sm_isRandomizeMode (manager d);
                                  boundsMesh := boundsMesh (manager d);
                                  isBoundsSelected := isBoundsSelected (manager d);
                                  wasDragging := true;
                                  mouseDownPos := mouseDownPos (manager d);
                                  tc_mode := tc_mode (manager d);
                                  tc_object := tc_object (manager d);
                                  tc_dragging := true;
                                  hasOnSelectionChange := hasOnSelectionChange (manager d);
                                  selectionChanges := selectionChanges (manager d) |};
                             dragStartTransform := Some (snapshot (s0 (object a)));
                             orbitEnabled := false;
                             hasOnTransformDragEnd := hasOnTransformDragEnd d |})))
                    = onMouseDown down (manager d)).
    { rewrite Hmanager. unfold onMouseDown, setWasDragging, setMouseDownPos, onManager.
      cbn [manager sm_assets selectedAsset highlightBox sm_isRandomizeMode boundsMesh
           isBoundsSelected wasDragging mouseDownPos tc_mode tc_object tc_dragging
           hasOnSelectionChange selectionChanges].
      rewrite Hidle. reflexivity. }
    split; [exact Hsame |]. intros event. rewrite Hsame. reflexivity. }
Qed.

End SelectionInvariant.

(** *** The command of a drag *)

Section DragCommand.

Context {num : Type} {NUM : JSNumber num}.
Context {Quaternion Geometry : Type} {THREE : Three num Quaternion Geometry}.
Context {EULER : EulerView num Quaternion}.

Lemma applyTransform_found (i : string) (p r sc : Vec3 num)
    (st : SceneState num Quaternion Geometry) a :
  findAsset (assets st) i = Some a ->
  position (objects (applyTransform i p r sc st) (object a)) = p /\
  scale (objects (applyTransform i p r sc st) (object a)) = sc /\
  geometry (objects (applyTransform i p r sc st) (object a))
    = geometry (objects st (object a)) /\
  (forall r', r' <> object a -> objects (applyTransform i p r sc st) r' = objects st r') /\
  assets (applyTransform i p r sc st) = assets st.
Proof.
  intros Hfound. unfold applyTransform. rewrite Hfound.
  cbn [objects setObjects assets].
  unfold setScale, setQuaternion, setPosition.
  rewrite !upd_same. cbn [position scale geometry].
  repeat split. intros r' Hne. rewrite !upd_other by exact Hne. reflexivity.
Qed.

(** X26. Undoing the command of a drag gives the dragged object exactly
    the position and the scale it had when the drag began and leaves
    every other object alone; redo gives it the position and scale it
    had when the drag ended.  (The rotation goes through degrees and
    Euler angles; nothing is stated about it.) *)
Theorem undo_of_a_drag_restores_position_and_scale
    (s0 : Store num Quaternion Geometry) (w : Scene num Quaternion Geometry) a :
  uniqueIds (assets (state w)) -> In a (assets (state w)) ->
  let event := {| assetId := id a;
                  before := snapshot (s0 (object a));
                  after := snapshot (objects (state w) (object a)) |} in
  position (objects (state (undo (handleTransformDragEnd event w))) (object a))
    = position (s0 (object a)) /\
  scale (objects (state (undo (handleTransformDragEnd event w))) (object a))
    = scale (s0 (object a)) /\
  (forall r, r <> object a ->
     objects (state (undo (handleTransformDragEnd event w))) r = objects (state w) r) /\
  position (objects (state (redo (undo (handleTransformDragEnd event w)))) (object a))
    = position (objects (state w) (object a)) /\
  scale (objects (state (redo (undo (handleTransformDragEnd event w)))) (object a))
    = scale (objects (state w) (object a)).
Proof.
  intros Hids Hin. cbn zeta.
  pose proof (findAsset_unique _ a Hids Hin) as Hfound.
  unfold handleTransformDragEnd, createTransformCommand, push. cbn [assetId before after].
  rewrite redo_undo_pushed, undo_pushed. cbn [state cmd_undo execute].
  set (back := applyTransform (id a) _ _ _ (state w)).
  destruct (applyTransform_found (id a)
              (t_position (snapshot (s0 (object a))))
              (t_rotation (snapshot (s0 (object a))))
              (t_scale (snapshot (s0 (object a)))) (state w) a Hfound)
    as (Hp & Hs & _ & Ho & Ha).
  fold back in Hp, Hs, Ho, Ha.
  assert (Hfound' : findAsset (assets back) (id a) = Some a) by (rewrite Ha; exact Hfound).
  destruct (applyTransform_found (id a)
              (t_position (snapshot (objects (state w) (object a))))
              (t_rotation (snapshot (objects (state w) (object a))))
              (t_scale (snapshot (objects (state w) (object a)))) back a Hfound')
    as (Hp' & Hs' & _).
  split; [exact Hp |]. split; [exact Hs |]. split; [exact Ho |].
  split; [exact Hp' | exact Hs'].
Qed.

End DragCommand.

(** ** Clicks, shortcuts and the proxy in exact arithmetic *)

Section ExactSelection.

Context {GRAPH : SceneGraph R}.

Local Open Scope R_scope.

Lemma sqrt_gt_5 (x : R) : 25 < x -> 5 < R_sqrt.sqrt x.
Proof.
  intros H. replace 5 with (R_sqrt.sqrt 25).
  - apply R_sqrt.sqrt_lt_1; lra.
  - replace 25 with (5 * 5) by lra. apply R_sqrt.sqrt_square. lra.
Qed.

Lemma sqrt_le_5 (x : R) : x <= 25 -> R_sqrt.sqrt x <= 5.
Proof.
  intros H. destruct (Rle_or_lt 0 x) as [Hpos | Hneg].
  - replace 5 with (R_sqrt.sqrt 25).
    + apply R_sqrt.sqrt_le_1; lra.
    + replace 25 with (5 * 5) by lra. apply R_sqrt.sqrt_square. lra.
  - rewrite R_sqrt.sqrt_neg_0 by lra. lra.
Qed.

(** X27. In exact arithmetic, a click more than 5 pixels (Euclidean
    distance) away from the mouse-down before it is taken for a drag: it
    changes nothing but forgets the mouse-down.  At 5 pixels or less
    the click is not taken for a drag. *)
Theorem click_five_pixels_from_mouse_down_is_a_drag
    (down event : MouseEvent R) (m : SelectionManager R) :
  tc_dragging m = false ->
  ((clientX event - clientX down) * (clientX event - clientX down)
   + (clientY event - clientY down) * (clientY event - clientY down) > 25 ->
   onClick event (onMouseDown down m) = setWasDragging false (setMouseDownPos None m)) /\
  ((clientX event - clientX down) * (clientX event - clientX down)
   + (clientY event - clientY down) * (clientY event - clientY down) <= 25 ->
   movedTooFar event (onMouseDown down m) = false).
Proof.
  intros Hdrag. split; intros Hfar.
  - unfold onClick, onMouseDown.
    change (tc_dragging (setWasDragging false (setMouseDownPos _ m))) with (tc_dragging m).
    rewrite Hdrag. cbn [wasDragging setWasDragging].
    unfold movedTooFar. cbn [mouseDownPos setWasDragging setMouseDownPos].
    match goal with |- context [if ?b then _ else _] =>
      replace b with true end; [reflexivity |].
    symmetry. apply Rltb_true. apply sqrt_gt_5. exact Hfar.
  - unfold movedTooFar, onMouseDown. cbn [mouseDownPos setWasDragging setMouseDownPos].
    apply Rltb_false. apply sqrt_le_5. exact Hfar.
Qed.

(** X28. In exact arithmetic, moving the proxy by (dx, dz) moves the
    bounds read off it by dx along X and by -dz along Y and keeps their
    size; setting its scale multiplies the width by the X scale and the
    depth by the Z scale about the same centre. *)
Theorem proxy_drag_moves_the_bounds (b : SpawnBounds R) (dx dz sx sz : R) :
  boundsFromMesh (translateMesh (createBoundsMesh b) dx dz)
    = {| minX := minX b + dx; maxX := maxX b + dx;
         minY := minY b - dz; maxY := maxY b - dz |} /\
  maxX (boundsFromMesh (rescaleMesh (createBoundsMesh b) sx sz))
  - minX (boundsFromMesh (rescaleMesh (createBoundsMesh b) sx sz))
    = (maxX b - minX b) * sx /\
  maxY (boundsFromMesh (rescaleMesh (createBoundsMesh b) sx sz))
  - minY (boundsFromMesh (rescaleMesh (createBoundsMesh b) sx sz))
    = (maxY b - minY b) * sz /\
  minX (boundsFromMesh (rescaleMesh (createBoundsMesh b) sx sz))
  + maxX (boundsFromMesh (rescaleMesh (createBoundsMesh b) sx sz))
    = minX b + maxX b /\
  minY (boundsFromMesh (rescaleMesh (createBoundsMesh b) sx sz))
  + maxY (boundsFromMesh (rescaleMesh (createBoundsMesh b) sx sz))
    = minY b + maxY b.
Proof.
  destruct b as [x0 x1 y0 y1].
  unfold boundsFromMesh, translateMesh, rescaleMesh, createBoundsMesh.
  cbn [mesh_geometry mesh_position mesh_scale width height vx vy vz minX maxX minY maxY].
  change (ofZ 2) with 2. change (ofZ 1) with 1.
  cbv [add sub mul div neg real_number].
  split; [f_equal; lra |]. repeat split; lra.
Qed.

End ExactSelection.

(** *** App: the shortcuts *)

(** X29. App's key handler compares the key with the lower-case letters
    and nothing else.  Outside text fields, Ctrl+Z (or Cmd+Z) without
    Shift undoes the edit just pushed and Ctrl+Y after it redoes it: the
    state is the command's [execute] after its [undo] and the history is
    the one the push left.  With an input or a textarea as target both
    key presses leave state and history untouched.  An event whose key
    is the capital letter, which is what a keyboard reports while Shift
    is held, does nothing, whatever the modifiers and the target: the
    branch that redoes on Shift is taken only by an event whose key is
    the lower-case letter. *)
Theorem shortcuts_undo_and_redo_outside_text_fields (State : Type)
    (e1 e2 : KeyChord) (s : State) (h : History State) (c : Command State) :
  (ctrlKey e1 || metaKey e1 = true) -> key (chord_event e1) = "z"%string -> shiftKey e1 = false ->
  (ctrlKey e2 || metaKey e2 = true) -> key (chord_event e2) = "y"%string ->
  (appIgnoresKey (chord_event e1) = false -> appIgnoresKey (chord_event e2) = false ->
   handleKeyDown e1 {| state := s; history := pushCommand h c |}
     = undo {| state := s; history := pushCommand h c |} /\
   handleKeyDown e2 (handleKeyDown e1 {| state := s; history := pushCommand h c |})
     = {| state := execute c (cmd_undo c s); history := pushCommand h c |}) /\
  (appIgnoresKey (chord_event e1) = true -> appIgnoresKey (chord_event e2) = true ->
   handleKeyDown e2 (handleKeyDown e1 {| state := s; history := pushCommand h c |})
     = {| state := s; history := pushCommand h c |}) /\
  (forall (e : KeyChord) (w : World State),
     key (chord_event e) = "Z"%string -> handleKeyDown e w = w) /\
  (forall (e : KeyChord) (w : World State),
     key (chord_event e) <> "z"%string -> key (chord_event e) <> "y"%string ->
     handleKeyDown e w = w) /\
  (forall (e : KeyChord) (w : World State),
     appIgnoresKey (chord_event e) = false -> ctrlKey e || metaKey e = true ->
     key (chord_event e) = "z"%string -> shiftKey e = true ->
     handleKeyDown e w = redo w).
Proof.
  intros Hmod1 Hz Hshift Hmod2 Hy.
  assert (Hother : forall (e : KeyChord) (w : World State),
            key (chord_event e) <> "z"%string -> key (chord_event e) <> "y"%string ->
            handleKeyDown e w = w).
  { intros e w Hnz Hny. unfold handleKeyDown.
    apply String.eqb_neq in Hnz. apply String.eqb_neq in Hny.
    rewrite Hnz, Hny, !andb_false_r.
    destruct (appIgnoresKey (chord_event e)); reflexivity. }
  split; [| split; [| split; [| split]]].
  - intros Hpage1 Hpage2.
    assert (Hfirst : handleKeyDown e1 {| state := s; history := pushCommand h c |}
                     = undo {| state := s; history := pushCommand h c |}).
    { unfold handleKeyDown. rewrite Hpage1, Hmod1, Hz, Hshift. reflexivity. }
    split; [exact Hfirst |]. rewrite Hfirst, <- redo_undo_pushed.
    unfold handleKeyDown. rewrite Hpage2, Hmod2, Hy. reflexivity.
  - intros Hfield1 Hfield2. unfold handleKeyDown. rewrite Hfield1, Hfield2. reflexivity.
  - intros e w Hcapital. apply Hother; rewrite Hcapital; discriminate.
  - exact Hother.
  - intros e w Hpage Hmod Hkey Hheld. unfold handleKeyDown.
    rewrite Hpage, Hmod, Hkey, Hheld. reflexivity.
Qed.

(** ** PropertyPanel: an editing session *)

Section PropertyPanelFacts.

Context {num : Type} {NUM : JSNumber num}.
Context {Quaternion Geometry : Type} {THREE : Three num Quaternion Geometry}.

Implicit Types (w : Scene num Quaternion Geometry) (panel : PropertyPanel num).
Implicit Types (a : LoadedAsset) (change : PropertyChange num).

(** A change writes what the panel then shows to the object of the
    selected asset, and touches nothing else. *)
Lemma handleChange_writes_through a w panel change :
  findAsset (assets (state w)) (id a) = Some a ->
  position (objects (state (fst (handleChange (Some a) (w, panel) change))) (object a))
    = shownPosition (snd (handleChange (Some a) (w, panel) change)) /\
  scale (objects (state (fst (handleChange (Some a) (w, panel) change))) (object a))
    = shownScale (snd (handleChange (Some a) (w, panel) change)) /\
  (forall r, r <> object a ->
     objects (state (fst (handleChange (Some a) (w, panel) change))) r = objects (state w) r) /\
  assets (state (fst (handleChange (Some a) (w, panel) change))) = assets (state w) /\
  history (fst (handleChange (Some a) (w, panel) change)) = history w /\
  beforeTransformRef (snd (handleChange (Some a) (w, panel) change))
    = beforeTransformRef panel.
Proof.
  intros Hfound.
  destruct change as [axis v | axis v | axis v];
    cbn [handleChange handlePositionChange handleRotationChange handleScaleChange
         fst snd onState state history shownPosition shownScale beforeTransformRef];
    match goal with |- context [updateAssetTransform ?i ?p ?r ?s ?st] =>
      change (updateAssetTransform i p r s st) with (applyTransform i p r s st);
      destruct (applyTransform_found i p r s st a Hfound) as (Hp & Hs & _ & Ho & Ha)
    end;
    repeat split; assumption.
Qed.

Lemma changes_write_through a (changes : list (PropertyChange num)) : forall w panel,
  findAsset (assets (state w)) (id a) = Some a ->
  (changes <> [] ->
   position (objects (state (fst (fold_left (handleChange (Some a)) changes (w, panel))))
               (object a))
     = shownPosition (snd (fold_left (handleChange (Some a)) changes (w, panel))) /\
   scale (objects (state (fst (fold_left (handleChange (Some a)) changes (w, panel))))
            (object a))
     = shownScale (snd (fold_left (handleChange (Some a)) changes (w, panel)))) /\
  (forall r, r <> object a ->
     objects (state (fst (fold_left (handleChange (Some a)) changes (w, panel)))) r
     = objects (state w) r) /\
  assets (state (fst (fold_left (handleChange (Some a)) changes (w, panel)))) = assets (state w) /\
  history (fst (fold_left (handleChange (Some a)) changes (w, panel))) = history w /\
  beforeTransformRef (snd (fold_left (handleChange (Some a)) changes (w, panel)))
    = beforeTransformRef panel.
Proof.
  induction changes as [| change changes IH] using rev_ind; intros w panel Hfound.
  - cbn [fold_left fst snd]. split; [intros H; contradiction |]. repeat split.
  - rewrite fold_left_app. cbn [fold_left].
    destruct (IH w panel Hfound) as (_ & Ho & Ha & Hh & Hb).
    destruct (fold_left (handleChange (Some a)) changes (w, panel)) as [w1 p1].
    cbn [fst snd] in Ho, Ha, Hh, Hb.
    assert (Hfound1 : findAsset (assets (state w1)) (id a) = Some a)
      by (rewrite Ha; exact Hfound).
    destruct (handleChange_writes_through a w1 p1 change Hfound1)
      as (Hp' & Hs' & Ho' & Ha' & Hh' & Hb').
    split; [intros _; split; assumption |].
    split; [intros r Hr; rewrite (Ho' r Hr); apply Ho; exact Hr |].
    split; [rewrite Ha'; exact Ha |].
    split; [rewrite Hh'; exact Hh | rewrite Hb'; exact Hb].
Qed.


End PropertyPanelFacts.

(** ** The proxy in binary64, once more *)

(** Rounding can do more than disturb the last digit of a side read
    back from the proxy: for bounds from -2^60 to 1 the centre and the
    half size both round to 2^59 in magnitude, and the side 1 comes back
    as 0. *)
Lemma binary64_proxy_loses_a_side :
  PrimFloat.eqb (maxX wideBounds) 1 = true /\
  PrimFloat.eqb (maxX (boundsFromMesh (createBoundsMesh wideBounds))) 0 = true.
Proof. vm_compute. split; reflexivity. Qed.

(** ** The further properties on concrete scenes *)

Lemma exactScene_uniqueIds : uniqueIds (assets (state exactScene)).
Proof.
  unfold uniqueIds. cbn. constructor; [intros [H | []]; discriminate H |].
  constructor; [intros [] | constructor].
Qed.

Lemma exactScene_dynamic : filter isDynamic (assets (state exactScene)) <> [].
Proof. cbn. discriminate. Qed.

(** An edit, an undo, a redo and an undo from the empty history. *)
Lemma history_stays_within_capacity_witness :
  List.length (undoStack (history (runOps floatScene
     [OpPush (fst sampleEdit) (snd sampleEdit); OpUndo; OpRedo; OpUndo])))
  + List.length (redoStack (history (runOps floatScene
     [OpPush (fst sampleEdit) (snd sampleEdit); OpUndo; OpRedo; OpUndo]))) <= 50.
Proof.
  apply (history_stays_within_capacity _ floatScene
           [OpPush (fst sampleEdit) (snd sampleEdit); OpUndo; OpRedo; OpUndo]).
  simpl. lia.
Defined.

(** Three undos after one edit. *)
Lemma undo_stops_at_the_empty_stack_witness :
  history (Nat.iter 3 undo (perform floatScene sampleEdit)) =
  {| undoStack := [];
     redoStack := redoStack (history (perform floatScene sampleEdit))
                  ++ rev (undoStack (history (perform floatScene sampleEdit))) |} /\
  canUndo (history (Nat.iter 3 undo (perform floatScene sampleEdit))) = false.
Proof.
  apply (undo_stops_at_the_empty_stack _ (perform floatScene sampleEdit) 3).
  simpl. lia.
Defined.

Lemma applying_a_fresh_capture_changes_nothing_witness :
  objects (applyPoses (capturePoses (state exactScene)) (state exactScene)) (object cube)
  = objects (state exactScene) (object cube).
Proof.
  apply (applying_a_fresh_capture_changes_nothing (state exactScene)).
  exact exactScene_uniqueIds.
Defined.

Lemma randomize_undo_redo_objects_witness :
  (forall r, objects (state (undo (randomizeNonStaticAssets alwaysZero exactScene))) r
             = objects (state exactScene) r) /\
  (forall r, objects (state (redo (undo (randomizeNonStaticAssets alwaysZero exactScene)))) r
             = objects (state (randomizeNonStaticAssets alwaysZero exactScene)) r).
Proof.
  apply (randomize_undo_redo_objects alwaysZero exactScene).
  - exact exactScene_uniqueIds.
  - exact exactScene_dynamic.
Defined.

Lemma randomize_keeps_heights_witness :
  vy (position (objects (state (randomizeNonStaticAssets alwaysZero exactScene)) (object cube)))
  = vy (position (objects (state exactScene) (object cube))).
Proof.
  apply (randomize_keeps_heights alwaysZero exactScene cube).
  - left. reflexivity.
  - cbn. constructor; [intros [] | constructor].
  - cbn. constructor; [intros [] | constructor].
Defined.

Lemma narrowScene_cannot_fit :
  canFit (fit (turnOf alwaysZero (state narrowScene) [] cube)) = false.
Proof.
  destruct (marker_fit (spawnBounds (state narrowScene))
              (posesOf (objects (state narrowScene))
                       (filter isDynamic (assets (state narrowScene))))
              (placedBefore alwaysZero (state narrowScene) []) cube)
    as (_ & _ & _ & _ & Hfit).
  unfold turnOf. rewrite Hfit.
  cbn [narrowScene onState state setSpawnBoundsState spawnBounds tenthsBounds minX maxX].
  unfold Rltb at 1.
  destruct (Rlt_dec (ofZ 3 / ofZ 10)%js (ofZ 3 / ofZ 10)%js) as [Hlt | _]; [| reflexivity].
  exfalso. exact (Rlt_irrefl _ Hlt).
Qed.

Lemma asset_too_big_is_centred_witness :
  vx (position (objects (state (randomizeNonStaticAssets alwaysZero narrowScene)) (object cube)))
  = div (add (minX (spawnBounds (state narrowScene))) (maxX (spawnBounds (state narrowScene))))
        (ofZ 2) /\
  vz (position (objects (state (randomizeNonStaticAssets alwaysZero narrowScene)) (object cube)))
  = neg (div (add (minY (spawnBounds (state narrowScene)))
                  (maxY (spawnBounds (state narrowScene)))) (ofZ 2)).
Proof.
  apply (asset_too_big_is_centred alwaysZero narrowScene [] [] cube).
  - reflexivity.
  - intros H. exact H.
  - exact narrowScene_cannot_fit.
Defined.

(** *** Two dynamic assets, one above the other *)

Section ShelfFacts.

Local Open Scope R_scope.

(** The box of a marker whose point is at its origin. *)
Lemma markerBox_centred (o : Object3D R R R) :
  geometry o = 0 -> markerBox o = {| box_min := position o; box_max := position o |}.
Proof.
  intros Hgeom. unfold markerBox. rewrite Hgeom.
  assert (Hpoint : {| vx := vx (position o) + 0 * vx (scale o) * cos (quaternion o);
                      vy := vy (position o);
                      vz := vz (position o) - 0 * vx (scale o) * sin (quaternion o) |}
                   = position o).
  { destruct (position o) as [x y z]. cbn [vx vy vz]. f_equal; lra. }
  rewrite Hpoint. reflexivity.
Qed.

(** With [Math.random()] at 0 and the default bounds, the attempt for a
    centred marker tries the corner of the rectangle at the height saved
    for it, and is accepted when that box is clear of the boxes placed. *)
Lemma corner_attempt saved (p0 p : Placement R R R) asset sp :
  mapGet saved (id asset) = Some sp ->
  geometry (placed_objects p (object asset)) = 0 ->
  let t := prepare DEFAULT_SPAWN_BOUNDS saved p0 asset in
  let result := attempt alwaysZero DEFAULT_SPAWN_BOUNDS asset (savedPose t) (fit t) p in
  getAssetBoundingBox (placed_objects (fst result)) asset = cornerBox (vy (pose_position sp)) /\
  snd result = negb (existsb (checkCollision (cornerBox (vy (pose_position sp))))
                             (placedBoxes p)).
Proof.
  intros Hsaved Hgeom t result.
  destruct (marker_fit DEFAULT_SPAWN_BOUNDS saved p0 asset) as (Hx & _ & Hy & _ & Hcan).
  fold t in Hx, Hy, Hcan.
  assert (Hfit : canFit (fit t) = true).
  { rewrite Hcan. cbn [DEFAULT_SPAWN_BOUNDS minX maxX minY maxY].
    change (Rltb (- (3 / 10)) (3 / 10) && Rltb (- (3 / 10)) (3 / 10) = true).
    rewrite Rltb_true by lra. reflexivity. }
  assert (Hsp : savedPose t = Some sp) by exact Hsaved.
  assert (Hh : originalHeight (fit t) = vy (pose_position sp)).
  { change (originalHeight (fit t))
      with (match savedPose t with
            | Some sp' => vy (pose_position sp')
            | None => vy (position (placed_objects (start t) (object asset)))
            end).
    rewrite Hsp. reflexivity. }
  assert (Hbox : getAssetBoundingBox (placed_objects (fst result)) asset
                 = cornerBox (vy (pose_position sp))).
  { unfold getAssetBoundingBox, result. rewrite Hsp.
    rewrite attempt_alwaysZero_object by exact Hfit.
    change (setFromObject ?o) with (markerBox o).
    rewrite markerBox_centred by exact Hgeom.
    cbn [position]. rewrite Hx, Hy, Hh. unfold cornerBox.
    cbn [DEFAULT_SPAWN_BOUNDS minX minY].
    change (- (ofZ 3 / ofZ 10))%js with (- (3 / 10)).
    replace (- - (3 / 10)) with (3 / 10) by lra. reflexivity. }
  split; [exact Hbox |].
  unfold result. rewrite attempt_flag by exact Hfit. fold result. rewrite Hbox.
  assert (Hwithin : isBoxWithinSpawnBounds DEFAULT_SPAWN_BOUNDS
                      (cornerBox (vy (pose_position sp))) = true).
  { unfold isBoxWithinSpawnBounds, cornerBox.
    cbn [DEFAULT_SPAWN_BOUNDS minX maxX minY maxY box_min box_max vx vz].
    change (Rleb (- (3 / 10)) (- (3 / 10)) && Rleb (- (3 / 10)) (3 / 10)
            && Rleb (- (3 / 10)) (3 / 10) && Rleb (3 / 10) (- - (3 / 10)) = true).
    rewrite !Rleb_true by lra. reflexivity. }
  rewrite Hwithin. apply andb_true_r.
Qed.

(** The loop stops at its first attempt when that one is accepted. *)
Lemma attempts_first_accepted random bounds asset sp f (p : Placement R R R) n :
  snd (attempt random bounds asset sp f p) = true ->
  attempts (S n) random bounds asset sp f p = (fst (attempt random bounds asset sp f p), true).
Proof.
  intros Hflag. rewrite attempts_succ. rewrite Hflag. reflexivity.
Qed.

(** The turn of a centred marker whose corner box is clear: its first
    attempt is accepted and its box, the corner at its height, is put
    on record. *)
Lemma corner_turn saved (p0 : Placement R R R) asset sp :
  mapGet saved (id asset) = Some sp ->
  geometry (placed_objects p0 (object asset)) = 0 ->
  existsb (checkCollision (cornerBox (vy (pose_position sp)))) (placedBoxes p0) = false ->
  snd (runAttempts alwaysZero DEFAULT_SPAWN_BOUNDS asset
         (prepare DEFAULT_SPAWN_BOUNDS saved p0 asset)) = true /\
  placedBoxes (placeAsset alwaysZero DEFAULT_SPAWN_BOUNDS saved p0 asset)
    = placedBoxes p0 ++ [cornerBox (vy (pose_position sp))].
Proof.
  intros Hsaved Hgeom Hclear.
  assert (Hgeom' : geometry (placed_objects (start (prepare DEFAULT_SPAWN_BOUNDS saved p0 asset))
                               (object asset)) = 0)
    by (rewrite prepare_start_objects; exact Hgeom).
  destruct (corner_attempt saved p0 (start (prepare DEFAULT_SPAWN_BOUNDS saved p0 asset))
              asset sp Hsaved Hgeom') as [Hbox Hflag].
  rewrite prepare_start_boxes, Hclear in Hflag. cbn [negb] in Hflag.
  assert (Hrun : runAttempts alwaysZero DEFAULT_SPAWN_BOUNDS asset
                   (prepare DEFAULT_SPAWN_BOUNDS saved p0 asset)
                 = (fst (attempt alwaysZero DEFAULT_SPAWN_BOUNDS asset
                           (savedPose (prepare DEFAULT_SPAWN_BOUNDS saved p0 asset))
                           (fit (prepare DEFAULT_SPAWN_BOUNDS saved p0 asset))
                           (start (prepare DEFAULT_SPAWN_BOUNDS saved p0 asset))), true)).
  { unfold runAttempts. change maxAttempts with (S 99).
    apply attempts_first_accepted. exact Hflag. }
  split; [rewrite Hrun; reflexivity |].
  rewrite placeAsset_boxes, placeAsset_objects, Hrun. cbn [fst]. rewrite Hbox. reflexivity.
Qed.

(** In the shelf scene the cube is placed first, at the corner on the
    ground; the ball then takes the same corner one unit higher, clear
    of the cube's box. *)
Lemma shelf_cube_box :
  placedBoxes (placedBefore alwaysZero (state shelfScene) [cube]) = [cornerBox 0].
Proof.
  change (placedBefore alwaysZero (state shelfScene) [cube])
    with (placeAsset alwaysZero DEFAULT_SPAWN_BOUNDS
            (posesOf (objects (state shelfScene)) [cube; ball])
            {| placed_objects := objects (state shelfScene); placedBoxes := []; drawn := 0 |}
            cube).
  refine (proj2 (corner_turn
                   (posesOf (objects (state shelfScene)) [cube; ball])
                   {| placed_objects := objects (state shelfScene);
                      placedBoxes := []; drawn := 0 |}
                   cube (poseOf (objects (state shelfScene)) cube) _ _ _)); reflexivity.
Qed.

Lemma shelf_ball_accepted :
  snd (runAttempts alwaysZero (spawnBounds (state shelfScene)) ball
         (turnOf alwaysZero (state shelfScene) [cube] ball)) = true.
Proof.
  change (snd (runAttempts alwaysZero DEFAULT_SPAWN_BOUNDS ball
                 (prepare DEFAULT_SPAWN_BOUNDS
                    (posesOf (objects (state shelfScene)) [cube; ball])
                    (placedBefore alwaysZero (state shelfScene) [cube]) ball)) = true).
  apply (corner_turn _ _ ball (poseOf (objects (state shelfScene)) ball)).
  - reflexivity.
  - unfold placedBefore. cbn [placeAll fold_left].
    rewrite (proj1 (placeAsset_shape _ _ _ _ _ _)). reflexivity.
  - rewrite shelf_cube_box. cbn [existsb]. unfold checkCollision.
    change (intersectsBox ?a ?b) with (boxesIntersect a b).
    unfold boxesIntersect, cornerBox. cbn [box_min box_max vx vy vz poseOf pose_position].
    change (vy (position (objects (state shelfScene) (object ball)))) with 1.
    rewrite (Rleb_false 1 0) by lra.
    rewrite !andb_false_r. reflexivity.
Qed.

End ShelfFacts.

(** The ball is accepted above the cube: its box is clear of the one
    box on record, the cube's. *)
Lemma accepted_placement_is_clear_witness :
  placedBoxes (placedBefore alwaysZero (state shelfScene) [cube]) = [cornerBox 0%R] /\
  existsb (checkCollision
             (getAssetBoundingBox
                (objects (state (randomizeNonStaticAssets alwaysZero shelfScene))) ball))
          (placedBoxes (placedBefore alwaysZero (state shelfScene) [cube])) = false /\
  (forall box, In box (placedBoxes (placedBefore alwaysZero (state shelfScene) [cube])) ->
     checkCollision
       (getAssetBoundingBox
          (objects (state (randomizeNonStaticAssets alwaysZero shelfScene))) ball) box = false).
Proof.
  split; [exact shelf_cube_box |].
  apply (accepted_placement_is_clear alwaysZero shelfScene [cube] [] ball).
  - reflexivity.
  - intros H. exact H.
  - exact shelf_ball_accepted.
Defined.

Lemma fitting_asset_origin_in_valid_rectangle_witness :
  (validMinX (fit (turnOf alwaysZero (state exactScene) [] cube))
   <= vx (position (objects (state (randomizeNonStaticAssets alwaysZero exactScene))
                      (object cube)))
   < validMaxX (fit (turnOf alwaysZero (state exactScene) [] cube)) /\
   validMinY (fit (turnOf alwaysZero (state exactScene) [] cube))
   <= - vz (position (objects (state (randomizeNonStaticAssets alwaysZero exactScene))
                        (object cube)))
   < validMaxY (fit (turnOf alwaysZero (state exactScene) [] cube)))%R.
Proof.
  apply (fitting_asset_origin_in_valid_rectangle alwaysZero exactScene [] [] cube).
  - intros k. unfold alwaysZero. lra.
  - reflexivity.
  - intros H. exact H.
  - apply (cubeTurn_fit [cube; table] 0%R).
Defined.

(** The wall is new to the registry. *)
Lemma addAsset_undo_redo_witness :
  assets (state (addAsset wall exactScene)) = assets (state exactScene) ++ [wall] /\
  state (undo (addAsset wall exactScene)) = state exactScene /\
  state (redo (undo (addAsset wall exactScene))) = state (addAsset wall exactScene).
Proof.
  apply (addAsset_undo_redo wall exactScene).
  intros b [<- | [<- | []]]; discriminate.
Defined.

(** Removing the cube and undoing: the cube is back, after the table. *)
Lemma removeAsset_undo_moves_to_the_end_witness :
  assets (state (undo (removeAsset "cube" exactScene))) = [table; cube] /\
  Permutation (assets (state (undo (removeAsset "cube" exactScene))))
              (assets (state exactScene)).
Proof.
  split; [reflexivity |].
  apply (proj1 (proj2 (proj2
           (proj1 (removeAsset_undo_moves_to_the_end "cube" exactScene) cube eq_refl)))).
  exact exactScene_uniqueIds.
Defined.

Lemma saveCurrentCondition_appends_the_capture_witness :
  savedConditions (state (saveCurrentCondition exactScene))
    = savedConditions (state exactScene) ++ [{| poses := capturePoses (state exactScene) |}] /\
  objects (state (saveCurrentCondition exactScene)) = objects (state exactScene) /\
  state (undo (saveCurrentCondition exactScene)) = state exactScene /\
  state (redo (undo (saveCurrentCondition exactScene)))
    = state (saveCurrentCondition exactScene).
Proof.
  apply (proj1 (saveCurrentCondition_appends_the_capture exactScene)).
  exact exactScene_dynamic.
Defined.


(** The condition saved before the randomization brings the cube back. *)
Lemma loading_a_saved_condition_restores_its_poses_witness :
  (forall a, In a (assets (state savedThenRandomized)) -> isDynamic a = true ->
     objects (state (loadCondition (Z.of_nat 0) savedThenRandomized)) (object a)
     = posed (objects (state savedThenRandomized) (object a))
             (poseAt (objects (state exactScene)) (object a))) /\
  (forall r, ~ In r (map object (filter isDynamic (assets (state savedThenRandomized)))) ->
     objects (state (loadCondition (Z.of_nat 0) savedThenRandomized)) r
     = objects (state savedThenRandomized) r).
Proof.
  apply (loading_a_saved_condition_restores_its_poses 0 savedThenRandomized (state exactScene)).
  - exact exactScene_uniqueIds.
  - reflexivity.
  - reflexivity.
Defined.

Lemma loadCondition_undo_restores_objects_witness :
  objects (state (undo (loadCondition (Z.of_nat 0) savedThenRandomized))) (object cube)
  = objects (state savedThenRandomized) (object cube).
Proof.
  apply (loadCondition_undo_restores_objects 0 savedThenRandomized
           {| poses := capturePoses (state exactScene) |}).
  - exact exactScene_uniqueIds.
  - reflexivity.
  - intros k a [Hk | []] Hfound.
    cbn in Hk. subst k. cbn in Hfound. injection Hfound as <-. reflexivity.
Defined.

(** Typing "pick" into the empty instruction field. *)
Lemma instruction_session_is_one_undo_step_witness :
  instruction (state (fst (editInstruction sampleTyping floatScene
                             {| beforeValueRef := None |}))) = "pick"%string /\
  List.length (undoStack (history (fst (editInstruction sampleTyping floatScene
                                          {| beforeValueRef := None |})))) = 1 /\
  state (undo (fst (editInstruction sampleTyping floatScene
                      {| beforeValueRef := None |}))) = state floatScene.
Proof.
  split; [reflexivity |]. split; [reflexivity |].
  apply (proj2 (proj2 (proj2
           (instruction_session_is_one_undo_step sampleTyping floatScene
              {| beforeValueRef := None |})))).
  discriminate.
Defined.

(** Entering Randomize mode with bounds 0.1 .. 0.7: the bounds of the
    state become the ones read back from the proxy, 0.09999999999999998
    for minX. *)
Lemma randomize_mode_is_entered_or_a_hint_is_shown_witness :
  isRandomizeMode (fst (handleEnterRandomize (state tenthsScene))) = true /\
  spawnBounds (fst (handleEnterRandomize (state tenthsScene)))
    = boundsFromMesh (createBoundsMesh (spawnBounds (state tenthsScene))) /\
  PrimFloat.eqb (minX (spawnBounds (state tenthsScene))) 0x1.999999999999ap-4 = true /\
  PrimFloat.eqb (minX (spawnBounds (fst (handleEnterRandomize (state tenthsScene)))))
                0x1.9999999999998p-4 = true.
Proof.
  pose proof (proj1 (proj2 (proj2
                (randomize_mode_is_entered_or_a_hint_is_shown _ _ _ _ (state tenthsScene))))
                eq_refl) as (_ & Hmode & _ & Hbounds & _).
  split; [exact Hmode |]. split; [exact Hbounds |].
  split; vm_compute; reflexivity.
Defined.

(** In Randomize mode, typing 0.5 and then 0.3 into the maxX field,
    which held 0.3: the bounds end off their values at focus, one
    command is pushed, and its undo restores the bounds at focus. *)
Lemma bounds_session_is_one_undo_step_witness :
  isRandomizeMode (state randomizingScene) = true /\
  PrimFloat.eqb (minX (spawnBounds (state randomizingScene))) (-0x1.3333333333333p-2) = true /\
  PrimFloat.eqb
    (minX (spawnBounds (state (fst (editBounds thereAndBack randomizingScene
                                      {| beforeBoundsRef := None |})))))
    (-0x1.3333333333334p-2) = true /\
  List.length (undoStack (history (fst (editBounds thereAndBack randomizingScene
                                          {| beforeBoundsRef := None |})))) = 1 /\
  spawnBounds (state (undo (fst (editBounds thereAndBack randomizingScene
                                   {| beforeBoundsRef := None |}))))
  = spawnBounds (state randomizingScene).
Proof.
  split; [reflexivity |]. split; [vm_compute; reflexivity |].
  split; [vm_compute; reflexivity |]. split; [vm_compute; reflexivity |].
  apply (fun changed =>
           proj1 (proj2 (proj1 (proj2 (proj2 (proj2
             (bounds_session_is_one_undo_step thereAndBack randomizingScene)))) changed))).
  vm_compute. reflexivity.
Defined.

(** A click on the cube, a key and a drag, from the idle manager. *)
Lemma gizmo_and_outline_follow_the_selection_witness :
  follows (manager (runEvents idleDrag sampleEvents)).
Proof.
  apply (gizmo_and_outline_follow_the_selection idleDrag sampleEvents).
  split; [reflexivity | left; reflexivity].
Defined.


(** The table is dragged; the mouse-down reaches the manager after the
    drag has begun.  The drag is reported, and the click that follows,
    over the cube, selects the cube. *)
Lemma drag_reports_before_and_after_witness :
  snd (onDraggingChanged false movedStore
         (onManager (onMouseDown (clickAt 400 300))
            (fst (onDraggingChanged true restStore tableDrag))))
    = Some {| assetId := id table;
              before := snapshot (restStore (object table));
              after := snapshot (movedStore (object table)) |} /\
  manager (fst (onDraggingChanged false movedStore
                  (onManager (onMouseDown (clickAt 400 300))
                     (fst (onDraggingChanged true restStore tableDrag)))))
    = onMouseDown (clickAt 400 300) (manager tableDrag) /\
  selectedAsset
    (onClick (clickAt 400 300)
       (manager (fst (onDraggingChanged false movedStore
                        (onManager (onMouseDown (clickAt 400 300))
                           (fst (onDraggingChanged true restStore tableDrag)))))))
    = Some cube.
Proof.
  pose proof (drag_reports_before_and_after restStore movedStore tableDrag table
                eq_refl (or_introl eq_refl) eq_refl) as Hdrag.
  cbv zeta in Hdrag.
  destruct Hdrag as (_ & _ & _ & _ & _ & _ & Hdown).
  destruct (Hdown (clickAt 400 300)) as (Hreport & _ & _ & Hidle).
  destruct (Hidle eq_refl) as [Hmanager Hclick].
  split; [exact Hreport |]. split; [exact Hmanager |].
  rewrite Hclick. vm_compute. reflexivity.
Defined.

(** The cube dragged from one unit along X to the centre. *)
Lemma undo_of_a_drag_restores_position_and_scale_witness :
  let s0 := setPosition (objects (state exactScene)) (object cube)
              {| vx := 1%R; vy := 0%R; vz := 0%R |} in
  let event := {| assetId := id cube;
                  before := snapshot (s0 (object cube));
                  after := snapshot (objects (state exactScene) (object cube)) |} in
  position (objects (state (undo (handleTransformDragEnd event exactScene))) (object cube))
    = position (s0 (object cube)) /\
  scale (objects (state (undo (handleTransformDragEnd event exactScene))) (object cube))
    = scale (s0 (object cube)) /\
  (forall r, r <> object cube ->
     objects (state (undo (handleTransformDragEnd event exactScene))) r
     = objects (state exactScene) r) /\
  position (objects (state (redo (undo (handleTransformDragEnd event exactScene))))
              (object cube))
    = position (objects (state exactScene) (object cube)) /\
  scale (objects (state (redo (undo (handleTransformDragEnd event exactScene)))) (object cube))
    = scale (objects (state exactScene) (object cube)).
Proof.
  apply (undo_of_a_drag_restores_position_and_scale
           (setPosition (objects (state exactScene)) (object cube)
              {| vx := 1%R; vy := 0%R; vz := 0%R |})
           exactScene cube).
  - exact exactScene_uniqueIds.
  - left. reflexivity.
Defined.

(** A click 10 pixels away from the mouse-down. *)
Lemma click_five_pixels_from_mouse_down_is_a_drag_witness :
  onClick {| clientX := 6%R; clientY := 8%R |}
          (onMouseDown {| clientX := 0%R; clientY := 0%R |} restingManager)
  = setWasDragging false (setMouseDownPos None restingManager).
Proof.
  apply (proj1 (click_five_pixels_from_mouse_down_is_a_drag
                  {| clientX := 0%R; clientY := 0%R |} {| clientX := 6%R; clientY := 8%R |}
                  restingManager eq_refl)).
  cbn [clientX clientY]. lra.
Defined.

(** Ctrl+Z and then Ctrl+Y on the page, after one edit; and
    Ctrl+Shift+Z as the keyboard reports it. *)
Lemma shortcuts_undo_and_redo_outside_text_fields_witness :
  handleKeyDown (chord OtherElement "y" false)
    (handleKeyDown (chord OtherElement "z" false)
       {| state := snd sampleEdit; history := pushCommand emptyHistory (fst sampleEdit) |})
  = {| state := execute (fst sampleEdit) (cmd_undo (fst sampleEdit) (snd sampleEdit));
       history := pushCommand emptyHistory (fst sampleEdit) |} /\
  handleKeyDown (chord OtherElement "Z" true)
    (undo {| state := snd sampleEdit; history := pushCommand emptyHistory (fst sampleEdit) |})
  = undo {| state := snd sampleEdit; history := pushCommand emptyHistory (fst sampleEdit) |}.
Proof.
  pose proof (shortcuts_undo_and_redo_outside_text_fields _
                (chord OtherElement "z" false) (chord OtherElement "y" false)
                (snd sampleEdit) emptyHistory (fst sampleEdit)
                eq_refl eq_refl eq_refl eq_refl eq_refl) as (Hpage & _ & Hcapital & _).
  split.
  - apply (proj2 (Hpage eq_refl eq_refl)).
  - apply Hcapital. reflexivity.
Defined.

